(** * MyKitchen: the recipe-extraction core of [app.py], embedded in Rocq

    The development follows the source file top-down:

    - [Str]: the Python string operations the core uses ([str.strip],
      [str(int)]), over [string];
    - [Re]: the fragment of Python's [re] module the source patterns need
      (a backtracking matcher with greedy quantifiers, groups, lookahead,
      [^] and [\b]; [re.match], [re.search], [re.sub], [re.split]);
    - [Float]: IEEE-754 binary64 values, as Python's [float] has them;
    - [Normalizer]: [decimal_to_fraction], [clean_ingredient],
      [clean_ingredients], [split_embedded_steps];
    - [Json], [Soup]: the values [json.loads] and BeautifulSoup hand to the
      extractors;
    - [Extract]: [extract_schema_recipe], [extract_weekendbakery_recipe],
      [extract_generic_recipe] and the orchestrator [fetch_recipe].

    Characters are the code points below 256.  On them [\d], [\s], [\w]
    and [str.strip] are Python's; case folding is ASCII's, which is
    Python's on ASCII text and wherever a pattern's letters are ASCII. *)

From Stdlib Require Import Bool Arith List String Ascii ZArith.
From Stdlib Require Import QArith Qpower Qround Qabs Lia Lqa.
From Stdlib Require Import Numbers.DecimalString Numbers.DecimalZ.
From Stdlib Require Import Numbers.DecimalFacts Numbers.DecimalPos.
From Stdlib Require Import Permutation Sorted.
Import ListNotations.

Open Scope string_scope.
Open Scope bool_scope.

Set Implicit Arguments.
Set Warnings "-register-all".

(* ================================================================== *)
(** * Strings *)
(* ================================================================== *)

Module Str.

Definition is_digit (c : ascii) : bool :=
  let n := nat_of_ascii c in (48 <=? n)%nat && (n <=? 57)%nat.

(** [str.isspace], which is also [\s] and what [str.strip] removes: TAB,
    LF, VT, FF, CR, FS, GS, RS, US, SPACE, NEL (U+0085) and the no-break
    space (U+00A0). *)
Definition is_space (c : ascii) : bool :=
  let n := nat_of_ascii c in
  ((9 <=? n)%nat && (n <=? 13)%nat) || ((28 <=? n)%nat && (n <=? 32)%nat) ||
  (n =? 133)%nat || (n =? 160)%nat.

Definition is_upper (c : ascii) : bool :=
  let n := nat_of_ascii c in (65 <=? n)%nat && (n <=? 90)%nat.

Definition is_lower (c : ascii) : bool :=
  let n := nat_of_ascii c in (97 <=? n)%nat && (n <=? 122)%nat.

(** The alphanumeric characters from U+0080 to U+00FF: the ordinal
    indicators, the micro sign, the superscript digits, the vulgar
    fractions, and the letters from U+00C0 on (all but the multiplication
    and division signs). *)
Definition is_latin1_alnum (c : ascii) : bool :=
  let n := nat_of_ascii c in
  (n =? 170)%nat || (n =? 178)%nat || (n =? 179)%nat || (n =? 181)%nat ||
  (n =? 185)%nat || (n =? 186)%nat ||
  ((188 <=? n)%nat && (n <=? 190)%nat) ||
  ((192 <=? n)%nat && negb (n =? 215)%nat && negb (n =? 247)%nat).

(** [\w]: the alphanumeric characters and the underscore. *)
Definition is_word (c : ascii) : bool :=
  is_digit c || is_upper c || is_lower c || (c =? "_")%char ||
  is_latin1_alnum c.

Definition lower (c : ascii) : ascii :=
  if is_upper c then ascii_of_nat (nat_of_ascii c + 32) else c.

Fixpoint all (p : ascii -> bool) (s : string) : bool :=
  match s with
  | EmptyString => true
  | String c t => p c && all p t
  end.

(** The first character satisfies [p] (false on the empty string). *)
Definition starts (p : ascii -> bool) (s : string) : bool :=
  match s with
  | EmptyString => false
  | String c _ => p c
  end.

Fixpoint rev_onto (s acc : string) : string :=
  match s with
  | EmptyString => acc
  | String c t => rev_onto t (String c acc)
  end.

Definition rev (s : string) : string := rev_onto s "".

Fixpoint lstrip (s : string) : string :=
  match s with
  | String c t => if is_space c then lstrip t else s
  | EmptyString => s
  end.

Definition rstrip (s : string) : string := rev (lstrip (rev s)).

(** [s.strip()] *)
Definition strip (s : string) : string := rstrip (lstrip s).

(** The longest prefix of characters satisfying [p], and what follows. *)
Fixpoint span (p : ascii -> bool) (s : string) : string * string :=
  match s with
  | String c t =>
      if p c then let (a, b) := span p t in (String c a, b) else ("", s)
  | EmptyString => ("", "")
  end.

(** The last character of [s], or [p] when [s] is empty. *)
Fixpoint last_or (p : option ascii) (s : string) : option ascii :=
  match s with
  | EmptyString => p
  | String c t => last_or (Some c) t
  end.

(** [str(n)] for an integer [n]. *)
Definition of_Z (n : Z) : string := NilZero.string_of_int (Z.to_int n).

Definition digit_val (c : ascii) : Z := Z.of_nat (nat_of_ascii c) - 48.

(** [int(s)] on a string of decimal digits, most significant first. *)
Fixpoint to_Z_acc (s : string) (acc : Z) : Z :=
  match s with
  | EmptyString => acc
  | String c t => to_Z_acc t (10 * acc + digit_val c)
  end.

Definition to_Z (s : string) : Z := to_Z_acc s 0.

(** Python truthiness of a [str]. *)
Definition nonempty (s : string) : bool :=
  match s with EmptyString => false | _ => true end.

End Str.

(* ================================================================== *)
(** * Regular expressions: the fragment of Python's [re] used by the source *)
(* ================================================================== *)

Module Re.

Inductive cls := Digit | Space | Word | AnyChar.

Definition cls_mem (c : cls) (a : ascii) : bool :=
  match c with
  | Digit => Str.is_digit a
  | Space => Str.is_space a
  | Word => Str.is_word a
  | AnyChar => negb (a =? "010")%char   (* [.] without DOTALL *)
  end.

Inductive regex :=
| Eps
| Chr (c : ascii)
| Cls (c : cls)
| Seq (r1 r2 : regex)
| Alt (r1 r2 : regex)
| Star (r : regex)                 (* greedy [r*] *)
| Group (n : nat) (r : regex)      (* capturing group number [n] *)
| Ahead (r : regex)                (* [(?=r)] *)
| Bol                              (* [^] without MULTILINE *)
| Wordb.                           (* [\b] *)

Definition Plus (r : regex) : regex := Seq r (Star r).
Definition Opt (r : regex) : regex := Alt r Eps.

Fixpoint Lit (s : string) : regex :=
  match s with
  | EmptyString => Eps
  | String c EmptyString => Chr c
  | String c t => Seq (Chr c) (Lit t)
  end.

Fixpoint Alts (rs : list regex) : regex :=
  match rs with
  | [] => Eps
  | [r] => r
  | r :: rs' => Alt r (Alts rs')
  end.

Fixpoint Seqs (rs : list regex) : regex :=
  match rs with
  | [] => Eps
  | [r] => r
  | r :: rs' => Seq r (Seqs rs')
  end.

(** A position in the subject: the character just before it ([None] at the
    start of the string), the text still ahead, and the groups captured on
    the way (most recent first). *)
Record mstate := MState {
  prev : option ascii;
  rest : string;
  caps : list (nat * string)
}.

Definition advance (a : ascii) (t : string) (st : mstate) : mstate :=
  MState (Some a) t (caps st).

Definition chr_eq (ic : bool) (a c : ascii) : bool :=
  if ic then (Str.lower a =? Str.lower c)%char else (a =? c)%char.

Definition word_before (st : mstate) : bool :=
  match prev st with Some a => Str.is_word a | None => false end.

Definition word_after (st : mstate) : bool := Str.starts Str.is_word (rest st).

(** The text consumed between two positions of one subject. *)
Definition consumed (st st' : mstate) : string :=
  substring 0 (length (rest st) - length (rest st')) (rest st).

Definition K := mstate -> option mstate.

(** Greedy iteration: try one more round of [body] (which has to consume
    something), and fall back to the continuation when that fails. *)
Fixpoint star_loop (body : mstate -> K -> option mstate) (k : K)
         (fuel : nat) (st : mstate) : option mstate :=
  match fuel with
  | O => k st
  | S fuel' =>
      match body st (fun st' =>
              if (length (rest st') <? length (rest st))%nat
              then star_loop body k fuel' st' else None) with
      | Some r => Some r
      | None => k st
      end
  end.

(** The backtracking matcher, in continuation-passing style: [m ic r st k]
    is the first way, in the engine's priority order, of matching [r] at
    [st] so that [k] accepts the position reached.  [ic] is IGNORECASE. *)
Fixpoint m (ic : bool) (r : regex) (st : mstate) (k : K) {struct r}
  : option mstate :=
  match r with
  | Eps => k st
  | Chr c =>
      match rest st with
      | String a t => if chr_eq ic a c then k (advance a t st) else None
      | EmptyString => None
      end
  | Cls c =>
      match rest st with
      | String a t => if cls_mem c a then k (advance a t st) else None
      | EmptyString => None
      end
  | Seq r1 r2 => m ic r1 st (fun st' => m ic r2 st' k)
  | Alt r1 r2 =>
      match m ic r1 st k with
      | Some x => Some x
      | None => m ic r2 st k
      end
  | Star r' => star_loop (m ic r') k (S (length (rest st))) st
  | Group n r' =>
      m ic r' st (fun st' =>
        k (MState (prev st') (rest st') ((n, consumed st st') :: caps st')))
  | Ahead r' =>
      match m ic r' st (fun st' => Some st') with
      | Some st' => k (MState (prev st) (rest st) (caps st'))
      | None => None
      end
  | Bol => match prev st with None => k st | Some _ => None end
  | Wordb => if xorb (word_before st) (word_after st) then k st else None
  end.

(** A match object: the text before the match, the matched text, the
    groups, and the position where the match ends. *)
Record match_obj := Match {
  m_pre : string;
  m_text : string;
  m_end : mstate
}.

(** [match.group(n)] for [n >= 1]; [None] when the group took no part. *)
Fixpoint assoc (n : nat) (l : list (nat * string)) : option string :=
  match l with
  | [] => None
  | (k, v) :: l' => if (k =? n)%nat then Some v else assoc n l'
  end.

Definition group (mo : match_obj) (n : nat) : option string :=
  assoc n (caps (m_end mo)).

(** One attempt at one position.  [must_advance] refuses an empty match
    there (the engine sets it after an empty match, in [sub] and [split]). *)
Definition try_at (ic : bool) (r : regex) (must_advance : bool)
           (p : option ascii) (s : string) : option match_obj :=
  let st := MState p s [] in
  match m ic r st (fun st' =>
          if must_advance && (length (rest st') =? length s)%nat
          then None else Some st') with
  | Some st' => Some (Match "" (consumed st st') st')
  | None => None
  end.

(** The leftmost match at or after the current position. *)
Fixpoint search_from (ic : bool) (r : regex) (must_advance : bool)
         (p : option ascii) (s : string) : option match_obj :=
  match try_at ic r must_advance p s with
  | Some mo => Some mo
  | None =>
      match s with
      | EmptyString => None
      | String a t =>
          match search_from ic r false (Some a) t with
          | Some mo => Some (Match (String a (m_pre mo)) (m_text mo) (m_end mo))
          | None => None
          end
      end
  end.

(** [re.match(r, s)] *)
Definition rmatch (ic : bool) (r : regex) (s : string) : option match_obj :=
  try_at ic r false None s.

(** [re.search(r, s)] *)
Definition search (ic : bool) (r : regex) (s : string) : option match_obj :=
  search_from ic r false None s.

Definition found (o : option match_obj) : bool :=
  match o with Some _ => true | None => false end.

(** [re.sub(r, f, s)] with a callable replacement. *)
Fixpoint sub_loop (fuel : nat) (ic : bool) (r : regex)
         (f : match_obj -> string) (must_advance : bool)
         (p : option ascii) (s : string) : string :=
  match fuel with
  | O => s
  | S fuel' =>
      match search_from ic r must_advance p s with
      | None => s
      | Some mo =>
          m_pre mo ++ f mo ++
          sub_loop fuel' ic r f
            (match m_text mo with EmptyString => true | _ => false end)
            (prev (m_end mo)) (rest (m_end mo))
      end
  end.

Definition sub (ic : bool) (r : regex) (f : match_obj -> string) (s : string)
  : string :=
  sub_loop (2 * length s + 2) ic r f false None s.

(** [re.split(r, s)] for a pattern without capturing groups (Python 3.7 and
    later: an empty match splits too). *)
Fixpoint split_loop (fuel : nat) (ic : bool) (r : regex)
         (must_advance : bool) (p : option ascii) (s : string) : list string :=
  match fuel with
  | O => [s]
  | S fuel' =>
      match search_from ic r must_advance p s with
      | None => [s]
      | Some mo =>
          m_pre mo ::
          split_loop fuel' ic r
            (match m_text mo with EmptyString => true | _ => false end)
            (prev (m_end mo)) (rest (m_end mo))
      end
  end.

Definition split (ic : bool) (r : regex) (s : string) : list string :=
  split_loop (2 * length s + 2) ic r false None s.

End Re.

(* ================================================================== *)
(** * Binary64 floating point, as Python's [float] *)
(* ================================================================== *)

Module Float.

Open Scope Q_scope.

(** A finite double is represented by the rational number it denotes. *)
Inductive float :=
| Fin (x : Q)
| PosInf.

Definition pow2 (e : Z) : Q := 2 ^ e.

Definition Qltb (x y : Q) : bool := negb (Qle_bool y x).

(** [floor (log2 q)] for [q > 0]. *)
Definition floor_log2 (q : Q) : Z :=
  let e0 := (Z.log2 (Qnum q) - Z.log2 (Zpos (Qden q)))%Z in
  if Qle_bool (pow2 e0) q then e0 else (e0 - 1)%Z.

(** The nearest integer, ties to even. *)
Definition round_int_ne (q : Q) : Z :=
  let f := Qfloor q in
  match Qcompare (q - inject_Z f) (1 # 2) with
  | Lt => f
  | Gt => (f + 1)%Z
  | Eq => if Z.even f then f else (f + 1)%Z
  end.

(** The exponent of the last place of the binade of [q > 0]: 53 bits of
    precision, subnormals below 2^-1022. *)
Definition ulp_exp (q : Q) : Z := Z.max (floor_log2 q - 52) (-1074).

Definition rnd_pos (q : Q) : Q :=
  let e := ulp_exp q in
  Qred (inject_Z (round_int_ne (q / pow2 e)) * pow2 e).

(** Round to nearest, ties to even, on the binary64 grid (the exponent is
    not bounded above here; [overflows] is the test for that). *)
Definition rnd (q : Q) : Q :=
  match Qcompare q 0 with
  | Eq => 0
  | Gt => rnd_pos q
  | Lt => - rnd_pos (- q)
  end.

Definition overflows (x : Q) : bool := Qle_bool (pow2 1024) (Qabs x).

(** [x - y] on doubles whose difference stays in range. *)
Definition sub (x y : Q) : Q := rnd (x - y).

(** [float(n)] for an integer [n] in range. *)
Definition of_Z (n : Z) : Q := rnd (inject_Z n).

(** [int(x)]: truncation towards zero. *)
Definition trunc (x : Q) : Z :=
  if Qle_bool 0 x then Qfloor x else Qceiling x.

(** The number a decimal literal [ip.fp] denotes. *)
Definition decimal_value (ip fp : string) : Q :=
  Str.to_Z (ip ++ fp) # Pos.pow 10 (Pos.of_nat (length fp)).

Definition literal_value (ip fp : string) : Q :=
  match fp with
  | EmptyString => inject_Z (Str.to_Z ip)
  | _ => Qred (decimal_value ip fp)
  end.

(** [float(s)] on the strings of the shape [digits], [digits.digits],
    [.digits] or [digits.]: correctly rounded, and [inf] when the value is
    too large.  [None] is ValueError.  (Python's [float] also reads signs,
    exponents, underscores, surrounding blanks, "inf" and "nan"; no caller
    in the source passes such a string, and they are rejected here.) *)
Definition of_string (s : string) : option float :=
  let (ip, r) := Str.span Str.is_digit s in
  let accept (fp : string) :=
    let x := rnd (literal_value ip fp) in
    Some (if overflows x then PosInf else Fin x) in
  match r with
  | EmptyString => if Str.nonempty ip then accept "" else None
  | String c r' =>
      if (c =? ".")%char then
        let (fp, r'') := Str.span Str.is_digit r' in
        match r'' with
        | EmptyString =>
            if Str.nonempty ip || Str.nonempty fp then accept fp else None
        | _ => None
        end
      else None
  end.

(** [Fraction(x).limit_denominator(max_denominator)], the continued-fraction
    loop of the standard library's [fractions.py]. *)
Fixpoint limit_loop (fuel : nat) (maxd p0 q0 p1 q1 n d : Z)
  : Z * Z * Z * Z :=
  match fuel with
  | O => (p0, q0, p1, q1)
  | S fuel' =>
      let a := (n / d)%Z in
      let q2 := (q0 + a * q1)%Z in
      if (maxd <? q2)%Z then (p0, q0, p1, q1)
      else limit_loop fuel' maxd p1 q1 (p0 + a * p1)%Z q2 d (n - a * d)%Z
  end.

Definition limit_denominator (x : Q) (maxd : Z) : Q :=
  let x := Qred x in
  let n := Qnum x in
  let d := Zpos (Qden x) in
  if (d <=? maxd)%Z then x
  else
    let '(p0, q0, p1, q1) :=
      limit_loop (2 * Z.to_nat (Z.log2 d) + 4) maxd 0 1 1 0 n d in
    let k := ((maxd - q0) / q1)%Z in
    let bound1 := Qred ((p0 + k * p1)%Z # Z.to_pos (q0 + k * q1)) in
    let bound2 := Qred (p1 # Z.to_pos q1) in
    if Qle_bool (Qabs (bound2 - x)) (Qabs (bound1 - x)) then bound2
    else bound1.

End Float.

(* ================================================================== *)
(** * The text normalizer *)
(* ================================================================== *)

Module Normalizer.

Import Re.

Definition common_fractions : list (Q * string) :=
  [ (Float.rnd (125 # 1000), "1/8");
    (Float.rnd (25 # 100),   "1/4");
    (Float.rnd (333 # 1000), "1/3");
    (Float.rnd (375 # 1000), "3/8");
    (Float.rnd (5 # 10),     "1/2");
    (Float.rnd (625 # 1000), "5/8");
    (Float.rnd (666 # 1000), "2/3");
    (Float.rnd (667 # 1000), "2/3");
    (Float.rnd (75 # 100),   "3/4");
    (Float.rnd (875 # 1000), "7/8") ].

(** The literal [0.02]. *)
Definition tolerance : Q := Float.rnd (2 # 100).

Definition close_to (frac_part : Q) (entry : Q * string) : bool :=
  Float.Qltb (Qabs (Float.sub frac_part (fst entry))) tolerance.

(** The tail of [decimal_to_fraction]: "use Fraction class". *)
Definition fraction_string (num : Q) : string :=
  let frac := Float.limit_denominator num 8 in
  let numerator := Qnum frac in
  let denominator := Zpos (Qden frac) in
  if (denominator =? 1)%Z then Str.of_Z numerator
  else if (denominator <? numerator)%Z then
    let whole := (numerator / denominator)%Z in
    let remainder := (numerator mod denominator)%Z in
    if (remainder =? 0)%Z then Str.of_Z whole
    else Str.of_Z whole ++ " " ++ Str.of_Z remainder ++ "/" ++ Str.of_Z denominator
  else Str.of_Z numerator ++ "/" ++ Str.of_Z denominator.

(** [decimal_to_fraction] once [float(decimal_str)] has given the finite
    number [num]. *)
Definition fraction_of_float (num : Q) : string :=
  if Qeq_bool num (inject_Z (Float.trunc num))
  then Str.of_Z (Float.trunc num)
  else
    let whole_part := Float.trunc num in
    let frac_part := Float.sub num (Float.of_Z whole_part) in
    match find (close_to frac_part) common_fractions with
    | Some (_, fraction) =>
        if (0 <? whole_part)%Z
        then Str.of_Z whole_part ++ " " ++ fraction
        else fraction
    | None => fraction_string num
    end.

Definition decimal_to_fraction (decimal_str : string) : string :=
  match Float.of_string decimal_str with
  | None => decimal_str                      (* ValueError *)
  | Some Float.PosInf => decimal_str         (* int(inf): OverflowError *)
  | Some (Float.Fin num) => fraction_of_float num
  end.

(** The cooking fractions of the table, as numbers. *)
Definition cooking_fractions : list (Q * string) :=
  [ (1 # 8, "1/8"); (1 # 4, "1/4"); (1 # 3, "1/3"); (3 # 8, "3/8");
    (1 # 2, "1/2"); (5 # 8, "5/8"); (2 # 3, "2/3"); (3 # 4, "3/4");
    (7 # 8, "7/8") ].

(** The fraction, after the whole part when there is one. *)
Definition with_whole (whole_part : Z) (fraction : string) : string :=
  if (0 <? whole_part)%Z then Str.of_Z whole_part ++ " " ++ fraction
  else fraction.

(** [r'(\d*\.\d+)'] *)
Definition decimal_pattern : regex :=
  Group 1 (Seqs [Star (Cls Digit); Chr "."; Plus (Cls Digit)]).

(** What [decimal_pattern] takes at the head of [s]: a run of digits, the
    point, and the digits after it (one at least); with the text left. *)
Definition leading_decimal (s : string) : option (string * string) :=
  let (ds, r) := Str.span Str.is_digit s in
  match r with
  | String c r' =>
      if (c =? ".")%char then
        let (fs, r3) := Str.span Str.is_digit r' in
        if Str.nonempty fs then Some (ds ++ String "." fs, r3) else None
      else None
  | EmptyString => None
  end.

(** Two periods and a digit in a row, somewhere in [s]. *)
Fixpoint dot_dot_digit (s : string) : bool :=
  match s with
  | String a t =>
      ((a =? ".")%char &&
       match t with
       | String b (String c _) => (b =? ".")%char && Str.is_digit c
       | _ => false
       end)
      || dot_dot_digit t
  | EmptyString => false
  end.

(** No point in [t]. *)
Definition no_dot (t : string) : bool :=
  Str.all (fun c => negb (c =? ".")%char) t.

(** What may follow a run of digits without making a literal of it. *)
Definition run_end (tail : string) : bool :=
  match tail with
  | EmptyString => true
  | String c x =>
      if (c =? ".")%char then negb (Str.starts Str.is_digit x)
      else negb (Str.is_digit c)
  end.

(** A literal too large for a double. *)
Definition overflowing (p : string) : Prop :=
  exists ds fs,
    p = ds ++ String "." fs /\
    Str.all Str.is_digit ds = true /\ Str.all Str.is_digit fs = true /\
    Str.nonempty fs = true /\
    Float.overflows (Float.rnd (Float.literal_value ds fs)) = true.

Definition replace_decimal (mo : match_obj) : string :=
  match group mo 1 with
  | Some g => decimal_to_fraction g
  | None => ""    (* group 1 is the whole pattern: it always takes part *)
  end.

Definition clean_ingredient (ingredient : string) : string :=
  Re.sub false decimal_pattern replace_decimal ingredient.

Definition clean_ingredients (ingredients : list string) : list string :=
  map clean_ingredient ingredients.

(** [r'\d+\.\s+.+\d+\.\s+'] *)
Definition embedded_steps_pattern : regex :=
  Seqs [Plus (Cls Digit); Chr "."; Plus (Cls Space); Plus (Cls AnyChar);
        Plus (Cls Digit); Chr "."; Plus (Cls Space)].

(** [r'(?=\d+\.\s+)'] *)
Definition step_boundary_pattern : regex :=
  Ahead (Seqs [Plus (Cls Digit); Chr "."; Plus (Cls Space)]).

(** [r'^\d+\.\s*'] *)
Definition leading_number_pattern : regex :=
  Seqs [Bol; Plus (Cls Digit); Chr "."; Star (Cls Space)].

(** [re.sub(r'^\d+\.\s*', '', s).strip()] *)
Definition strip_leading_number (s : string) : string :=
  Str.strip (Re.sub false leading_number_pattern (fun _ => "") s).

Definition keep_nonempty (s : string) : list string :=
  if Str.nonempty s then [s] else [].

(** The body of the loop of [split_embedded_steps] for one [step]: the
    steps it appends to [cleaned_steps]. *)
Definition split_step (step : string) : list string :=
  if found (Re.search false embedded_steps_pattern step) then
    flat_map
      (fun part =>
         let part := Str.strip part in
         if Str.nonempty part
         then keep_nonempty (strip_leading_number part)
         else [])
      (Re.split false step_boundary_pattern step)
  else keep_nonempty (strip_leading_number step).

Definition split_embedded_steps (instructions : list string) : list string :=
  match instructions with
  | [] => instructions
  | _ =>
      match flat_map split_step instructions with
      | [] => instructions
      | cleaned_steps => cleaned_steps
      end
  end.

(** A step as [split_embedded_steps] appends it: not empty, and with no
    blank at either end. *)
Definition trimmed (s : string) : Prop := s <> "" /\ Str.strip s = s.

(** No digit in [s]. *)
Definition no_digit (s : string) : bool :=
  Str.all (fun c => negb (Str.is_digit c)) s.

(** Steps numbered with one digit each and written on one line, as in the
    docstring of [split_embedded_steps]: "1. First step 2. Second step";
    and the pieces of that line, one for each step. *)
Fixpoint numbered_pieces (steps : list (ascii * string)) : list string :=
  match steps with
  | [] => []
  | (d, body) :: rest =>
      match rest with
      | [] => [String d (". " ++ body)]
      | _ => String d (". " ++ body ++ " ") :: numbered_pieces rest
      end
  end.

Definition numbered_line (steps : list (ascii * string)) : string :=
  String.concat "" (numbered_pieces steps).

(** The same steps one to a line: the first, and the lines after it. *)
Definition numbered (step : ascii * string) : string :=
  String (fst step) (". " ++ snd step).

Fixpoint lines_after (steps : list (ascii * string)) : string :=
  match steps with
  | [] => ""
  | step :: rest => String "010" (numbered step ++ lines_after rest)
  end.

(** A step that can stand in such a line: no digit and no line break in
    it, no blank at either end, and not empty. *)
Definition plain_step (body : string) : Prop :=
  no_digit body = true /\ Str.all (cls_mem AnyChar) body = true /\
  trimmed body.

End Normalizer.

(* ================================================================== *)
(** * Python values and exceptions *)
(* ================================================================== *)

Module Py.

(** The values [json.loads] produces; the extractors store them in the
    recipe record as they come. *)
Inductive value :=
| VNone
| VBool (b : bool)
| VNum (q : Q)
| VStr (s : string)
| VList (l : list value)
| VDict (d : list (string * value)).

Inductive exn :=
| Timeout                       (* requests.exceptions.Timeout *)
| RequestException              (* any other requests.exceptions.RequestException *)
| WebsiteNotImplementedError
| JSONDecodeError
| KeyError
| TypeError
| AttributeError
| OtherException.

Inductive result (A : Type) :=
| Ok (a : A)
| Raise (e : exn).

Arguments Ok {A} a.
Arguments Raise {A} e.

Definition bind {A B} (r : result A) (f : A -> result B) : result B :=
  match r with
  | Ok a => f a
  | Raise e => Raise e
  end.

Fixpoint mapM {A B} (f : A -> result B) (l : list A) : result (list B) :=
  match l with
  | [] => Ok []
  | a :: l' =>
      bind (f a) (fun b => bind (mapM f l') (fun bs => Ok (b :: bs)))
  end.

(** [bool(v)] *)
Definition truthy (v : value) : bool :=
  match v with
  | VNone => false
  | VBool b => b
  | VNum q => negb (Qeq_bool q 0)
  | VStr s => Str.nonempty s
  | VList l => match l with [] => false | _ => true end
  | VDict d => match d with [] => false | _ => true end
  end.

Fixpoint lookup (key : string) (d : list (string * value)) : option value :=
  match d with
  | [] => None
  | (k, v) :: d' => if (k =? key)%string then Some v else lookup key d'
  end.

(** [v.get(key, default)]: only a dict has the method. *)
Definition get (v : value) (key : string) (default : value) : result value :=
  match v with
  | VDict d =>
      Ok (match lookup key d with Some x => x | None => default end)
  | _ => Raise AttributeError
  end.

Fixpoint chars (s : string) : list value :=
  match s with
  | EmptyString => []
  | String c t => VStr (String c "") :: chars t
  end.

(** What a [for] loop over [v] visits. *)
Definition iterate (v : value) : result (list value) :=
  match v with
  | VList l => Ok l
  | VStr s => Ok (chars s)
  | VDict d => Ok (map (fun kv => VStr (fst kv)) d)
  | _ => Raise TypeError
  end.

Fixpoint is_infix (needle s : string) : bool :=
  prefix needle s ||
  match s with
  | EmptyString => false
  | String _ t => is_infix needle t
  end.

Definition is_str (v : value) (s : string) : bool :=
  match v with VStr s' => (s' =? s)%string | _ => false end.

(** [key in v] for a string [key]. *)
Definition contains (key : string) (v : value) : result bool :=
  match v with
  | VDict d => Ok (match lookup key d with Some _ => true | None => false end)
  | VStr s => Ok (is_infix key s)
  | VList l => Ok (existsb (fun x => is_str x key) l)
  | _ => Raise TypeError
  end.

(** [v[key]] for a string [key]. *)
Definition getitem (v : value) (key : string) : result value :=
  match v with
  | VDict d =>
      match lookup key d with Some x => Ok x | None => Raise KeyError end
  | _ => Raise TypeError
  end.

End Py.

Declare Scope py_scope.
Delimit Scope py_scope with py.
Notation "x <- c1 ;; c2" := (Py.bind c1 (fun x => c2))
  (at level 61, c1 at next level, right associativity) : py_scope.

(* ================================================================== *)
(** * The parsed page: what BeautifulSoup hands to the extractors *)
(* ================================================================== *)

Module Soup.

Inductive node :=
| Text (s : string)                                  (* NavigableString *)
| Elem (name : string) (attrs : list (string * string))
       (children : list node).                       (* Tag *)

Definition name_of (n : node) : string :=
  match n with Elem nm _ _ => nm | Text _ => "" end.

Definition is_tag (n : node) : bool :=
  match n with Elem _ _ _ => true | Text _ => false end.

Fixpoint attr_lookup (key : string) (attrs : list (string * string))
  : option string :=
  match attrs with
  | [] => None
  | (k, v) :: a' => if (k =? key)%string then Some v else attr_lookup key a'
  end.

(** [tag.get(key)] *)
Definition attr (n : node) (key : string) : option string :=
  match n with
  | Elem _ attrs _ => attr_lookup key attrs
  | Text _ => None
  end.

(** All nodes below [n], in document order. *)
Fixpoint descendants (n : node) : list node :=
  match n with
  | Text _ => []
  | Elem _ _ cs =>
      (fix go (l : list node) : list node :=
         match l with
         | [] => []
         | c :: l' => c :: descendants c ++ go l'
         end) cs
  end.

(** [tag.find_all(name)] *)
Definition find_all (nm : string) (n : node) : list node :=
  filter (fun d => is_tag d && (name_of d =? nm)%string) (descendants n).

(** [tag.find(name)] *)
Definition find (nm : string) (n : node) : option node :=
  hd_error (find_all nm n).

(** The whitespace-separated tokens of a [class] attribute. *)
Fixpoint tokens_acc (s cur : string) : list string :=
  match s with
  | EmptyString => match cur with EmptyString => [] | _ => [Str.rev cur] end
  | String c t =>
      if Str.is_space c
      then match cur with
           | EmptyString => tokens_acc t ""
           | _ => Str.rev cur :: tokens_acc t ""
           end
      else tokens_acc t (String c cur)
  end.

Definition tokens (s : string) : list string := tokens_acc s "".

(** How BeautifulSoup matches a [class_] filter: against each class of the
    tag, and against the attribute as written. *)
Definition class_matches (p : string -> bool) (n : node) : bool :=
  match attr n "class" with
  | Some v => existsb p (tokens v) || p v
  | None => false
  end.

(** [tag.find(name, class_=...)] *)
Definition find_class (nm : string) (p : string -> bool) (n : node)
  : option node :=
  hd_error (filter (class_matches p) (find_all nm n)).

(** The tags whose text the parser keeps in a string class of its own
    ([RubyTextString], [RubyParenthesisString], [Stylesheet], [Script],
    [TemplateString]). *)
Definition string_container (nm : string) : bool :=
  existsb (String.eqb nm) ["rt"; "rp"; "style"; "script"; "template"].

(** The strings at or below [n] that are of the class of the tag they are
    looked up from: those of another container are left out. *)
Fixpoint own_strings (n : node) : list string :=
  match n with
  | Text s => [s]
  | Elem nm _ cs =>
      if string_container nm then []
      else (fix go (l : list node) : list string :=
              match l with
              | [] => []
              | c :: l' => (own_strings c ++ go l')%list
              end) cs
  end.

(** The strings [get_text] collects below [n], in document order: the text
    of a [script], a [style], a [template] or a ruby annotation inside [n]
    is not among them. *)
Definition strings (n : node) : list string :=
  match n with
  | Text _ => []
  | Elem _ _ cs => flat_map own_strings cs
  end.

(** [tag.get_text(strip=True)]: every string stripped, the empty ones
    dropped, the rest joined. *)
Definition get_text_strip (n : node) : string :=
  String.concat ""
    (filter Str.nonempty (map Str.strip (strings n))).

(** [tag.string]: the single string child, looked for through single
    children. *)
Fixpoint string_of (n : node) : option string :=
  match n with
  | Text s => Some s
  | Elem _ _ [c] => string_of c
  | Elem _ _ _ => None
  end.

End Soup.

(* ================================================================== *)
(** * The extractors and the orchestrator *)
(* ================================================================== *)

Module Extract.

Import Re Py Normalizer.

(** The recipe dictionary every extractor builds. *)
Record recipe := Recipe {
  title : value;
  image : value;
  prep_time : option Z;
  cook_time : option Z;
  total_time : option Z;
  servings : value;
  ingredients : list string;
  instructions : list value;
  source_url : string;
  category : string
}.

Definition strs (l : list string) : list value := map VStr l.

Definition opt_str (o : option string) : value :=
  match o with Some s => VStr s | None => VNone end.

(** [a or b] on what [tag.get] returns. *)
Definition or_attr (a b : option string) : option string :=
  match a with
  | Some s => if Str.nonempty s then a else b
  | None => b
  end.

(** [a or b] on what [find] returns (a tag is always true). *)
Definition or_node (a b : option Soup.node) : option Soup.node :=
  match a with Some _ => a | None => b end.

(** ** Schema.org JSON-LD *)

(** Inside the [try] of [extract_schema_recipe] a step yields a value,
    says [continue], or raises. *)
Inductive flow (A : Type) :=
| Val (a : A)
| Continue
| Exc (e : exn).

Arguments Val {A} a.
Arguments Continue {A}.
Arguments Exc {A} e.

Definition fbind {A B} (c : flow A) (f : A -> flow B) : flow B :=
  match c with
  | Val a => f a
  | Continue => Continue
  | Exc e => Exc e
  end.

Definition lift {A} (r : result A) : flow A :=
  match r with Ok a => Val a | Raise e => Exc e end.

Notation "x <~ c1 ;; c2" := (fbind c1 (fun x => c2))
  (at level 61, c1 at next level, right associativity).

(** [for item in items: if item.get('@type') == 'Recipe': data = item; break]
    with [else: continue]. *)
Fixpoint first_recipe (items : list value) : flow value :=
  match items with
  | [] => Continue
  | item :: items' =>
      t <~ lift (get item "@type" VNone) ;;
      if is_str t "Recipe" then Val item else first_recipe items'
  end.

(** The instruction texts of a [recipeInstructions] list. *)
Fixpoint instruction_texts (l : list value) : list value :=
  match l with
  | [] => []
  | inst :: l' =>
      match inst with
      | VStr _ => inst :: instruction_texts l'
      | VDict d =>
          let name := match lookup "name" d with
                      | Some x => x | None => VStr "" end in
          let text := match lookup "text" d with
                      | Some x => x | None => name end in
          if truthy text then text :: instruction_texts l'
          else instruction_texts l'
      | _ => instruction_texts l'
      end
  end.

(** [r'PT(?:(\d+)H)?(?:(\d+)M)?'] *)
Definition duration_pattern : regex :=
  Seqs [Chr "P"; Chr "T";
        Opt (Seq (Group 1 (Plus (Cls Digit))) (Chr "H"));
        Opt (Seq (Group 2 (Plus (Cls Digit))) (Chr "M"))].

(** [int(match.group(n) or 0)] *)
Definition group_int (mo : match_obj) (n : nat) : Z :=
  match group mo n with
  | Some g => if Str.nonempty g then Str.to_Z g else 0%Z
  | None => 0%Z
  end.

(** [parse_duration].  [str(duration)] of a value that is not a string
    never begins with "PT", so only strings can match.  [int] is read as
    [Str.to_Z] whatever the number of digits; CPython's [int] takes 4300
    digits at most and raises ValueError beyond. *)
Definition parse_duration (duration : value) : option Z :=
  if negb (truthy duration) then None
  else
    match duration with
    | VStr s =>
        match Re.rmatch false duration_pattern s with
        | Some mo => Some (group_int mo 1 * 60 + group_int mo 2)%Z
        | None => None
        end
    | _ => None
    end.

(** [clean_ingredients(ingredients)] on whatever the metadata holds:
    iterating a non-iterable, or handing [re.sub] a non-string, is a
    TypeError. *)
Definition clean_ingredients_value (v : value) : result (list string) :=
  (items <- iterate v ;;
   mapM (fun x => match x with
                  | VStr s => Ok (clean_ingredient s)
                  | _ => Raise TypeError
                  end) items)%py.

(** The raw ingredients of a Recipe object: [data.get('recipeIngredient', [])],
    or [data.get('ingredients', [])] when that is empty. *)
Definition schema_ingredients (data : value) : result value :=
  (ingredients <- get data "recipeIngredient" (VList []) ;;
   if negb (truthy ingredients) then get data "ingredients" (VList [])
   else Ok ingredients)%py.

(** The instructions kept of [data.get('recipeInstructions', [])]. *)
Definition schema_instructions (raw_instructions : value) : list value :=
  match raw_instructions with
  | VStr _ => [raw_instructions]
  | VList l => instruction_texts l
  | _ => []
  end.

Definition schema_image (image : value) : value :=
  let image :=
    match image with
    | VList l => match l with x :: _ => x | [] => VNone end
    | _ => image
    end in
  match image with
  | VDict d => match lookup "url" d with Some u => u | None => VNone end
  | _ => image
  end.

Definition useful (r : recipe) : bool :=
  match ingredients r, instructions r with
  | [], [] => false
  | _, _ => true
  end.

(** ** The blog-layout heuristics *)

Definition d_plus : regex := Plus (Cls Digit).
Definition s_star : regex := Star (Cls Space).
Definition s_plus : regex := Plus (Cls Space).

(** [r'\d+\s*g\b|\d+\s*ml\b|\d+\s*tsp|\d+\s*tbsp|\d+\s*cup|gram|ounce|\d+\s*oz'] *)
Definition measurement_pattern : regex :=
  Alts [Seqs [d_plus; s_star; Lit "g"; Wordb];
        Seqs [d_plus; s_star; Lit "ml"; Wordb];
        Seqs [d_plus; s_star; Lit "tsp"];
        Seqs [d_plus; s_star; Lit "tbsp"];
        Seqs [d_plus; s_star; Lit "cup"];
        Lit "gram";
        Lit "ounce";
        Seqs [d_plus; s_star; Lit "oz"]].

(** [r'^\d+\s*(g|ml|tsp|tbsp|cup)\s+'] *)
Definition leading_measure_pattern : regex :=
  Seqs [Bol; d_plus; s_star;
        Group 1 (Alts [Lit "g"; Lit "ml"; Lit "tsp"; Lit "tbsp"; Lit "cup"]);
        s_plus].

(** [r'^\d+\s+egg'] *)
Definition leading_egg_pattern : regex :=
  Seqs [Bol; d_plus; s_plus; Lit "egg"].

(** [r'\d+\s*g\s+\w+.*\d+\s*g\s+\w+'] *)
Definition two_gram_pattern : regex :=
  Seqs [d_plus; s_star; Lit "g"; s_plus; Plus (Cls Word);
        Star (Cls AnyChar);
        d_plus; s_star; Lit "g"; s_plus; Plus (Cls Word)].

(** [r'(?=\d+\s*g\s+)'] *)
Definition gram_boundary_pattern : regex :=
  Ahead (Seqs [d_plus; s_star; Lit "g"; s_plus]).

(** [r'\d+\s*g\b'] *)
Definition gram_pattern : regex :=
  Seqs [d_plus; s_star; Lit "g"; Wordb].

Definition blog_verbs : list string :=
  ["mix"; "combine"; "add"; "stir"; "fold"; "knead"; "roll"; "bake";
   "proof"; "preheat"; "shape"; "cut"; "cover"; "refrigerate"; "let";
   "place"; "brush"; "repeat"].

(** [r'\b(v1|v2|...)\b'] *)
Definition verbs_pattern (verbs : list string) : regex :=
  Seqs [Wordb; Group 1 (Alts (map Lit verbs)); Wordb].

Definition texts (l : list Soup.node) : list string :=
  map Soup.get_text_strip l.

(** Method 1: list items that carry a measurement. *)
Definition blog_list_ingredients (content : Soup.node) : list string :=
  flat_map
    (fun ul =>
       filter (fun text => found (Re.search true measurement_pattern text))
              (texts (Soup.find_all "li" ul)))
    (Soup.find_all "ul" content).

(** Method 2: short paragraphs that start with a measurement. *)
Definition blog_short_paragraphs (content : Soup.node) : list string :=
  filter
    (fun text =>
       if (length text <? 150)%nat
          && found (Re.rmatch true leading_measure_pattern text)
       then true
       else (length text <? 100)%nat
            && found (Re.rmatch true leading_egg_pattern text))
    (texts (Soup.find_all "p" content)).

(** Method 3: paragraphs with several gram quantities on one line. *)
Definition blog_split_paragraph (text : string) : list string :=
  if found (Re.search false two_gram_pattern text) then
    flat_map
      (fun part =>
         let part := Str.strip part in
         if Str.nonempty part && found (Re.search false gram_pattern part)
         then [part] else [])
      (Re.split false gram_boundary_pattern text)
  else [].

Definition blog_split_paragraphs (content : Soup.node) : list string :=
  flat_map blog_split_paragraph (texts (Soup.find_all "p" content)).

Definition blog_ingredients (content : Soup.node) : list string :=
  let ingredients := blog_list_ingredients content in
  let ingredients :=
    match ingredients with
    | [] => blog_short_paragraphs content
    | _ => ingredients
    end in
  match ingredients with
  | [] => blog_split_paragraphs content
  | _ => ingredients
  end.

Definition verb_paragraphs (verbs : list string) (min_len : nat)
           (content : Soup.node) : list string :=
  filter
    (fun text =>
       (min_len <? length text)%nat
       && found (Re.search true (verbs_pattern verbs) text))
    (texts (Soup.find_all "p" content)).

Definition blog_instructions (content : Soup.node) : list string :=
  let instructions :=
    flat_map
      (fun ol =>
         filter (fun text => Str.nonempty text && (20 <? length text)%nat)
                (texts (Soup.find_all "li" ol)))
      (Soup.find_all "ol" content) in
  match instructions with
  | [] => verb_paragraphs blog_verbs 50 content
  | _ => instructions
  end.

Definition heading (o : option Soup.node) : value :=
  match o with
  | Some title_tag => VStr (Soup.get_text_strip title_tag)
  | None => VStr "Recipe"
  end.

(** The main content area: the [entry-content] division, else the first
    [article], else the whole page. *)
Definition blog_content (soup : Soup.node) : Soup.node :=
  match or_node (Soup.find_class "div" (String.eqb "entry-content") soup)
                (Soup.find "article" soup) with
  | Some c => c
  | None => soup
  end.

(** [extract_weekendbakery_recipe], from the parsed page on. *)
Definition weekendbakery_of_soup (soup : Soup.node) (url : string)
  : option recipe :=
  let title_tag :=
    or_node (Soup.find_class "h1" (String.eqb "entry-title") soup)
            (Soup.find "h1" soup) in
  let content := blog_content soup in
  let ingredients := blog_ingredients content in
  let instructions := blog_instructions content in
  let image :=
    match Soup.find "img" content with
    | Some img_tag =>
        opt_str (or_attr (Soup.attr img_tag "src")
                         (Soup.attr img_tag "data-src"))
    | None => VNone
    end in
  match ingredients, instructions with
  | [], [] => None
  | _, _ =>
      Some (Recipe (heading title_tag) image None None None VNone
                   (clean_ingredients ingredients) (strs instructions)
                   url "Uncategorized")
  end.

(** ** The generic heuristics *)

(** [r'\d+\s*(g|kg|ml|l|oz|lb|cup|cups|tsp|tbsp|teaspoon|tablespoon|gram|grams|ounce|ounces)\b'] *)
Definition ingredient_pattern : regex :=
  Seqs [d_plus; s_star;
        Group 1 (Alts (map Lit
          ["g"; "kg"; "ml"; "l"; "oz"; "lb"; "cup"; "cups"; "tsp"; "tbsp";
           "teaspoon"; "tablespoon"; "gram"; "grams"; "ounce"; "ounces"]));
        Wordb].

Definition generic_verbs : list string :=
  (blog_verbs ++ ["cook"; "heat"; "simmer"; "boil"; "fry"; "pour"; "whisk"])%list.

(** [r'logo|icon|avatar|button'] *)
Definition decorative_pattern : regex :=
  Alts [Lit "logo"; Lit "icon"; Lit "avatar"; Lit "button"].

(** [r'content|post|entry'] *)
Definition container_class_pattern : regex :=
  Alts [Lit "content"; Lit "post"; Lit "entry"].

Fixpoint first_image (imgs : list Soup.node) : value :=
  match imgs with
  | [] => VNone
  | img :: imgs' =>
      match or_attr (Soup.attr img "src") (Soup.attr img "data-src") with
      | Some src =>
          if Str.nonempty src
             && negb (found (Re.search true decorative_pattern src))
          then VStr src
          else first_image imgs'
      | None => first_image imgs'
      end
  end.

(** The main content: [article], else a [div] whose class matches
    [content|post|entry], else [main], else the body. *)
Definition generic_content (soup : Soup.node) : option Soup.node :=
  or_node (Soup.find "article" soup)
    (or_node
       (Soup.find_class "div"
          (fun c => found (Re.search true container_class_pattern c)) soup)
       (or_node (Soup.find "main" soup) (Soup.find "body" soup))).

Definition generic_ingredients (content : Soup.node) : list string :=
  filter
    (fun text =>
       Str.nonempty text && (3 <? length text)%nat
       && found (Re.search true ingredient_pattern text))
    (texts (Soup.find_all "li" content)).

(** [extract_generic_recipe], from the parsed page on. *)
Definition generic_of_soup (soup : Soup.node) (url : string)
  : option recipe :=
  let title_tag := Soup.find "h1" soup in
  match generic_content soup with
  | None => None
  | Some content =>
      let ingredients := generic_ingredients content in
      let instructions := verb_paragraphs generic_verbs 60 content in
      let image := first_image (Soup.find_all "img" content) in
      match ingredients, instructions with
      | [], [] => None
      | _, _ =>
          Some (Recipe (heading title_tag) image None None None VNone
                       (clean_ingredients ingredients) (strs instructions)
                       url "Uncategorized")
      end
  end.

(** ** What the orchestrator tells the user *)

Definition msg_invalid_url : string :=
  "That doesn't look like a valid web address. Please paste the full URL including https://".
Definition msg_unsupported : string :=
  "This website isn't fully supported yet, and we couldn't find the recipe data. Try a different recipe site.".
Definition msg_timeout : string :=
  "The website took too long to respond. Please try again.".
Definition msg_unreachable : string :=
  "Couldn't reach that website. Please check the link and try again.".
Definition msg_no_recipe : string :=
  "Couldn't find a recipe on that page. Make sure you're pasting a link to a specific recipe, not just the homepage.".

(** The network calls made so far: the URLs handed to [requests.get]. *)
Definition net_log := list string.

(** [safe_get]: the result when it is true, [None] when it is false or the
    method raised. *)
Definition safe_get {A} (truth : A -> bool) (method : result A) : option A :=
  match method with
  | Ok r => if truth r then Some r else None
  | Raise _ => None
  end.

Definition nonzero (n : Z) : bool := negb (n =? 0)%Z.

Definition nonnil {A} (l : list A) : bool :=
  match l with [] => false | _ => true end.

Definition or_default {A} (o : option A) (d : A) : A :=
  match o with Some a => a | None => d end.

Section Collaborators.

(** The libraries and services the core calls. *)
Inductive response := Response (status_ok : bool) (text : string).

Record scraper := Scraper {
  sc_title : result string;
  sc_image : result string;
  sc_prep_time : result Z;
  sc_cook_time : result Z;
  sc_total_time : result Z;
  sc_yields : result string;
  sc_ingredients : result (list string);
  sc_instructions_list : result (list string)
}.

Variable validators_url : string -> bool.
Variable requests_get : string -> result response.
Variable scrape_html : string -> string -> result scraper.
Variable json_loads : string -> result value.
Variable BeautifulSoup : string -> Soup.node.

(** The body of the [try] for one [script] tag. *)
Definition schema_block (script : Soup.node) (url : string) : flow recipe :=
  data <~ lift (match Soup.string_of script with
                | Some s => json_loads s
                | None => Raise TypeError
                end) ;;
  data <~ match data with
          | VList items => first_recipe items
          | _ => Val data
          end ;;
  has_graph <~ lift (contains "@graph" data) ;;
  data <~ (if has_graph : bool then
             g <~ lift (getitem data "@graph") ;;
             items <~ lift (iterate g) ;;
             first_recipe items
           else Val data) ;;
  t <~ lift (get data "@type" VNone) ;;
  if negb (is_str t "Recipe") then Continue
  else
    ingredients <~ lift (get data "recipeIngredient" (VList [])) ;;
    ingredients <~ (if negb (truthy ingredients)
                    then lift (get data "ingredients" (VList []))
                    else Val ingredients) ;;
    raw_instructions <~ lift (get data "recipeInstructions" (VList [])) ;;
    let instructions :=
      match raw_instructions with
      | VStr _ => [raw_instructions]
      | VList l => instruction_texts l
      | _ => []
      end in
    image <~ lift (get data "image" VNone) ;;
    name <~ lift (get data "name" (VStr "Recipe")) ;;
    prep <~ lift (get data "prepTime" VNone) ;;
    cook <~ lift (get data "cookTime" VNone) ;;
    total <~ lift (get data "totalTime" VNone) ;;
    yield <~ lift (get data "recipeYield" VNone) ;;
    cleaned <~ lift (clean_ingredients_value ingredients) ;;
    let recipe :=
      Recipe name (schema_image image) (parse_duration prep)
             (parse_duration cook) (parse_duration total) yield
             cleaned instructions url "Uncategorized" in
    if useful recipe then Val recipe else Continue.

(** The Recipe object of a [script] tag, as the first steps of that body
    find it: the parsed block, or the first Recipe of its array, then the
    first Recipe of its [@graph]. *)
Definition schema_data (script : Soup.node) : flow value :=
  data <~ lift (match Soup.string_of script with
                | Some s => json_loads s
                | None => Raise TypeError
                end) ;;
  data <~ match data with
          | VList items => first_recipe items
          | _ => Val data
          end ;;
  has_graph <~ lift (contains "@graph" data) ;;
  if has_graph : bool then
    g <~ lift (getitem data "@graph") ;;
    items <~ lift (iterate g) ;;
    first_recipe items
  else Val data.

(** [except (json.JSONDecodeError, KeyError, TypeError): continue] *)
Definition schema_caught (e : exn) : bool :=
  match e with
  | JSONDecodeError | KeyError | TypeError => true
  | _ => false
  end.


Fixpoint schema_loop (scripts : list Soup.node) (url : string)
  : result (option recipe) :=
  match scripts with
  | [] => Ok None
  | script :: scripts' =>
      match schema_block script url with
      | Val r => Ok (Some r)
      | Continue => schema_loop scripts' url
      | Exc e =>
          if schema_caught e then schema_loop scripts' url else Raise e
      end
  end.

Definition ld_json_scripts (soup : Soup.node) : list Soup.node :=
  filter (fun n => match Soup.attr n "type" with
                   | Some t => (t =? "application/ld+json")%string
                   | None => false
                   end)
         (Soup.find_all "script" soup).

Definition extract_schema_recipe (html url : string)
  : result (option recipe) :=
  schema_loop (ld_json_scripts (BeautifulSoup html)) url.

Definition extract_weekendbakery_recipe (html url : string) : option recipe :=
  weekendbakery_of_soup (BeautifulSoup html) url.

Definition extract_generic_recipe (html url : string) : option recipe :=
  generic_of_soup (BeautifulSoup html) url.

(** The record of the known-site path. *)
Definition known_site_recipe (sc : scraper) (url : string) : recipe :=
  let raw_ingredients := or_default (safe_get nonnil (sc_ingredients sc)) [] in
  let cleaned_ingredients := clean_ingredients raw_ingredients in
  Recipe (VStr (or_default (safe_get Str.nonempty (sc_title sc)) "Recipe"))
         (opt_str (safe_get Str.nonempty (sc_image sc)))
         (safe_get nonzero (sc_prep_time sc))
         (safe_get nonzero (sc_cook_time sc))
         (safe_get nonzero (sc_total_time sc))
         (opt_str (safe_get Str.nonempty (sc_yields sc)))
         cleaned_ingredients
         (strs (or_default (safe_get nonnil (sc_instructions_list sc)) []))
         url "Uncategorized".

Definition outcome : Type := option recipe * option string.

(** The handler of [except WebsiteNotImplementedError]. *)
Definition fallback_chain (html url : string) : result outcome :=
  (r1 <- extract_schema_recipe html url ;;
   match r1 with
   | Some recipe => Ok (Some recipe, None)
   | None =>
       match extract_weekendbakery_recipe html url with
       | Some recipe => Ok (Some recipe, None)
       | None =>
           match extract_generic_recipe html url with
           | Some recipe => Ok (Some recipe, None)
           | None => Ok (None, Some msg_unsupported)
           end
       end
   end)%py.

Definition raise_for_status (r : response) : result unit :=
  match r with
  | Response true _ => Ok tt
  | Response false _ => Raise RequestException      (* HTTPError *)
  end.

Definition text_of_response (r : response) : string :=
  match r with Response _ t => t end.

(** What happens once the page has been requested. *)
Definition after_fetch (url : string) (got : result response)
  : result outcome :=
  (response <- got ;;
   _ <- raise_for_status response ;;
   let html := text_of_response response in
   match scrape_html html url with
   | Ok sc => Ok (Some (known_site_recipe sc url), None)
   | Raise WebsiteNotImplementedError => fallback_chain html url
   | Raise e => Raise e
   end)%py.

(** The outer [try] of [fetch_recipe], with the network log threaded. *)
Definition fetch_try (url : string) (log : net_log)
  : result outcome * net_log :=
  if negb (validators_url url) then (Ok (None, Some msg_invalid_url), log)
  else (after_fetch url (requests_get url), (log ++ [url])%list).

(** The three [except] clauses of the outer [try]. *)
Definition fetch_handler (e : exn) : outcome :=
  match e with
  | Timeout => (None, Some msg_timeout)
  | RequestException => (None, Some msg_unreachable)
  | _ => (None, Some msg_no_recipe)
  end.

Definition fetch_recipe (url : string) (log : net_log) : outcome * net_log :=
  let (r, log') := fetch_try url log in
  (match r with Ok o => o | Raise e => fetch_handler e end, log').

End Collaborators.

End Extract.

(* ================================================================== *)
(** * The helpers of the application: ids, times, categories, the session *)
(* ================================================================== *)

Module App.

Import Py.

Fixpoint smap (f : ascii -> ascii) (s : string) : string :=
  match s with
  | EmptyString => EmptyString
  | String c t => String (f c) (smap f t)
  end.

(** Text in ASCII: on it [str.lower] changes the letters A to Z only, and
    a character is a byte. *)
Definition is_ascii (c : ascii) : bool := (nat_of_ascii c <? 128)%nat.

Definition ascii_text (s : string) : bool := Str.all is_ascii s.

(** [s.lower()], on ASCII text. *)
Definition lower_str (s : string) : string := smap Str.lower s.

(** [s.replace(' ', '_')] *)
Definition underscore (c : ascii) : ascii :=
  if (c =? " ")%char then "_"%char else c.

(** [title.lower().replace(' ', '_')[:50]] *)
Definition title_id (title : string) : string :=
  substring 0 50 (smap underscore (lower_str title)).

(** [get_recipe_id]: [recipe['title']] is a KeyError on a dict without the
    key and a TypeError on what is not a dict; [.lower] is an
    AttributeError on what is not a string. *)
Definition get_recipe_id (recipe : value) : result string :=
  (t <- getitem recipe "title" ;;
   match t with
   | VStr s => Ok (title_id s)
   | _ => Raise AttributeError
   end)%py.

(** [format_time], on the integers and [None] the extractors store. *)
Definition format_time (minutes : option Z) : option string :=
  match minutes with
  | None => None
  | Some minutes =>
      if (minutes =? 0)%Z then None
      else if (minutes <? 60)%Z then Some (Str.of_Z minutes ++ " min")
      else
        let hours := (minutes / 60)%Z in
        let mins := (minutes mod 60)%Z in
        if (mins =? 0)%Z then Some (Str.of_Z hours ++ " hr")
        else Some (Str.of_Z hours ++ " hr " ++ Str.of_Z mins ++ " min")
  end.

Definition DEFAULT_CATEGORIES : list string :=
  ["Cookies"; "Casseroles"; "Soups"; "Salads"; "Desserts"; "Main Dishes";
   "Appetizers"; "Breakfast"; "Uncategorized"].

(** [a < b] on the keys [str.lower] gives. *)
Definition key_lt (a b : string) : bool :=
  String.ltb (lower_str a) (lower_str b).

(** [sorted(l, key=str.lower)]: the sort is stable, so an element goes in
    before the first one whose key is not below its own. *)
Fixpoint insert_by_key (x : string) (l : list string) : list string :=
  match l with
  | [] => [x]
  | y :: l' => if key_lt y x then y :: insert_by_key x l' else x :: l
  end.

Definition sorted_by_key (l : list string) : list string :=
  fold_right insert_by_key [] l.

Definition is_uncategorized (c : string) : bool := (c =? "Uncategorized")%string.

(** The second half of [load_categories]: alphabetical order, with
    "Uncategorized" at the end. *)
Definition order_categories (cats : list string) : list string :=
  let other_cats :=
    sorted_by_key (filter (fun c => negb (is_uncategorized c)) cats) in
  if existsb is_uncategorized cats
  then (other_cats ++ ["Uncategorized"])%list
  else other_cats.

(** [load_categories], on a file that holds a list of strings: [None] when
    the file does not exist, an exception when reading or parsing fails. *)
Definition load_categories (file : option (result (list string)))
  : list string :=
  order_categories
    (match file with
     | Some (Ok cats) => cats
     | _ => DEFAULT_CATEGORIES
     end).

(** A dict with string keys, as [st.session_state] and the saved session
    are: [key in d], [d.get(key)], [d[key] = v]. *)
Definition dict := list (string * value).

Definition has_key (key : string) (d : dict) : bool :=
  match lookup key d with Some _ => true | None => false end.

Definition dict_get (d : dict) (key : string) : value :=
  match lookup key d with Some v => v | None => VNone end.

Fixpoint dict_set (d : dict) (key : string) (v : value) : dict :=
  match d with
  | [] => [(key, v)]
  | (k, x) :: d' =>
      if (k =? key)%string then (k, v) :: d' else (k, x) :: dict_set d' key v
  end.

(** [if key not in st.session_state and session.get(key):
       st.session_state[key] = session[key]] *)
Definition restore_key (session : dict) (state : dict) (key : string) : dict :=
  if negb (has_key key state) && truthy (dict_get session key)
  then dict_set state key (dict_get session key)
  else state.

Definition session_keys : list string :=
  ["view"; "recipe"; "source_url"; "ingredient_checks"; "step_checks";
   "ingredient_edits"; "view_mode"].

(** [restore_session], given what [load_session] returned ([None], or the
    dict of the session file) and the session state. *)
Definition restore_session (session : option dict) (state : dict) : dict :=
  match session with
  | None => state
  | Some d =>
      if truthy (VDict d) then fold_left (restore_key d) session_keys state
      else state
  end.

End App.

(* ================================================================== *)
(** * A small world to run the orchestrator in *)
(* ================================================================== *)

Module Example.

Import Py Extract.

(** A page of a site the scraper library does not know.  Its only JSON-LD
    block is the array [[1, 2]]; its body is a blog recipe. *)
Definition blog_url : string := "https://blog.example/bread".

Definition blog_html : string :=
  "<script type='application/ld+json'>[1, 2]</script><p>350 g flour 20 g sugar</p>".

Definition blog_page : Soup.node :=
  Soup.Elem "[document]" []
    [ Soup.Elem "script" [("type", "application/ld+json")] [Soup.Text "[1, 2]"];
      Soup.Elem "p" [] [Soup.Text "350 g flour 20 g sugar"] ].

(** A page that is one paragraph. *)
Definition paragraph_page : Soup.node :=
  Soup.Elem "[document]" []
    [ Soup.Elem "p" [] [Soup.Text "350 g flour 20 g sugar"] ].

(** A paragraph that does not begin with its first quantity. *)
Definition dough_page : Soup.node :=
  Soup.Elem "[document]" []
    [ Soup.Elem "p" [] [Soup.Text "Dough: 350 g flour 20 g sugar"] ].

(** A page of a known site on which the scraper finds neither ingredients
    nor instructions (every accessor raises). *)
Definition known_url : string := "https://known.example/".

Definition known_html : string := "<h1>Welcome</h1>".

Definition empty_scraper : scraper :=
  Scraper (Raise OtherException) (Raise OtherException)
          (Raise OtherException) (Raise OtherException)
          (Raise OtherException) (Raise OtherException)
          (Raise OtherException) (Raise OtherException).

(** A page of a known site whose steps come as one numbered line. *)
Definition steps_url : string := "https://known.example/cake".

Definition steps_html : string := "<h1>Cake</h1>".

Definition steps_scraper : scraper :=
  Scraper (Ok "Cake") (Raise OtherException)
          (Ok 15%Z) (Ok 0%Z) (Raise OtherException) (Ok "4 servings")
          (Ok ["0.5 cup sugar"])
          (Ok ["1. Mix flour 2. Add water 3. Bake"]).

Definition steps_recipe : recipe := known_site_recipe steps_scraper steps_url.

(** A page whose JSON-LD block is a Schema.org recipe. *)
Definition schema_url : string := "https://other.example/pancakes".

Definition schema_text : string :=
  "{'@type': 'Recipe', 'recipeIngredient': ['2 cups flour'], 'recipeInstructions': [{'text': 'Mix'}], 'prepTime': 'PT15M'}".

Definition schema_html : string :=
  "<script type='application/ld+json'>" ++ schema_text ++ "</script>".

Definition schema_page : Soup.node :=
  Soup.Elem "[document]" []
    [ Soup.Elem "script" [("type", "application/ld+json")]
                [Soup.Text schema_text] ].

Definition schema_block_value : value :=
  VDict [ ("@type", VStr "Recipe");
          ("recipeIngredient", VList [VStr "2 cups flour"]);
          ("recipeInstructions", VList [VDict [("text", VStr "Mix")]]);
          ("prepTime", VStr "PT15M") ].

Definition validators_url (url : string) : bool :=
  prefix "http://" url || prefix "https://" url.

Definition requests_get (url : string) : result response :=
  if (url =? blog_url)%string then Ok (Response true blog_html)
  else if (url =? known_url)%string then Ok (Response true known_html)
  else if (url =? steps_url)%string then Ok (Response true steps_html)
  else if (url =? schema_url)%string then Ok (Response true schema_html)
  else Raise RequestException.

Definition scrape_html (html url : string) : result scraper :=
  if (html =? known_html)%string then Ok empty_scraper
  else if (html =? steps_html)%string then Ok steps_scraper
  else Raise WebsiteNotImplementedError.

(** The two JSON texts of this world (single quotes stand for the double
    quotes of the wire format). *)
Definition json_loads (text : string) : result value :=
  if (text =? "[1, 2]")%string then Ok (VList [VNum 1; VNum 2])
  else if (text =? schema_text)%string then Ok schema_block_value
  else Raise JSONDecodeError.

Definition BeautifulSoup (html : string) : Soup.node :=
  if (html =? blog_html)%string then blog_page
  else if (html =? schema_html)%string then schema_page
  else Soup.Elem "[document]" [] [Soup.Text html].

Definition fetch (url : string) : outcome * net_log :=
  fetch_recipe validators_url requests_get scrape_html json_loads
               BeautifulSoup url [].

(** The digits of 2 * 10^308, a number no double holds. *)
Fixpoint zeros (n : nat) : string :=
  match n with
  | O => ""
  | S n' => String "0" (zeros n')
  end.

Definition huge_digits : string := String "2" (zeros 308).


(** A recipe of which the title is all there is. *)
Definition titled (title : string) : value := VDict [("title", VStr title)].

Definition long_title : string :=
  "Grandmothers Famous Triple Chocolate Fudge Layer Cake With Raspberry Sauce".

End Example.

(* ================================================================== *)
(** * Properties *)
(* ================================================================== *)

(** ** Strings and the matcher *)

Module StrFacts.
Import Str.
Local Open Scope nat_scope.

Lemma str_app_nil_r (s : string) : s ++ "" = s.
Proof. induction s; simpl; congruence. Qed.

Lemma str_app_assoc (a b c : string) : (a ++ b) ++ c = a ++ (b ++ c).
Proof. induction a; simpl; congruence. Qed.

Lemma str_length_app (a b : string) : length (a ++ b) = length a + length b.
Proof. induction a; simpl; congruence. Qed.

Lemma span_eq (p : ascii -> bool) (s a b : string) :
  span p s = (a, b) -> s = a ++ b /\ all p a = true /\ starts p b = false.
Proof.
  revert a b. induction s as [|c t IH]; intros a b; simpl.
  - intros [= <- <-]. auto.
  - destruct (p c) eqn:E.
    + destruct (span p t) as [a' b']. intros [= <- <-].
      destruct (IH a' b' eq_refl) as (-> & Ha & Hb).
      simpl. rewrite E. auto.
    + intros [= <- <-]. simpl. auto.
Qed.

Lemma span_app (p : ascii -> bool) (a b : string) :
  all p a = true -> starts p b = false -> span p (a ++ b) = (a, b).
Proof.
  induction a as [|c a IH]; simpl; intros Ha Hb.
  - destruct b as [|c b]; [reflexivity |]. simpl in *. now rewrite Hb.
  - apply andb_true_iff in Ha as [Hc Ha]. now rewrite Hc, IH.
Qed.

Lemma str_all_app (p : ascii -> bool) (a b : string) :
  all p (a ++ b) = all p a && all p b.
Proof. induction a; simpl; [reflexivity | now rewrite IHa, andb_assoc]. Qed.

Lemma substring_prefix (a b : string) :
  substring 0 (length (a ++ b) - length b) (a ++ b) = a.
Proof.
  rewrite str_length_app. replace (length a + length b - length b) with (length a) by lia.
  induction a; simpl.
  - destruct b; reflexivity.
  - now rewrite IHa.
Qed.

Lemma str_starts_app (p : ascii -> bool) (a b : string) :
  starts p (a ++ b) = match a with EmptyString => starts p b | _ => starts p a end.
Proof. destruct a; reflexivity. Qed.

End StrFacts.

Module ReFacts.
Import Str Re StrFacts.
Local Open Scope nat_scope.

Lemma m_cls ic c st k :
  m ic (Cls c) st k =
  match rest st with
  | String a t => if cls_mem c a then k (advance a t st) else None
  | EmptyString => None
  end.
Proof. reflexivity. Qed.

Lemma star_cls_stop ic c k n p s cs :
  starts (cls_mem c) s = false ->
  star_loop (m ic (Cls c)) k n (MState p s cs) = k (MState p s cs).
Proof.
  intros H. destruct n; [reflexivity |]. cbn [star_loop]. rewrite m_cls.
  cbn [rest]. destruct s as [|a t]; [reflexivity |]. simpl in H. now rewrite H.
Qed.

Lemma star_cls_step ic c k n p a t cs :
  cls_mem c a = true ->
  star_loop (m ic (Cls c)) k (S n) (MState p (String a t) cs) =
  match star_loop (m ic (Cls c)) k n (MState (Some a) t cs) with
  | Some r => Some r
  | None => k (MState p (String a t) cs)
  end.
Proof.
  intros H. cbn [star_loop]. rewrite m_cls. cbn [rest]. rewrite H.
  unfold advance. cbn [rest caps length].
  replace (length t <? S (length t)) with true
    by (symmetry; apply Nat.ltb_lt; lia).
  reflexivity.
Qed.

(** Greedy run over a class when the continuation accepts at the far end. *)
Lemma star_cls_far ic c k n p a b cs x :
  all (cls_mem c) a = true -> starts (cls_mem c) b = false ->
  (length a <= n)%nat ->
  k (MState (last_or p a) b cs) = Some x ->
  star_loop (m ic (Cls c)) k n (MState p (a ++ b) cs) = Some x.
Proof.
  revert n p. induction a as [|d a IH]; intros n p Ha Hb Hn Hk.
  - cbn [append last_or] in *. now rewrite star_cls_stop.
  - simpl in Ha. apply andb_true_iff in Ha as [Hd Ha].
    destruct n as [|n]; [simpl in Hn; lia |].
    cbn [append]. rewrite star_cls_step by assumption.
    rewrite (IH n (Some d)); auto. simpl in Hn. lia.
Qed.

(** Greedy run over a class when the continuation refuses every position
    that still has a character of the class ahead. *)
Lemma star_cls_refused ic c k n p a b cs :
  all (cls_mem c) a = true -> starts (cls_mem c) b = false ->
  (length a <= n)%nat ->
  (forall st, starts (cls_mem c) (rest st) = true -> k st = None) ->
  star_loop (m ic (Cls c)) k n (MState p (a ++ b) cs) =
  k (MState (last_or p a) b cs).
Proof.
  revert n p. induction a as [|d a IH]; intros n p Ha Hb Hn Hk.
  - cbn [append last_or]. now rewrite star_cls_stop.
  - simpl in Ha. apply andb_true_iff in Ha as [Hd Ha].
    destruct n as [|n]; [simpl in Hn; lia |].
    cbn [append]. rewrite star_cls_step by assumption.
    rewrite (IH n (Some d)); auto; [| simpl in Hn; lia].
    cbn [last_or].
    destruct (k (MState (last_or (Some d) a) b cs)); [reflexivity |].
    apply Hk. simpl. exact Hd.
Qed.

End ReFacts.

Module DecimalScan.
Import Str Re StrFacts ReFacts Normalizer.
Local Open Scope nat_scope.

Lemma digit_not_dot a : is_digit a = true -> (a =? ".")%char = false.
Proof.
  intros H. destruct (Ascii.eqb_spec a "."); [subst; discriminate H | reflexivity].
Qed.

Lemma m_decimal st k :
  m false decimal_pattern st k =
  star_loop (m false (Cls Digit))
    (fun st1 => m false (Chr ".") st1 (fun st2 =>
       m false (Cls Digit) st2 (fun st3 =>
         star_loop (m false (Cls Digit))
           (fun st4 => k (MState (prev st4) (rest st4)
                                 ((1, consumed st st4) :: caps st4)))
           (S (length (rest st3))) st3)))
    (S (length (rest st))) st.
Proof. reflexivity. Qed.

Lemma dot_refuses_digits (k : K) st :
  starts (cls_mem Digit) (rest st) = true ->
  m false (Chr ".") st k = None.
Proof.
  destruct st as [p [|a t] cs]; [discriminate |]. cbn. intros H.
  now rewrite (digit_not_dot _ H).
Qed.

Lemma leading_decimal_some s mt r :
  leading_decimal s = Some (mt, r) ->
  exists ds fs,
    s = ds ++ String "." (fs ++ r) /\ mt = ds ++ String "." fs /\
    all is_digit ds = true /\ all is_digit fs = true /\
    nonempty fs = true /\ starts is_digit r = false.
Proof.
  unfold leading_decimal.
  destruct (span is_digit s) as [ds r0] eqn:E0.
  destruct r0 as [|c r']; [discriminate |].
  destruct (Ascii.eqb_spec c "."); [subst c | discriminate].
  destruct (span is_digit r') as [fs r3] eqn:E1.
  destruct (nonempty fs) eqn:Hne; [|discriminate].
  intros [= <- <-].
  apply span_eq in E0 as (-> & Hds & _).
  apply span_eq in E1 as (-> & Hfs & Hr).
  exists ds, fs. auto 10.
Qed.

Lemma m_chr ic c st k :
  m ic (Chr c) st k =
  match rest st with
  | String a t => if chr_eq ic a c then k (advance a t st) else None
  | EmptyString => None
  end.
Proof. reflexivity. Qed.

Lemma try_at_decimal_some ma p s mt r :
  leading_decimal s = Some (mt, r) ->
  exists q,
    try_at false decimal_pattern ma p s =
    Some (Match "" mt (MState q r [(1, mt)])).
Proof.
  intros H. apply leading_decimal_some in H
    as (ds & fs & -> & -> & Hds & Hfs & Hne & Hr).
  destruct fs as [|f fs]; [discriminate |].
  cbn [all] in Hfs. apply andb_true_iff in Hfs as [Hf Hfs].
  cbn [append].
  assert (Hcons : substring 0
            (length (ds ++ String "." (String f (fs ++ r))) - length r)
            (ds ++ String "." (String f (fs ++ r)))
          = ds ++ String "." (String f fs)).
  { replace (ds ++ String "." (String f (fs ++ r)))
      with ((ds ++ String "." (String f fs)) ++ r)
      by (rewrite str_app_assoc; reflexivity).
    apply substring_prefix. }
  exists (last_or (Some f) fs).
  unfold try_at. rewrite m_decimal. cbn [rest].
  rewrite star_cls_refused; try assumption; try reflexivity.
  - rewrite m_chr. cbn [rest chr_eq]. rewrite Ascii.eqb_refl.
    unfold advance at 1. cbn [caps]. rewrite m_cls. cbn [rest].
    change (cls_mem Digit f) with (is_digit f). rewrite Hf.
    unfold advance. cbn [rest caps].
    rewrite star_cls_far
      with (x := MState (last_or (Some f) fs) r
                   [(1, ds ++ String "." (String f fs))]).
    + unfold consumed. cbn [rest]. rewrite Hcons. reflexivity.
    + exact Hfs.
    + exact Hr.
    + rewrite str_length_app. lia.
    + cbn [rest prev caps]. unfold consumed. cbn [rest]. rewrite Hcons.
      replace (length r =? length (ds ++ String "." (String f (fs ++ r))))
        with false.
      * now rewrite andb_false_r.
      * symmetry. apply Nat.eqb_neq. rewrite str_length_app. cbn [length].
        rewrite str_length_app. lia.
  - rewrite str_length_app. lia.
  - intros st Hst. now apply dot_refuses_digits.
Qed.

Lemma try_at_decimal_none ma p s :
  leading_decimal s = None ->
  try_at false decimal_pattern ma p s = None.
Proof.
  unfold leading_decimal.
  destruct (span is_digit s) as [ds r0] eqn:E0.
  apply span_eq in E0 as (-> & Hds & Hr0).
  intros H. unfold try_at. rewrite m_decimal. cbn [rest].
  rewrite star_cls_refused; try assumption;
    [| rewrite str_length_app; lia
     | intros st Hst; now apply dot_refuses_digits].
  rewrite m_chr. cbn [rest chr_eq].
  destruct r0 as [|c r']; [reflexivity |].
  destruct (Ascii.eqb_spec c "."); [subst c | reflexivity].
  cbv beta iota in H.
  destruct (span is_digit r') as [fs r3] eqn:E1.
  apply span_eq in E1 as (-> & Hfs & Hr3).
  destruct fs as [|f fs]; [|discriminate].
  unfold advance. rewrite m_cls. cbn [append rest].
  destruct r3 as [|d r3]; [reflexivity |]. cbn in Hr3.
  change (cls_mem Digit d) with (is_digit d). now rewrite Hr3.
Qed.

End DecimalScan.

(** ** Rounding to binary64 *)

Module FloatFacts.
Import Float.
Local Open Scope Q_scope.

Lemma pow2_pos e : 0 < pow2 e.
Proof. apply Qpower_0_lt. reflexivity. Qed.

Lemma pow2_add a b : pow2 (a + b) == pow2 a * pow2 b.
Proof. apply Qpower_plus. discriminate. Qed.

Lemma pow2_le a b : (a <= b)%Z -> pow2 a <= pow2 b.
Proof. intros H. apply Qpower_le_compat_l; [exact H | discriminate]. Qed.

Lemma pow2_lt a b : (a < b)%Z -> pow2 a < pow2 b.
Proof. intros H. apply Qpower_lt_compat_l; [exact H | reflexivity]. Qed.

Lemma pow2_Z n : (0 <= n)%Z -> pow2 n == inject_Z (2 ^ n).
Proof. intros H. unfold pow2. now rewrite Zpower_Qpower. Qed.

Lemma pow2_succ a : pow2 (a + 1) == 2 * pow2 a.
Proof. rewrite pow2_add. unfold pow2 at 2. simpl. ring. Qed.

Lemma pow2_pred a : pow2 (a - 1) == pow2 a * (1 # 2).
Proof.
  setoid_replace (pow2 a) with (pow2 ((a - 1) + 1)) by (now replace (a - 1 + 1)%Z with a by ring).
  rewrite pow2_succ. ring.
Qed.

Lemma Q_num_den q : q * inject_Z (Zpos (Qden q)) == inject_Z (Qnum q).
Proof.
  destruct q as [n d]. unfold Qeq, Qmult, inject_Z.
  cbn [Qnum Qden]. rewrite Pos.mul_1_r. ring.
Qed.

Lemma Qnum_pos q : 0 < q -> (0 < Qnum q)%Z.
Proof. destruct q as [n d]. unfold Qlt. simpl. lia. Qed.

(** [floor_log2] brackets its argument between two powers of two. *)
Lemma floor_log2_spec q :
  0 < q -> pow2 (floor_log2 q) <= q /\ q < pow2 (floor_log2 q + 1).
Proof.
  intros Hq. unfold floor_log2.
  set (n := Qnum q). set (d := Zpos (Qden q)).
  set (e0 := (Z.log2 n - Z.log2 d)%Z).
  assert (Hn : (0 < n)%Z) by now apply Qnum_pos.
  assert (Hd : (0 < d)%Z) by reflexivity.
  destruct (Z.log2_spec n Hn) as [Hn1 Hn2].
  destruct (Z.log2_spec d Hd) as [Hd1 Hd2].
  pose proof (Z.log2_nonneg n) as Hln. pose proof (Z.log2_nonneg d) as Hld.
  assert (Hqd : q * inject_Z d == inject_Z n) by apply Q_num_den.
  assert (Hup : q < pow2 (e0 + 1)).
  { (* q * 2^ld <= q * d = n < 2^(ln+1) *)
    assert (H1 : inject_Z n < pow2 (Z.log2 n + 1)).
    { rewrite pow2_Z by lia. rewrite <- Zlt_Qlt. exact Hn2. }
    assert (H2 : pow2 (Z.log2 d) <= inject_Z d).
    { rewrite pow2_Z by lia. rewrite <- Zle_Qle. exact Hd1. }
    assert (H3 : pow2 (e0 + 1) * pow2 (Z.log2 d) == pow2 (Z.log2 n + 1)).
    { rewrite <- pow2_add. unfold e0.
      now replace (Z.log2 n - Z.log2 d + 1 + Z.log2 d)%Z with (Z.log2 n + 1)%Z by ring. }
    pose proof (pow2_pos (Z.log2 d)) as Hp.
    apply (Qmult_lt_r _ _ (pow2 (Z.log2 d))); [exact Hp |].
    rewrite H3. eapply Qle_lt_trans; [| exact H1]. rewrite <- Hqd.
    apply Qmult_le_l; [exact Hq | exact H2]. }
  assert (Hlo : pow2 (e0 - 1) < q).
  { assert (H1 : pow2 (Z.log2 n) <= inject_Z n).
    { rewrite pow2_Z by lia. rewrite <- Zle_Qle. exact Hn1. }
    assert (H2 : inject_Z d < pow2 (Z.log2 d + 1)).
    { rewrite pow2_Z by lia. rewrite <- Zlt_Qlt. exact Hd2. }
    assert (H3 : pow2 (e0 - 1) * pow2 (Z.log2 d + 1) == pow2 (Z.log2 n)).
    { rewrite <- pow2_add. unfold e0.
      now replace (Z.log2 n - Z.log2 d - 1 + (Z.log2 d + 1))%Z with (Z.log2 n) by ring. }
    pose proof (pow2_pos (Z.log2 d + 1)) as Hp.
    apply (Qmult_lt_r _ _ (pow2 (Z.log2 d + 1))); [exact Hp |].
    rewrite H3. eapply Qle_lt_trans; [exact H1 |]. rewrite <- Hqd.
    apply Qmult_lt_l; [exact Hq | exact H2]. }
  destruct (Qle_bool (pow2 e0) q) eqn:E.
  - apply Qle_bool_iff in E. split; assumption.
  - split.
    + apply Qlt_le_weak. exact Hlo.
    + replace (e0 - 1 + 1)%Z with e0 by ring.
      apply Qnot_le_lt. intros H. apply Qle_bool_iff in H. congruence.
Qed.

Lemma floor_log2_lt q p : 0 < q -> q < pow2 p -> (floor_log2 q < p)%Z.
Proof.
  intros Hq Hp. destruct (floor_log2_spec Hq) as [H1 _].
  destruct (Z.lt_ge_cases (floor_log2 q) p) as [H|H]; [exact H |].
  exfalso. apply (Qlt_irrefl q). eapply Qlt_le_trans; [exact Hp |].
  eapply Qle_trans; [| exact H1]. now apply pow2_le.
Qed.

Lemma floor_log2_ge q p : 0 < q -> pow2 p <= q -> (p <= floor_log2 q)%Z.
Proof.
  intros Hq Hp. destruct (floor_log2_spec Hq) as [_ H2].
  destruct (Z.le_gt_cases p (floor_log2 q)) as [H|H]; [exact H |].
  exfalso. apply (Qlt_irrefl q). eapply Qlt_le_trans; [exact H2 |].
  eapply Qle_trans; [| exact Hp]. apply pow2_le. lia.
Qed.

(** The nearest integer is within one half. *)
Lemma round_int_ne_spec x :
  inject_Z (round_int_ne x) - x <= 1 # 2 /\
  x - inject_Z (round_int_ne x) <= 1 # 2.
Proof.
  unfold round_int_ne.
  pose proof (Qfloor_le x) as H1. pose proof (Qlt_floor x) as H2.
  rewrite inject_Z_plus in H2. change (inject_Z 1) with 1 in H2.
  destruct (Qcompare (x - inject_Z (Qfloor x)) (1 # 2)) eqn:E.
  - apply Qeq_alt in E.
    destruct (Z.even (Qfloor x));
      [| rewrite inject_Z_plus; change (inject_Z 1) with 1]; split; lra.
  - apply Qlt_alt in E. split; lra.
  - apply Qgt_alt in E. rewrite inject_Z_plus. change (inject_Z 1) with 1.
    split; lra.
Qed.

Lemma round_int_ne_floor x : (Qfloor x <= round_int_ne x)%Z.
Proof.
  unfold round_int_ne.
  destruct (Qcompare _ _); [destruct (Z.even _) | |]; lia.
Qed.

Lemma rnd_pos_eq q :
  rnd_pos q == inject_Z (round_int_ne (q / pow2 (ulp_exp q))) * pow2 (ulp_exp q).
Proof. unfold rnd_pos. apply Qred_correct. Qed.

(** The rounding error is at most half a unit in the last place. *)
Lemma rnd_pos_err q :
  Qabs (rnd_pos q - q) <= pow2 (ulp_exp q) * (1 # 2).
Proof.
  rewrite rnd_pos_eq. set (e := ulp_exp q).
  pose proof (pow2_pos e) as He.
  destruct (round_int_ne_spec (q / pow2 e)) as [H1 H2].
  set (M := inject_Z (round_int_ne (q / pow2 e))) in *.
  assert (Hq : q == (q / pow2 e) * pow2 e) by (field; lra).
  set (x := q / pow2 e) in *.
  apply Qabs_Qle_condition. split.
  - setoid_replace (M * pow2 e - q) with ((M - x) * pow2 e) by (rewrite Hq at 1; ring).
    setoid_replace (- (pow2 e * (1 # 2))) with ((- (1 # 2)) * pow2 e) by ring.
    apply Qmult_le_r; [exact He | lra].
  - setoid_replace (M * pow2 e - q) with ((M - x) * pow2 e) by (rewrite Hq at 1; ring).
    setoid_replace (pow2 e * (1 # 2)) with ((1 # 2) * pow2 e) by ring.
    apply Qmult_le_r; [exact He | lra].
Qed.

Lemma ulp_exp_le q p :
  0 < q -> q < pow2 p -> (-1021 <= p)%Z -> (ulp_exp q <= p - 53)%Z.
Proof.
  intros Hq Hp Hr. unfold ulp_exp.
  pose proof (@floor_log2_lt q p Hq Hp). lia.
Qed.

(** The rounding error below [2^p]. *)
Lemma rnd_err q p :
  Qabs q < pow2 p -> (-1021 <= p)%Z -> Qabs (rnd q - q) <= pow2 (p - 54).
Proof.
  intros Hq Hp. unfold rnd.
  assert (Hhalf : forall y, 0 < y -> y < pow2 p ->
                    pow2 (ulp_exp y) * (1 # 2) <= pow2 (p - 54)).
  { intros y Hy Hyp. rewrite <- pow2_pred. apply pow2_le.
    pose proof (@ulp_exp_le y p Hy Hyp Hp). lia. }
  apply Qabs_Qlt_condition in Hq as [Hq1 Hq2].
  destruct (Qcompare q 0) eqn:E.
  - apply Qeq_alt in E.
    setoid_replace (0 - q) with 0 by lra. simpl.
    apply Qlt_le_weak, pow2_pos.
  - apply Qlt_alt in E.
    setoid_replace (- rnd_pos (- q) - q) with (- (rnd_pos (- q) - - q)) by ring.
    rewrite Qabs_opp.
    eapply Qle_trans; [apply rnd_pos_err |]. apply Hhalf; lra.
  - apply Qgt_alt in E.
    eapply Qle_trans; [apply rnd_pos_err |]. now apply Hhalf.
Qed.

Lemma round_int_ne_int x k : x == inject_Z k -> round_int_ne x = k.
Proof.
  intros H. unfold round_int_ne.
  assert (Hf : Qfloor x = k) by (rewrite H; apply Qfloor_Z).
  rewrite Hf.
  assert (E : Qcompare (x - inject_Z k) (1 # 2) = Lt).
  { apply Qlt_alt. rewrite H. setoid_replace (inject_Z k - inject_Z k) with 0 by ring.
    reflexivity. }
  now rewrite E.
Qed.

Lemma rnd_pos_nonneg q : 0 < q -> 0 <= rnd_pos q.
Proof.
  intros Hq. rewrite rnd_pos_eq.
  pose proof (pow2_pos (ulp_exp q)) as He.
  apply Qmult_le_0_compat; [| lra].
  change 0 with (inject_Z 0). rewrite <- Zle_Qle.
  eapply Z.le_trans; [| apply round_int_ne_floor].
  change 0%Z with (Qfloor 0). apply Qfloor_resp_le.
  apply Qle_shift_div_l; lra.
Qed.

Lemma rnd_of_pos q : 0 < q -> rnd q = rnd_pos q.
Proof.
  intros H. unfold rnd.
  assert (E : Qcompare q 0 = Gt) by now apply Qgt_alt.
  now rewrite E.
Qed.

(** Integers below 2^53 are doubles. *)
Lemma rnd_int v W :
  v == inject_Z W -> (0 <= W < 2 ^ 53)%Z -> rnd v == inject_Z W.
Proof.
  intros Hv [H0 H1].
  destruct (Z.eq_dec W 0) as [-> | Hne].
  { unfold rnd. assert (E : Qcompare v 0 = Eq) by now apply Qeq_alt.
    rewrite E. reflexivity. }
  assert (Hq : 0 < v).
  { rewrite Hv. change 0 with (inject_Z 0). rewrite <- Zlt_Qlt. lia. }
  rewrite (rnd_of_pos Hq), rnd_pos_eq.
  set (lg := floor_log2 v).
  assert (Hlg : (0 <= lg <= 52)%Z).
  { split.
    - apply floor_log2_ge; [exact Hq |]. rewrite Hv.
      change (pow2 0) with (inject_Z 1). rewrite <- Zle_Qle. lia.
    - assert (lg < 53)%Z; [| lia]. apply floor_log2_lt; [exact Hq |].
      rewrite Hv, pow2_Z by lia. rewrite <- Zlt_Qlt. exact H1. }
  assert (He : ulp_exp v = (lg - 52)%Z) by (unfold ulp_exp; fold lg; lia).
  rewrite He.
  assert (Hp : pow2 (lg - 52) * pow2 (52 - lg) == 1).
  { rewrite <- pow2_add. now replace (lg - 52 + (52 - lg))%Z with 0%Z by ring. }
  pose proof (pow2_pos (lg - 52)) as Hpos.
  assert (Hx : v / pow2 (lg - 52) == inject_Z (W * 2 ^ (52 - lg))).
  { rewrite Hv, inject_Z_mult, <- pow2_Z by lia.
    apply Qmult_inj_r with (z := pow2 (lg - 52)); [lra |].
    rewrite <- Qmult_assoc, (Qmult_comm (pow2 (52 - lg))), Hp.
    field. lra. }
  rewrite (round_int_ne_int Hx), inject_Z_mult, <- pow2_Z by lia.
  rewrite <- Qmult_assoc, (Qmult_comm (pow2 (52 - lg))), Hp. ring.
Qed.

(** Below one nothing overflows. *)
Lemma small_no_overflow q : 0 <= q -> q < 1 -> overflows (rnd q) = false.
Proof.
  intros H0 H1. unfold overflows.
  destruct (Qle_bool (pow2 1024) (Qabs (rnd q))) eqn:E; [| reflexivity].
  exfalso. apply Qle_bool_iff in E.
  assert (Hq : Qabs q < pow2 0) by (rewrite Qabs_pos by exact H0; exact H1).
  pose proof (@rnd_err q 0 Hq ltac:(lia)) as Herr.
  apply Qabs_Qle_condition in Herr as [He1 He2].
  pose proof (pow2_lt (a := 1) (b := 1024) ltac:(lia)) as Hbig.
  change (pow2 1) with 2 in Hbig.
  pose proof (pow2_lt (a := -54) (b := 0) ltac:(lia)) as Hsmall.
  change (pow2 0) with 1 in Hsmall. simpl Z.sub in *.
  assert (Habs : Qabs (rnd q) < 2).
  { apply Qabs_Qlt_condition. split; lra. }
  lra.
Qed.

Lemma inject_Z_sub a b : inject_Z (a - b) == inject_Z a - inject_Z b.
Proof. unfold Z.sub. rewrite inject_Z_plus, inject_Z_opp. reflexivity. Qed.

(** The overflow threshold: half an ulp below 2^1024. *)
Lemma below_threshold v :
  0 < v -> v < pow2 1024 - pow2 970 -> rnd_pos v < pow2 1024.
Proof.
  intros Hv Ht.
  pose proof (pow2_pos 970) as P970. pose proof (pow2_pos 971) as P971.
  assert (E971 : pow2 971 == 2 * pow2 970) by apply (pow2_succ 970).
  assert (E1024 : pow2 1024 == pow2 53 * pow2 971).
  { rewrite <- pow2_add. reflexivity. }
  assert (E1023 : pow2 1024 == 2 * pow2 1023) by apply (pow2_succ 1023).
  assert (L970 : pow2 970 < pow2 1023) by (apply pow2_lt; lia).
  set (lg := floor_log2 v).
  assert (Hlg : (lg < 1024)%Z) by (apply floor_log2_lt; [exact Hv | lra]).
  destruct (floor_log2_spec Hv) as [_ Hup]. fold lg in Hup.
  destruct (Z.eq_dec lg 1023) as [E | NE].
  - assert (He : ulp_exp v = 971%Z) by (unfold ulp_exp; fold lg; lia).
    rewrite rnd_pos_eq, He.
    destruct (round_int_ne_spec (v / pow2 971)) as [H1 _].
    set (M := round_int_ne (v / pow2 971)) in *.
    assert (Hx : v / pow2 971 < pow2 53 - (1 # 2)).
    { apply Qlt_shift_div_r; [exact P971 |].
      setoid_replace ((pow2 53 - (1 # 2)) * pow2 971)
        with (pow2 1024 - pow2 970) by (rewrite E1024, E971; ring).
      exact Ht. }
    assert (HM : (M < 2 ^ 53)%Z).
    { rewrite Zlt_Qlt, <- pow2_Z by lia. lra. }
    assert (HM' : inject_Z M <= pow2 53 - 1).
    { rewrite pow2_Z by lia. change 1 with (inject_Z 1).
      rewrite <- inject_Z_sub, <- Zle_Qle. lia. }
    apply Qle_lt_trans with ((pow2 53 - 1) * pow2 971).
    + apply Qmult_le_r; [exact P971 | exact HM'].
    + rewrite E1024. lra.
  - assert (He : (ulp_exp v <= 970)%Z) by (unfold ulp_exp; fold lg; lia).
    pose proof (rnd_pos_err v) as Herr.
    apply Qabs_Qle_condition in Herr as [_ Herr].
    pose proof (pow2_le He) as Hle.
    assert (Hv2 : v < pow2 1023).
    { eapply Qlt_le_trans; [exact Hup |]. apply pow2_le. lia. }
    lra.
Qed.

Lemma above_threshold v :
  pow2 1024 - pow2 970 <= v -> pow2 1024 <= rnd_pos v.
Proof.
  intros Ht.
  pose proof (pow2_pos 970) as P970. pose proof (pow2_pos 971) as P971.
  assert (E971 : pow2 971 == 2 * pow2 970) by apply (pow2_succ 970).
  assert (E1024 : pow2 1024 == pow2 53 * pow2 971).
  { rewrite <- pow2_add. reflexivity. }
  assert (E1023 : pow2 1024 == 2 * pow2 1023) by apply (pow2_succ 1023).
  assert (L970 : pow2 970 < pow2 1023) by (apply pow2_lt; lia).
  assert (Hv : 0 < v) by (pose proof (pow2_pos 1023); lra).
  set (lg := floor_log2 v).
  assert (Hlg : (1023 <= lg)%Z) by (apply floor_log2_ge; [exact Hv | lra]).
  destruct (floor_log2_spec Hv) as [Hlo Hup]. fold lg in Hlo, Hup.
  assert (He : ulp_exp v = (lg - 52)%Z) by (unfold ulp_exp; fold lg; lia).
  rewrite rnd_pos_eq, He.
  pose proof (pow2_pos (lg - 52)) as Pe.
  destruct (Z.eq_dec lg 1023) as [E | NE].
  - rewrite E in *. change (1023 - 52)%Z with 971%Z in *.
    change (1023 + 1)%Z with 1024%Z in *.
    set (x := v / pow2 971).
    assert (Hx1 : pow2 53 - (1 # 2) <= x).
    { apply Qle_shift_div_l; [exact P971 |].
      setoid_replace ((pow2 53 - (1 # 2)) * pow2 971)
        with (pow2 1024 - pow2 970) by (rewrite E1024, E971; ring).
      exact Ht. }
    assert (Hx2 : x < pow2 53).
    { apply Qlt_shift_div_r; [exact P971 |]. now rewrite <- E1024. }
    assert (Hf : Qfloor x = (2 ^ 53 - 1)%Z).
    { apply Z.le_antisymm.
      - assert (Qfloor x < 2 ^ 53)%Z; [| lia].
        rewrite Zlt_Qlt, <- pow2_Z by lia.
        eapply Qle_lt_trans; [apply Qfloor_le | exact Hx2].
      - rewrite <- (Qfloor_Z (2 ^ 53 - 1)). apply Qfloor_resp_le.
        rewrite inject_Z_sub, <- pow2_Z by lia.
        change (inject_Z 1) with 1. lra. }
    assert (HM : round_int_ne x = (2 ^ 53)%Z).
    { unfold round_int_ne. rewrite Hf.
      assert (Hr : 1 # 2 <= x - inject_Z (2 ^ 53 - 1)).
      { rewrite inject_Z_sub, <- pow2_Z by lia.
        change (inject_Z 1) with 1. lra. }
      destruct (Qcompare (x - inject_Z (2 ^ 53 - 1)) (1 # 2)) eqn:C.
      - reflexivity.
      - apply Qlt_alt in C. exfalso. apply (Qlt_irrefl (1 # 2)).
        eapply Qle_lt_trans; [exact Hr | exact C].
      - reflexivity. }
    rewrite HM, <- pow2_Z by lia. rewrite E1024. apply Qle_refl.
  - set (x := v / pow2 (lg - 52)).
    assert (Hp : pow2 52 * pow2 (lg - 52) == pow2 lg).
    { rewrite <- pow2_add. now replace (52 + (lg - 52))%Z with lg by ring. }
    assert (Hx : pow2 52 <= x).
    { apply Qle_shift_div_l; [exact Pe |]. rewrite Hp. exact Hlo. }
    assert (HM : inject_Z (2 ^ 52) <= inject_Z (round_int_ne x)).
    { rewrite <- Zle_Qle. eapply Z.le_trans; [| apply round_int_ne_floor].
      rewrite <- (Qfloor_Z (2 ^ 52)). apply Qfloor_resp_le.
      rewrite <- pow2_Z by lia. exact Hx. }
    rewrite <- pow2_Z in HM by lia.
    apply Qle_trans with (pow2 lg); [apply pow2_le; lia |].
    rewrite <- Hp. apply Qmult_le_r; [exact Pe | exact HM].
Qed.

(** Once a value overflows, every larger one does. *)
Lemma overflow_mono v v' :
  0 < v -> v <= v' -> overflows (rnd v) = true -> overflows (rnd v') = true.
Proof.
  intros Hv Hle Ho.
  assert (Hv' : 0 < v') by lra.
  rewrite (rnd_of_pos Hv) in Ho. rewrite (rnd_of_pos Hv').
  unfold overflows in *. apply Qle_bool_iff in Ho. apply Qle_bool_iff.
  rewrite Qabs_pos in Ho by now apply rnd_pos_nonneg.
  rewrite Qabs_pos by now apply rnd_pos_nonneg.
  apply above_threshold.
  destruct (Qlt_le_dec v (pow2 1024 - pow2 970)) as [Hlt | Hge]; [| lra].
  exfalso. pose proof (below_threshold Hv Hlt). lra.
Qed.

End FloatFacts.

(** ** The decimal scan of [clean_ingredient] *)

Module CleanFacts.
Import Str Re StrFacts ReFacts DecimalScan Normalizer.
Local Open Scope nat_scope.

Local Notation "'SUB' n ma p s" :=
  (sub_loop n false decimal_pattern replace_decimal ma p s)
  (at level 10, n, ma, p, s at level 9).

Lemma leading_decimal_length s mt r :
  leading_decimal s = Some (mt, r) ->
  s = mt ++ r /\ length r < length s /\ mt <> "".
Proof.
  intros H. apply leading_decimal_some in H
    as (ds & fs & -> & -> & _ & _ & _ & _).
  repeat split.
  - rewrite str_app_assoc. reflexivity.
  - rewrite str_length_app. cbn [length]. rewrite str_length_app. lia.
  - destruct ds; discriminate.
Qed.

Lemma sub_decimal_match n ma p s mt r :
  leading_decimal s = Some (mt, r) ->
  exists q, SUB (S n) ma p s = decimal_to_fraction mt ++ SUB n false q r.
Proof.
  intros H. destruct (@leading_decimal_length _ _ _ H) as (_ & _ & Hne).
  destruct (@try_at_decimal_some ma p _ _ _ H) as [q Hq].
  exists q. cbn [sub_loop]. 
  assert (Hs : search_from false decimal_pattern ma p s
               = Some (Match "" mt (MState q r [(1, mt)]))).
  { destruct s; cbn [search_from]; now rewrite Hq. }
  rewrite Hs. cbn [m_pre m_text m_end prev rest append].
  unfold replace_decimal, group. cbn [m_end caps assoc Nat.eqb].
  destruct mt; [congruence | reflexivity].
Qed.

Lemma sub_decimal_skip n ma p a t :
  leading_decimal (String a t) = None ->
  SUB (S n) ma p (String a t) = String a (SUB (S n) false (Some a) t).
Proof.
  intros H. cbn [sub_loop search_from].
  rewrite (@try_at_decimal_none ma p _ H).
  destruct (search_from false decimal_pattern false (Some a) t) as [mo|];
    reflexivity.
Qed.

Lemma sub_decimal_empty n ma p : SUB n ma p "" = "".
Proof.
  destruct n; [reflexivity |]. cbn [sub_loop search_from].
  now rewrite (@try_at_decimal_none ma p "" eq_refl).
Qed.

(** Enough fuel is enough, and the character before does not matter. *)
Lemma sub_decimal_indep k :
  forall s, length s <= k ->
  forall n1 n2 ma1 ma2 p1 p2,
    length s <= n1 -> length s <= n2 ->
    SUB n1 ma1 p1 s = SUB n2 ma2 p2 s.
Proof.
  induction k as [|k IH]; intros s Hk n1 n2 ma1 ma2 p1 p2 H1 H2.
  - destruct s; [| simpl in Hk; lia]. now rewrite !sub_decimal_empty.
  - destruct s as [|a t]; [now rewrite !sub_decimal_empty |].
    cbn [length] in *.
    destruct n1 as [|n1]; [lia |]. destruct n2 as [|n2]; [lia |].
    destruct (leading_decimal (String a t)) as [[mt r]|] eqn:E.
    + destruct (@leading_decimal_length _ _ _ E) as (_ & Hlen & _).
      cbn [length] in Hlen.
      destruct (@sub_decimal_match n1 ma1 p1 _ _ _ E) as [q1 ->].
      destruct (@sub_decimal_match n2 ma2 p2 _ _ _ E) as [q2 ->].
      f_equal. apply IH; lia.
    + rewrite !sub_decimal_skip by exact E. f_equal. apply IH; lia.
Qed.

Lemma clean_empty : clean_ingredient "" = "".
Proof. reflexivity. Qed.

Lemma clean_match s mt r :
  leading_decimal s = Some (mt, r) ->
  clean_ingredient s = decimal_to_fraction mt ++ clean_ingredient r.
Proof.
  intros H. destruct (@leading_decimal_length _ _ _ H) as (_ & Hlen & _).
  unfold clean_ingredient, Re.sub.
  replace (2 * length s + 2) with (S (2 * length s + 1)) by lia.
  destruct (@sub_decimal_match (2 * length s + 1) false None _ _ _ H) as [q ->].
  f_equal. apply (@sub_decimal_indep (length r)); lia.
Qed.

Lemma clean_skip a t :
  leading_decimal (String a t) = None ->
  clean_ingredient (String a t) = String a (clean_ingredient t).
Proof.
  intros H. unfold clean_ingredient, Re.sub.
  replace (2 * length (String a t) + 2)
    with (S (2 * length (String a t) + 1)) by lia.
  rewrite sub_decimal_skip by exact H.
  f_equal. apply (@sub_decimal_indep (length t)); cbn [length]; lia.
Qed.

End CleanFacts.

Module DigitFacts.
Import Str StrFacts.
Local Open Scope Z_scope.

Lemma digit_val_range c : is_digit c = true -> 0 <= digit_val c <= 9.
Proof.
  unfold is_digit, digit_val. intros H.
  apply andb_true_iff in H as [H1 H2].
  apply Nat.leb_le in H1. apply Nat.leb_le in H2. lia.
Qed.

Lemma to_Z_acc_app a b acc : to_Z_acc (a ++ b) acc = to_Z_acc b (to_Z_acc a acc).
Proof. revert acc. induction a; intros acc; simpl; auto. Qed.

Lemma to_Z_acc_lin s acc :
  to_Z_acc s acc = acc * 10 ^ Z.of_nat (length s) + to_Z_acc s 0.
Proof.
  revert acc. induction s as [|c s IH]; intros acc.
  - simpl. lia.
  - cbn [to_Z_acc length]. rewrite IH, (IH (10 * 0 + digit_val c)).
    rewrite Nat2Z.inj_succ, Z.pow_succ_r by lia. ring.
Qed.

Lemma to_Z_range s :
  all is_digit s = true -> 0 <= to_Z s < 10 ^ Z.of_nat (length s).
Proof.
  unfold to_Z. induction s as [|c s IH]; intros H.
  - simpl. lia.
  - cbn [all] in H. apply andb_true_iff in H as [Hc Hs].
    cbn [to_Z_acc length]. rewrite to_Z_acc_lin.
    rewrite Nat2Z.inj_succ, Z.pow_succ_r by lia.
    pose proof (digit_val_range _ Hc). specialize (IH Hs). nia.
Qed.

Lemma to_Z_app a b :
  to_Z (a ++ b) = to_Z a * 10 ^ Z.of_nat (length b) + to_Z b.
Proof. unfold to_Z. rewrite to_Z_acc_app. apply to_Z_acc_lin. Qed.

End DigitFacts.

Module LiteralFacts.
Import Str StrFacts DigitFacts Float FloatFacts.
Local Open Scope Q_scope.

Lemma pow10_pos n : (0 < 10 ^ Z.of_nat n)%Z.
Proof. apply Z.pow_pos_nonneg; lia. Qed.

Lemma Zpos_pow10 n : (0 < n)%nat ->
  Zpos (Pos.pow 10 (Pos.of_nat n)) = (10 ^ Z.of_nat n)%Z.
Proof.
  intros H. rewrite Pos2Z.inj_pow. f_equal.
  destruct n; [lia |].
  now rewrite <- Pos.of_nat_succ, Zpos_P_of_succ_nat, Nat2Z.inj_succ.
Qed.

(** The value of a literal with digits after the point. *)
Lemma literal_value_eq ip fp :
  nonempty fp = true ->
  literal_value ip fp ==
  inject_Z (to_Z (ip ++ fp)) / inject_Z (10 ^ Z.of_nat (length fp)).
Proof.
  intros H. unfold literal_value. destruct fp as [|c fp]; [discriminate |].
  rewrite Qred_correct. unfold decimal_value.
  rewrite Qmake_Qdiv, Zpos_pow10 by (simpl; lia). reflexivity.
Qed.

Lemma literal_value_nonneg ip fp :
  all is_digit ip = true -> all is_digit fp = true -> nonempty fp = true ->
  0 <= literal_value ip fp.
Proof.
  intros Hi Hf Hn. rewrite (@literal_value_eq ip fp Hn).
  pose proof (pow10_pos (length fp)) as Hp.
  assert (Hd : all is_digit (ip ++ fp) = true)
    by (rewrite str_all_app, Hi, Hf; reflexivity).
  pose proof (to_Z_range _ Hd) as [H0 _].
  apply Qle_shift_div_l.
  - change 0 with (inject_Z 0). now rewrite <- Zlt_Qlt.
  - rewrite Qmult_0_l. change 0 with (inject_Z 0). now rewrite <- Zle_Qle.
Qed.

Lemma literal_value_lt_1 fp :
  all is_digit fp = true -> nonempty fp = true -> literal_value "" fp < 1.
Proof.
  intros Hf Hn. rewrite (@literal_value_eq "" fp Hn). cbn [append].
  pose proof (pow10_pos (length fp)) as Hp.
  pose proof (to_Z_range _ Hf) as [_ H1].
  apply Qlt_shift_div_r.
  - change 0 with (inject_Z 0). now rewrite <- Zlt_Qlt.
  - rewrite Qmult_1_l. now rewrite <- Zlt_Qlt.
Qed.

Lemma literal_value_extend ip fp gs :
  all is_digit gs = true -> nonempty fp = true ->
  literal_value ip fp <= literal_value ip (fp ++ gs).
Proof.
  intros Hg Hn.
  assert (Hn' : nonempty (fp ++ gs) = true) by (destruct fp; [discriminate | reflexivity]).
  rewrite (@literal_value_eq ip fp Hn), (@literal_value_eq ip (fp ++ gs) Hn').
  rewrite <- str_app_assoc, (to_Z_app (ip ++ fp) gs), str_length_app,
    Nat2Z.inj_add.
  rewrite Z.pow_add_r by lia.
  pose proof (pow10_pos (length fp)) as Hp.
  pose proof (pow10_pos (length gs)) as Hq.
  pose proof (to_Z_range _ Hg) as [H0 _].
  set (A := to_Z (ip ++ fp)) in *. set (P := (10 ^ Z.of_nat (length fp))%Z) in *.
  set (G := (10 ^ Z.of_nat (length gs))%Z) in *. set (B := to_Z gs) in *.
  apply Qle_shift_div_l.
  - change 0 with (inject_Z 0). rewrite <- Zlt_Qlt. nia.
  - unfold Qdiv. rewrite <- Qmult_assoc, (Qmult_comm (/ inject_Z P)).
    rewrite Qmult_assoc. apply Qle_shift_div_r.
    + change 0 with (inject_Z 0). now rewrite <- Zlt_Qlt.
    + rewrite <- !inject_Z_mult, <- Zle_Qle. nia.
Qed.

End LiteralFacts.

Module FractionFacts.
Import Str StrFacts DigitFacts Float FloatFacts LiteralFacts Normalizer.

Lemma no_dot_app a b : no_dot (a ++ b) = no_dot a && no_dot b.
Proof. apply str_all_app. Qed.

Lemma uint_no_dot d : no_dot (NilEmpty.string_of_uint d) = true.
Proof. induction d; simpl; auto. Qed.

Lemma of_Z_no_dot n : no_dot (Str.of_Z n) = true.
Proof.
  unfold Str.of_Z, NilZero.string_of_int, NilZero.string_of_uint.
  destruct (Z.to_int n) as [d|d]; destruct d; try reflexivity;
    apply (uint_no_dot (_ d)) || (cbn [no_dot all]; apply (uint_no_dot (_ d))).
Qed.

Lemma common_fractions_no_dot :
  Forall (fun e => no_dot (snd e) = true) common_fractions.
Proof. unfold common_fractions. repeat constructor. Qed.

Lemma fraction_string_no_dot num : no_dot (fraction_string num) = true.
Proof.
  unfold fraction_string.
  repeat match goal with
         | |- context [if ?b then _ else _] => destruct b
         end;
    rewrite ?no_dot_app, ?of_Z_no_dot; reflexivity.
Qed.

Lemma of_string_literal ds fs :
  all is_digit ds = true -> all is_digit fs = true -> nonempty fs = true ->
  Float.of_string (ds ++ String "." fs) =
  Some (if overflows (rnd (literal_value ds fs)) then PosInf
        else Fin (rnd (literal_value ds fs))).
Proof.
  intros Hd Hf Hn. unfold Float.of_string.
  rewrite (span_app is_digit ds (String "." fs) Hd eq_refl).
  rewrite Ascii.eqb_refl.
  replace fs with (fs ++ "") at 1 by apply str_app_nil_r.
  rewrite (span_app is_digit fs "" Hf eq_refl).
  now rewrite Hn, orb_true_r.
Qed.

(** A literal either overflows and is given back, or comes out without a
    point. *)
Lemma decimal_to_fraction_shape ds fs :
  all is_digit ds = true -> all is_digit fs = true -> nonempty fs = true ->
  (overflows (rnd (literal_value ds fs)) = true /\
   decimal_to_fraction (ds ++ String "." fs) = ds ++ String "." fs) \/
  (overflows (rnd (literal_value ds fs)) = false /\
   no_dot (decimal_to_fraction (ds ++ String "." fs)) = true).
Proof.
  intros Hd Hf Hn. unfold decimal_to_fraction.
  rewrite (of_string_literal ds fs Hd Hf Hn).
  destruct (overflows (rnd (literal_value ds fs))); [left; auto | right].
  split; [reflexivity |]. unfold fraction_of_float.
  destruct (Qeq_bool _ _); [apply of_Z_no_dot |].
  destruct (find _ common_fractions) as [[k name]|] eqn:E.
  - apply find_some in E as [Hin _].
    pose proof common_fractions_no_dot as HF.
    rewrite Forall_forall in HF. specialize (HF _ Hin). cbn [snd] in HF.
    destruct (_ <? _)%Z; rewrite ?no_dot_app, ?of_Z_no_dot, ?HF; reflexivity.
  - apply fraction_string_no_dot.
Qed.

Lemma no_dot_literal ds fs : no_dot (ds ++ String "." fs) = false.
Proof.
  rewrite no_dot_app. cbn. now rewrite andb_false_r.
Qed.

End FractionFacts.

(** ** Cleaning twice *)

Module Idempotence.
Import Str StrFacts DecimalScan CleanFacts DigitFacts LiteralFacts
       FractionFacts Float FloatFacts Normalizer.
Local Open Scope nat_scope.

Lemma run_end_starts tail : run_end tail = true -> starts is_digit tail = false.
Proof.
  destruct tail as [|c x]; [reflexivity |]. cbn.
  destruct (Ascii.eqb_spec c "."); [subst; reflexivity |].
  now intros ->%negb_true_iff.
Qed.

Lemma span_stop (p : ascii -> bool) x :
  starts p x = false -> span p x = ("", x).
Proof. intros H. apply (span_app p "" x eq_refl H). Qed.

Lemma ld_run_end ds tail :
  all is_digit ds = true -> run_end tail = true ->
  leading_decimal (ds ++ tail) = None.
Proof.
  intros Hd Ht. unfold leading_decimal.
  rewrite (span_app is_digit ds tail Hd (run_end_starts _ Ht)).
  destruct tail as [|c x]; [reflexivity |]. cbn in Ht.
  destruct (c =? ".")%char; [| reflexivity].
  apply negb_true_iff in Ht.
  rewrite (span_stop is_digit x Ht). reflexivity.
Qed.

Lemma ld_literal ds fs x :
  all is_digit ds = true -> all is_digit fs = true -> nonempty fs = true ->
  starts is_digit x = false ->
  leading_decimal (ds ++ String "." (fs ++ x)) = Some (ds ++ String "." fs, x).
Proof.
  intros Hd Hf Hn Hx. unfold leading_decimal.
  rewrite (span_app is_digit ds (String "." (fs ++ x)) Hd eq_refl).
  rewrite Ascii.eqb_refl, (span_app is_digit fs x Hf Hx). now rewrite Hn.
Qed.

Lemma clean_run ds tail :
  all is_digit ds = true -> run_end tail = true ->
  clean_ingredient (ds ++ tail) = ds ++ clean_ingredient tail.
Proof.
  induction ds as [|d ds IH]; intros Hd Ht; [reflexivity |].
  cbn [append]. rewrite clean_skip.
  - cbn [all] in Hd. apply andb_true_iff in Hd as [_ Hd]. now rewrite IH.
  - apply (ld_run_end (String d ds) tail Hd Ht).
Qed.

Lemma clean_run_end c x :
  run_end (String c x) = true ->
  clean_ingredient (String c x) = String c (clean_ingredient x).
Proof.
  intros H. apply clean_skip. apply (ld_run_end "" (String c x) eq_refl H).
Qed.

Lemma clean_digits ds : all is_digit ds = true -> clean_ingredient ds = ds.
Proof.
  intros H. rewrite <- (str_app_nil_r ds) at 1.
  rewrite clean_run by auto. now rewrite clean_empty, str_app_nil_r.
Qed.

Lemma clean_literal ds fs x :
  all is_digit ds = true -> all is_digit fs = true -> nonempty fs = true ->
  starts is_digit x = false ->
  clean_ingredient (ds ++ String "." (fs ++ x)) =
  decimal_to_fraction (ds ++ String "." fs) ++ clean_ingredient x.
Proof.
  intros Hd Hf Hn Hx. apply clean_match. now apply ld_literal.
Qed.

(** ** Overflowing literals stay as they are *)

Lemma overflowing_kept p : overflowing p -> decimal_to_fraction p = p.
Proof.
  intros (ds & fs & -> & Hd & Hf & Hn & Ho).
  destruct (decimal_to_fraction_shape ds fs Hd Hf Hn) as [[_ H] | [H _]];
    [exact H | congruence].
Qed.

Lemma zero_no_overflow v : v == 0 -> overflows (rnd v) = false.
Proof.
  intros H. unfold rnd.
  assert (E : Qcompare v 0 = Eq) by now apply Qeq_alt.
  rewrite E. reflexivity.
Qed.

Lemma overflowing_extend p gs :
  overflowing p -> all is_digit gs = true -> overflowing (p ++ gs).
Proof.
  intros (ds & fs & -> & Hd & Hf & Hn & Ho) Hg.
  exists ds, (fs ++ gs). repeat split.
  - now rewrite str_app_assoc.
  - exact Hd.
  - now rewrite str_all_app, Hf, Hg.
  - destruct fs; [discriminate | reflexivity].
  - pose proof (literal_value_nonneg ds fs Hd Hf Hn) as H0.
    pose proof (@literal_value_extend ds fs gs Hg Hn) as H1.
    apply (@overflow_mono (literal_value ds fs)); try assumption.
    destruct (Qlt_le_dec 0 (literal_value ds fs)) as [Hlt | Hle]; [exact Hlt |].
    exfalso. rewrite zero_no_overflow in Ho; [discriminate |].
    apply Qle_antisym; assumption.
Qed.

Lemma overflowing_has_digits p :
  overflowing p -> starts is_digit p = true.
Proof.
  intros (ds & fs & -> & Hd & Hf & Hn & Ho).
  destruct ds as [|d ds].
  - exfalso. rewrite small_no_overflow in Ho; [discriminate | |].
    + now apply literal_value_nonneg.
    + now apply literal_value_lt_1.
  - cbn in *. now apply andb_true_iff in Hd as [-> _].
Qed.

Lemma clean_overflowing p x :
  overflowing p -> starts is_digit x = false ->
  clean_ingredient (p ++ x) = p ++ clean_ingredient x.
Proof.
  intros Hp Hx. pose proof (overflowing_kept Hp) as Hk.
  destruct Hp as (ds & fs & -> & Hd & Hf & Hn & Ho).
  rewrite str_app_assoc. cbn [append].
  rewrite clean_literal by assumption. now rewrite Hk, str_app_assoc.
Qed.

(** ** Text without a point goes through, up to its last run of digits *)

Lemma span_cases s :
  exists ds r,
    s = ds ++ r /\ all is_digit ds = true /\
    (run_end r = true \/
     exists fs r3,
       r = String "." (fs ++ r3) /\ all is_digit fs = true /\
       nonempty fs = true /\ starts is_digit r3 = false).
Proof.
  destruct (span is_digit s) as [ds r] eqn:E.
  apply span_eq in E as (-> & Hd & Hr).
  exists ds, r. split; [reflexivity |]. split; [exact Hd |].
  destruct r as [|c x]; [left; reflexivity |].
  cbn in Hr. cbn [run_end].
  destruct (Ascii.eqb_spec c "."); [subst c | left; now rewrite Hr].
  destruct (span is_digit x) as [fs r3] eqn:E.
  apply span_eq in E as (-> & Hf & Hr3).
  destruct fs as [|f fs].
  - left. cbn [append]. now rewrite Hr3.
  - right. exists (String f fs), r3. auto.
Qed.

Lemma no_dot_clean n :
  forall t, length t <= n -> no_dot t = true ->
  exists f b,
    t = f ++ b /\ all is_digit b = true /\
    forall y, clean_ingredient (t ++ y) = f ++ clean_ingredient (b ++ y).
Proof.
  induction n as [|n IH]; intros t Hn Ht.
  - destruct t; [| simpl in Hn; lia]. exists "", "". auto.
  - destruct (span is_digit t) as [ds r] eqn:E.
    apply span_eq in E as (-> & Hd & Hr).
    destruct r as [|c x].
    + exists "", ds. rewrite str_app_nil_r. auto.
    + unfold no_dot in Ht. rewrite str_all_app in Ht.
      apply andb_true_iff in Ht as [_ Ht]. cbn [all] in Ht.
      apply andb_true_iff in Ht as [Hc Hx]. apply negb_true_iff in Hc.
      cbn in Hr.
      destruct (IH x) as (f & b & -> & Hb & Hy).
      * rewrite str_length_app in Hn. cbn [length] in Hn. lia.
      * exact Hx.
      * exists (ds ++ String c f), b. repeat split.
        -- now rewrite str_app_assoc.
        -- exact Hb.
        -- intros y. rewrite !str_app_assoc. cbn [append].
           rewrite clean_run; [| exact Hd | cbn; now rewrite Hc, Hr].
           rewrite clean_run_end by (cbn; now rewrite Hc, Hr).
           now rewrite Hy.
Qed.

(** ** No two periods before a digit *)

Lemma ddd_tail a t : dot_dot_digit (String a t) = false -> dot_dot_digit t = false.
Proof. cbn [dot_dot_digit]. intros H. now apply orb_false_iff in H as [_ H]. Qed.

Lemma ddd_app_r a b : dot_dot_digit (a ++ b) = false -> dot_dot_digit b = false.
Proof.
  induction a as [|c a IH]; [auto |]. cbn [append]. intros H.
  apply IH. now apply ddd_tail in H.
Qed.

Lemma ddd_head c y :
  dot_dot_digit (String "." (String "." (String c y))) = false ->
  is_digit c = false.
Proof.
  cbn [dot_dot_digit]. intros H. apply orb_false_iff in H as [H _].
  now rewrite !Ascii.eqb_refl in H.
Qed.

Lemma clean_starts x :
  starts is_digit x = false ->
  (forall c y, x = String "." (String c y) -> is_digit c = false) ->
  starts is_digit (clean_ingredient x) = false.
Proof.
  intros Hx Hdd. destruct x as [|a x]; [reflexivity |].
  cbn in Hx. rewrite clean_run_end; [exact Hx |].
  cbn [run_end]. destruct (Ascii.eqb_spec a ".") as [-> | _];
    [| now rewrite Hx].
  destruct x as [|c y]; [reflexivity |]. cbn. now rewrite (Hdd c y eq_refl).
Qed.

Lemma run_end_clean c x :
  run_end (String c x) = true -> dot_dot_digit (String c x) = false ->
  run_end (String c (clean_ingredient x)) = true.
Proof.
  cbn [run_end]. destruct (Ascii.eqb_spec c ".") as [-> | _]; [| auto].
  intros H Hdd. apply negb_true_iff in H. apply negb_true_iff.
  apply clean_starts; [exact H |].
  intros c y ->. now apply ddd_head in Hdd.
Qed.

Lemma digits_not_started ds r :
  all is_digit ds = true -> starts is_digit (ds ++ r) = false -> ds = "".
Proof.
  destruct ds as [|d ds]; [reflexivity |]. cbn. intros H1 H2.
  apply andb_true_iff in H1 as [H1 _]. congruence.
Qed.

(** ** The second pass changes nothing *)

Lemma second_pass n :
  forall s, length s <= n -> dot_dot_digit s = false ->
  (forall p, all is_digit p = true ->
             p = "" \/ starts is_digit s = false ->
             clean_ingredient (p ++ clean_ingredient s) =
             p ++ clean_ingredient s) /\
  (forall p, overflowing p -> starts is_digit s = false ->
             clean_ingredient (p ++ clean_ingredient s) =
             p ++ clean_ingredient s).
Proof.
  induction n as [|n IH]; intros s Hn Hdd.
  - destruct s; [| simpl in Hn; lia]. rewrite clean_empty. split.
    + intros p Hp _. rewrite str_app_nil_r. now apply clean_digits.
    + intros p Hp _. now rewrite clean_overflowing, clean_empty.
  - destruct (span_cases s) as (ds & r & -> & Hd & [Hr | Hlit]).
    + (* the run of digits is not the head of a literal *)
      destruct r as [|c x].
      * rewrite str_app_nil_r, (clean_digits _ Hd). split.
        -- intros p Hp _. apply clean_digits. now rewrite str_all_app, Hp, Hd.
        -- intros p Hp Hs.
           rewrite (digits_not_started ds "" Hd) by now rewrite str_app_nil_r.
           now rewrite clean_overflowing, clean_empty.
      * assert (Hx : length x <= n).
        { rewrite str_length_app in Hn. cbn [length] in Hn. lia. }
        assert (Hddx : dot_dot_digit (String c x) = false)
          by now apply ddd_app_r in Hdd.
        destruct (IH x Hx (ddd_tail _ _ Hddx)) as [IH1 _].
        specialize (IH1 "" eq_refl (or_introl eq_refl)). cbn [append] in IH1.
        pose proof (run_end_clean _ _ Hr Hddx) as Hr'.
        rewrite (clean_run ds _ Hd Hr), (clean_run_end _ _ Hr). split.
        -- intros p Hp _. rewrite <- str_app_assoc.
           rewrite clean_run; [| now rewrite str_all_app, Hp, Hd | exact Hr'].
           now rewrite (clean_run_end _ _ Hr'), IH1.
        -- intros p Hp Hs. rewrite (digits_not_started ds _ Hd Hs).
           cbn [append].
           rewrite clean_overflowing;
             [| exact Hp | now apply run_end_starts].
           now rewrite (clean_run_end _ _ Hr'), IH1.
    + (* a literal *)
      destruct Hlit as (fs & r3 & -> & Hf & Hne & Hr3).
      assert (H3 : length r3 <= n).
      { rewrite str_length_app in Hn. cbn [length] in Hn.
        rewrite str_length_app in Hn. lia. }
      assert (Hdd3 : dot_dot_digit r3 = false).
      { apply ddd_app_r in Hdd. apply ddd_tail in Hdd.
        now apply ddd_app_r in Hdd. }
      destruct (IH r3 H3 Hdd3) as [IH1 IH2].
      rewrite (clean_literal ds fs r3 Hd Hf Hne Hr3).
      destruct (decimal_to_fraction_shape ds fs Hd Hf Hne)
        as [[Ho Hk] | [Ho Hplain]].
      * (* too large: given back *)
        assert (Hov : overflowing (ds ++ String "." fs))
          by (exists ds, fs; auto 10).
        pose proof (overflowing_has_digits Hov) as Hst.
        rewrite Hk. split.
        -- intros p Hp [-> | Hs].
           ++ cbn [append]. now apply IH2.
           ++ rewrite (digits_not_started ds _ Hd Hs) in Hst. discriminate.
        -- intros p Hp Hs.
           rewrite (digits_not_started ds _ Hd Hs) in Hst. discriminate.
      * (* converted: no point in the replacement *)
        set (t := decimal_to_fraction (ds ++ String "." fs)) in *.
        split.
        -- intros p Hp _.
           assert (Hpt : no_dot (p ++ t) = true).
           { rewrite no_dot_app, Hplain, andb_true_r.
             clear - Hp. induction p as [|a p IHp]; [reflexivity |].
             cbn [all] in Hp. apply andb_true_iff in Hp as [Ha Hp].
             cbn [no_dot all].
             rewrite (digit_not_dot _ Ha). cbn. now apply IHp. }
           destruct (@no_dot_clean (length (p ++ t)) (p ++ t) (le_n _) Hpt)
             as (f & b & Hfb & Hb & Hy).
           rewrite <- str_app_assoc, Hy.
           rewrite (IH1 b Hb (or_intror Hr3)).
           now rewrite <- str_app_assoc, <- Hfb.
        -- intros p Hp _.
           destruct (span is_digit t) as [t1 t2] eqn:Et.
           apply span_eq in Et as (Ht & Ht1 & Ht2).
           pose proof (@overflowing_extend p t1 Hp Ht1) as Hp1.
           rewrite Ht in Hplain. rewrite no_dot_app in Hplain.
           apply andb_true_iff in Hplain as [_ Hplain2].
           rewrite Ht. rewrite (str_app_assoc t1), <- (str_app_assoc p).
           destruct t2 as [|c t2].
           ++ cbn [append]. now apply IH2.
           ++ rewrite clean_overflowing; [| exact Hp1 | exact Ht2].
              destruct (@no_dot_clean (length (String c t2)) (String c t2)
                          (le_n _) Hplain2)
                as (f & b & Hfb & Hb & Hy).
              rewrite Hy, (IH1 b Hb (or_intror Hr3)).
              now rewrite Hfb, (str_app_assoc f b).
Qed.

End Idempotence.

(** C10, as the code has it.  [clean_ingredient] is idempotent on every
    string that has no two periods in a row before a digit: a converted
    literal comes out without a point, a literal too large for a double is
    given back and found again, and a period that was not part of a literal
    is not followed by a digit afterwards either. *)
Theorem clean_ingredient_idempotent (s : string) :
  Normalizer.dot_dot_digit s = false ->
  Normalizer.clean_ingredient (Normalizer.clean_ingredient s) =
  Normalizer.clean_ingredient s.
Proof.
  intros H.
  destruct (@Idempotence.second_pass (length s) s (le_n _) H) as [H1 _].
  exact (H1 "" eq_refl (or_introl eq_refl)).
Qed.

Lemma clean_ingredient_idempotent_witness :
  Normalizer.clean_ingredient
    (Normalizer.clean_ingredient "1.5 cups flour, 0.25 tsp salt") =
  Normalizer.clean_ingredient "1.5 cups flour, 0.25 tsp salt".
Proof.
  apply (clean_ingredient_idempotent "1.5 cups flour, 0.25 tsp salt").
  reflexivity.
Defined.

(** C10, as stated, fails: after two periods the replacement of a literal
    lands behind a period and reads as a new literal. *)
Lemma clean_ingredient_not_idempotent :
  Normalizer.clean_ingredient "..0" = ".0" /\
  Normalizer.clean_ingredient (Normalizer.clean_ingredient "..0") = "0" /\
  Normalizer.clean_ingredient (Normalizer.clean_ingredient "..0")
    <> Normalizer.clean_ingredient "..0".
Proof.
  split; [vm_compute; reflexivity |].
  split; [vm_compute; reflexivity |].
  vm_compute. discriminate.
Qed.

(** ** The table of cooking fractions *)

Module TableFacts.
Import Float FloatFacts Normalizer.
Local Open Scope Q_scope.

Lemma pow2_m54 : pow2 (-54) <= 1 # 10000000000000000.
Proof. unfold Qle. vm_compute. discriminate. Qed.

Lemma pow2_m34 : pow2 (-34) <= 1 # 10000000000.
Proof. unfold Qle. vm_compute. discriminate. Qed.

(** Below one in size, rounding moves a number by less than 10^-16. *)
Lemma rnd_err_unit q :
  -1 < q -> q < 1 ->
  rnd q - q <= 1 # 10000000000000000 /\
  q - rnd q <= 1 # 10000000000000000.
Proof.
  intros H1 H2.
  assert (Hq : Qabs q < pow2 0) by (apply Qabs_Qlt_condition; split; assumption).
  pose proof (@rnd_err q 0 Hq ltac:(lia)) as Herr.
  apply Qabs_Qle_condition in Herr as [He1 He2].
  pose proof pow2_m54. change (0 - 54)%Z with (-54)%Z in *. split; lra.
Qed.

(** Below 2^20 in size, by less than 10^-10. *)
Lemma rnd_err_million q :
  0 <= q -> q < 1000001 ->
  rnd q - q <= 1 # 10000000000 /\ q - rnd q <= 1 # 10000000000.
Proof.
  intros H1 H2.
  assert (Hq : Qabs q < pow2 20).
  { apply Qabs_Qlt_condition. change (pow2 20) with 1048576. split; lra. }
  pose proof (@rnd_err q 20 Hq ltac:(lia)) as Herr.
  apply Qabs_Qle_condition in Herr as [He1 He2].
  pose proof pow2_m34. change (20 - 54)%Z with (-34)%Z in *. split; lra.
Qed.

Lemma tolerance_bounds :
  (2 # 100) - (1 # 10000000000000000) <= tolerance /\
  tolerance <= (2 # 100) + (1 # 10000000000000000).
Proof.
  unfold tolerance.
  destruct (@rnd_err_unit (2 # 100)) as [H1 H2]; try reflexivity.
  split; lra.
Qed.

Lemma close_to_eq fp dec name :
  close_to fp (rnd dec, name) =
  negb (Qle_bool tolerance (Qabs (rnd (fp - rnd dec)))).
Proof. reflexivity. Qed.

(** A table entry well inside the tolerance matches. *)
Lemma close_yes fp dec name :
  0 <= dec -> dec <= 9 # 10 ->
  dec - ((2 # 100) - (4 # 10000000000000000)) <= fp ->
  fp <= dec + ((2 # 100) - (4 # 10000000000000000)) ->
  close_to fp (rnd dec, name) = true.
Proof.
  intros D0 D1 L U. rewrite close_to_eq.
  destruct (@rnd_err_unit dec) as [K1 K2]; try lra.
  destruct (@rnd_err_unit (fp - rnd dec)) as [S1 S2]; try lra.
  destruct tolerance_bounds as [T1 T2].
  destruct (Qle_bool tolerance (Qabs (rnd (fp - rnd dec)))) eqn:E;
    [| reflexivity].
  exfalso. apply Qle_bool_iff in E.
  assert (Habs : Qabs (rnd (fp - rnd dec))
                 <= (2 # 100) - (2 # 10000000000000000)).
  { apply Qabs_Qle_condition. split; lra. }
  lra.
Qed.

(** A table entry well outside the tolerance does not. *)
Lemma close_no fp dec name :
  1 # 10 <= dec -> dec <= 9 # 10 -> 0 <= fp -> fp <= 1 ->
  fp <= dec - ((2 # 100) + (4 # 10000000000000000)) \/
  dec + ((2 # 100) + (4 # 10000000000000000)) <= fp ->
  close_to fp (rnd dec, name) = false.
Proof.
  intros D0 D1 F0 F1 Hout. rewrite close_to_eq.
  destruct (@rnd_err_unit dec) as [K1 K2]; try lra.
  destruct (@rnd_err_unit (fp - rnd dec)) as [S1 S2]; try lra.
  destruct tolerance_bounds as [T1 T2].
  apply negb_false_iff, Qle_bool_iff.
  destruct Hout as [Hlo | Hhi].
  - apply Qle_trans with (- rnd (fp - rnd dec)); [lra |].
    rewrite <- Qabs_opp. apply Qle_Qabs.
  - apply Qle_trans with (rnd (fp - rnd dec)); [lra |]. apply Qle_Qabs.
Qed.

End TableFacts.

Module LimitFacts.
Import Float FloatFacts Normalizer.
Local Open Scope Z_scope.

Lemma Qred_coprime a b : Z.gcd a (Zpos b) = 1 -> Qred (a # b) = (a # b).
Proof.
  intros Hg. unfold Qred.
  pose proof (Z.ggcd_gcd a (Zpos b)) as H1.
  pose proof (Z.ggcd_correct_divisors a (Zpos b)) as H2.
  destruct (Z.ggcd a (Zpos b)) as [g [aa bb]]. cbn [fst snd] in *.
  rewrite Hg in H1. subst g. destruct H2 as [Ha Hb].
  rewrite Z.mul_1_l in Ha, Hb. subst aa bb. reflexivity.
Qed.

Lemma limit_loop_step f maxd p0 q0 p1 q1 n d :
  limit_loop (S f) maxd p0 q0 p1 q1 n d =
  if maxd <? q0 + (n / d) * q1 then (p0, q0, p1, q1)
  else limit_loop f maxd p1 q1 (p0 + (n / d) * p1) (q0 + (n / d) * q1)
                  d (n - (n / d) * d).
Proof. reflexivity. Qed.

(** The continued fraction of a number a little above [W + 1/3]. *)
Lemma limit_loop_third f W n d r :
  n = W * d + r ->
  3499 * d <= 10000 * r -> 100000 * r <= 35334 * d -> 0 < d ->
  limit_loop (S (S (S (S f)))) 8 0 1 1 0 n d = (2 * W + 1, 2, 3 * W + 1, 3).
Proof.
  intros Hn H1 H2 Hd.
  assert (D1 : n / d = W).
  { symmetry. apply (Z.div_unique n d W r); lia. }
  assert (D2 : d / r = 2).
  { symmetry. apply (Z.div_unique d r 2 (d - 2 * r)); lia. }
  assert (D3 : r / (d - 2 * r) = 1).
  { symmetry. apply (Z.div_unique r (d - 2 * r) 1 (3 * r - d)); lia. }
  assert (D4 : 3 <= (d - 2 * r) / (3 * r - d)).
  { apply Z.div_le_lower_bound; lia. }
  rewrite limit_loop_step, D1.
  replace (1 + W * 0) with 1 by ring. change (8 <? 1) with false. cbv iota.
  replace (n - W * d) with r by lia.
  rewrite limit_loop_step, D2.
  replace (0 + 2 * 1) with 2 by ring. change (8 <? 2) with false. cbv iota.
  rewrite limit_loop_step, D3.
  replace (1 + 1 * 2) with 3 by ring. change (8 <? 3) with false. cbv iota.
  replace (r - 1 * (d - 2 * r)) with (3 * r - d) by ring.
  rewrite limit_loop_step.
  replace (8 <? 2 + (d - 2 * r) / (3 * r - d) * 3) with true
    by (symmetry; apply Z.ltb_lt; lia).
  cbv iota.
  replace (0 + W * 1) with W by ring.
  replace (1 + 2 * W) with (2 * W + 1) by ring.
  replace (W + 1 * (2 * W + 1)) with (3 * W + 1) by ring.
  reflexivity.
Qed.


Local Open Scope Q_scope.

Lemma third_value W : (3 * W + 1)%Z # 3 == inject_Z W + (1 # 3).
Proof. unfold Qeq, Qplus, inject_Z. cbn [Qnum Qden]. lia. Qed.

Lemma three_eighths_value W :
  (2 * W + 1 + 2 * (3 * W + 1))%Z # 8 == inject_Z W + (3 # 8).
Proof. unfold Qeq, Qplus, inject_Z. cbn [Qnum Qden]. lia. Qed.

Lemma third_coprime W : Qred ((3 * W + 1)%Z # 3) = ((3 * W + 1)%Z # 3).
Proof.
  apply Qred_coprime. rewrite Z.gcd_comm.
  replace (3 * W + 1)%Z with (1 + W * 3)%Z by ring.
  now rewrite Z.gcd_add_mult_diag_r.
Qed.

(** A little above [W + 1/3], [limit_denominator 8] gives [W + 1/3]. *)
Lemma limit_denominator_third num W :
  inject_Z W + (3499 # 10000) <= num ->
  num <= inject_Z W + (35334 # 100000) ->
  limit_denominator num 8 = ((3 * W + 1)%Z # 3).
Proof.
  intros Hlo Hhi. unfold limit_denominator.
  pose proof (Qred_correct num) as Hx.
  set (x := Qred num) in *.
  pose proof (Q_num_den x) as Hnd.
  set (n := Qnum x) in *. set (d := Zpos (Qden x)) in *.
  assert (Hd : (0 < d)%Z) by (unfold d; lia).
  set (r := (n - W * d)%Z).
  assert (Hr : inject_Z r == (x - inject_Z W) * inject_Z d).
  { unfold r. rewrite inject_Z_sub, inject_Z_mult, <- Hnd. ring. }
  assert (HdQ : 0 < inject_Z d).
  { change 0 with (inject_Z 0). now rewrite <- Zlt_Qlt. }
  assert (H1 : (3499 * d <= 10000 * r)%Z).
  { rewrite Zle_Qle, !inject_Z_mult, Hr.
    change (inject_Z 3499) with (3499 # 1).
    change (inject_Z 10000) with (10000 # 1).
    assert (E : (3499 # 10000) <= x - inject_Z W) by (rewrite Hx; lra).
    nra. }
  assert (H2 : (100000 * r <= 35334 * d)%Z).
  { rewrite Zle_Qle, !inject_Z_mult, Hr.
    change (inject_Z 35334) with (35334 # 1).
    change (inject_Z 100000) with (100000 # 1).
    assert (E : x - inject_Z W <= (35334 # 100000)) by (rewrite Hx; lra).
    nra. }
  assert (Hbig : (d <=? 8)%Z = false) by (apply Z.leb_gt; lia).
  rewrite Hbig.
  replace (2 * Z.to_nat (Z.log2 d) + 4)%nat
    with (S (S (S (S (2 * Z.to_nat (Z.log2 d)))))) by lia.
  rewrite (@limit_loop_third _ W n d r) by (unfold r; lia).
  cbv beta iota zeta.
  change ((8 - 2) / 3)%Z with 2%Z.
  change (Z.to_pos (2 + 2 * 3)) with 8%positive.
  change (Z.to_pos 3) with 3%positive.
  rewrite third_coprime.
  assert (Hb : Qle_bool (Qabs (((3 * W + 1)%Z # 3) - x))
                 (Qabs (Qred ((2 * W + 1 + 2 * (3 * W + 1))%Z # 8) - x)) = true).
  { apply Qle_bool_iff. rewrite Qred_correct, third_value, three_eighths_value, Hx.
    apply Qle_trans with (21 # 1000).
    - apply Qabs_Qle_condition. split; lra.
    - eapply Qle_trans; [| apply Qle_Qabs]. lra. }
  now rewrite Hb.
Qed.

Lemma fraction_string_third num W :
  (0 <= W)%Z ->
  inject_Z W + (3499 # 10000) <= num ->
  num <= inject_Z W + (35334 # 100000) ->
  fraction_string num = with_whole W "1/3".
Proof.
  intros HW Hlo Hhi. unfold fraction_string, with_whole.
  rewrite (@limit_denominator_third num W Hlo Hhi).
  cbn [Qnum Qden]. change (3 =? 1)%Z with false. cbv iota.
  destruct (Z.eq_dec W 0) as [-> | Hne].
  - reflexivity.
  - replace (3 <? 3 * W + 1)%Z with true by (symmetry; apply Z.ltb_lt; lia).
    replace (0 <? W)%Z with true by (symmetry; apply Z.ltb_lt; lia).
    replace ((3 * W + 1) / 3)%Z with W
      by (apply (Z.div_unique (3 * W + 1) 3 W 1); lia).
    replace ((3 * W + 1) mod 3)%Z with 1%Z
      by (apply (Z.mod_unique (3 * W + 1) 3 W 1); lia).
    reflexivity.
Qed.

End LimitFacts.

Module FractionTable.
Import Str StrFacts Float FloatFacts LiteralFacts FractionFacts Normalizer.
Import TableFacts LimitFacts.
Local Open Scope Q_scope.

Lemma Qfloor_unique x W :
  inject_Z W <= x -> x < inject_Z W + 1 -> Qfloor x = W.
Proof.
  intros H1 H2.
  pose proof (Qfloor_le x) as F1. pose proof (Qlt_floor x) as F2.
  assert (A : inject_Z (Qfloor x) < inject_Z (W + 1)).
  { rewrite inject_Z_plus. change (inject_Z 1) with 1. lra. }
  assert (B : inject_Z W < inject_Z (Qfloor x + 1)) by lra.
  rewrite <- Zlt_Qlt in A, B. lia.
Qed.

Lemma trunc_unique x W :
  (0 <= W)%Z -> inject_Z W <= x -> x < inject_Z W + 1 -> trunc x = W.
Proof.
  intros HW H1 H2. unfold trunc.
  assert (H0 : 0 <= x).
  { apply Qle_trans with (inject_Z W); [| exact H1].
    change 0 with (inject_Z 0). now rewrite <- Zle_Qle. }
  apply Qle_bool_iff in H0. rewrite H0. now apply Qfloor_unique.
Qed.

(** The cooking fractions lie between 1/8 and 7/8. *)
Lemma cooking_fractions_range q name :
  In (q, name) cooking_fractions -> 1 # 8 <= q /\ q <= 7 # 8.
Proof.
  unfold cooking_fractions. cbn [In].
  intros H. repeat (destruct H as [H | H]; [inversion H; subst; split; lra |]).
  destruct H.
Qed.

Ltac table_no fp dec name :=
  rewrite (@close_no fp dec name) by lra; cbv iota.

Ltac table_yes fp dec name :=
  rewrite (@close_yes fp dec name) by lra; cbv iota.

(** The search of the table, on a fractional part within the tolerance (less
    a margin) of a cooking fraction: the fraction is found, unless it is a
    third approached from above. *)
Lemma find_table fp q name :
  In (q, name) cooking_fractions ->
  q - ((2 # 100) - (5 # 10000000000000000)) <= fp ->
  fp <= q + ((2 # 100) - (5 # 10000000000000000)) ->
  (exists k, find (close_to fp) common_fractions = Some (k, name)) \/
  (q = (1 # 3) /\ name = "1/3" /\ 35 # 100 <= fp /\
   find (close_to fp) common_fractions = None).
Proof.
  unfold cooking_fractions, common_fractions. cbn [In find].
  intros H Hlo Hhi.
  repeat (destruct H as [H | H];
          [inversion H; subst q name; clear H |]); [.. | destruct H].
  - left. table_yes fp (125 # 1000) "1/8". eauto.
  - left. table_no fp (125 # 1000) "1/8". table_yes fp (25 # 100) "1/4". eauto.
  - table_no fp (125 # 1000) "1/8". table_no fp (25 # 100) "1/4".
    destruct (Qlt_le_dec fp (35 # 100)) as [Hs | Hs].
    + left. table_yes fp (333 # 1000) "1/3". eauto.
    + destruct (close_to fp (rnd (333 # 1000), "1/3")); [left; eauto | right].
      table_no fp (375 # 1000) "3/8". table_no fp (5 # 10) "1/2".
      table_no fp (625 # 1000) "5/8". table_no fp (666 # 1000) "2/3".
      table_no fp (667 # 1000) "2/3". table_no fp (75 # 100) "3/4".
      table_no fp (875 # 1000) "7/8".
      repeat split; try reflexivity; exact Hs.
  - left. table_no fp (125 # 1000) "1/8". table_no fp (25 # 100) "1/4".
    table_no fp (333 # 1000) "1/3". table_yes fp (375 # 1000) "3/8". eauto.
  - left. table_no fp (125 # 1000) "1/8". table_no fp (25 # 100) "1/4".
    table_no fp (333 # 1000) "1/3". table_no fp (375 # 1000) "3/8".
    table_yes fp (5 # 10) "1/2". eauto.
  - left. table_no fp (125 # 1000) "1/8". table_no fp (25 # 100) "1/4".
    table_no fp (333 # 1000) "1/3". table_no fp (375 # 1000) "3/8".
    table_no fp (5 # 10) "1/2". table_yes fp (625 # 1000) "5/8". eauto.
  - left. table_no fp (125 # 1000) "1/8". table_no fp (25 # 100) "1/4".
    table_no fp (333 # 1000) "1/3". table_no fp (375 # 1000) "3/8".
    table_no fp (5 # 10) "1/2". table_no fp (625 # 1000) "5/8".
    destruct (Qlt_le_dec fp (68 # 100)) as [Hs | Hs].
    + table_yes fp (666 # 1000) "2/3". eauto.
    + destruct (close_to fp (rnd (666 # 1000), "2/3")); [eauto |].
      table_yes fp (667 # 1000) "2/3". eauto.
  - left. table_no fp (125 # 1000) "1/8". table_no fp (25 # 100) "1/4".
    table_no fp (333 # 1000) "1/3". table_no fp (375 # 1000) "3/8".
    table_no fp (5 # 10) "1/2". table_no fp (625 # 1000) "5/8".
    table_no fp (666 # 1000) "2/3". table_no fp (667 # 1000) "2/3".
    table_yes fp (75 # 100) "3/4". eauto.
  - left. table_no fp (125 # 1000) "1/8". table_no fp (25 # 100) "1/4".
    table_no fp (333 # 1000) "1/3". table_no fp (375 # 1000) "3/8".
    table_no fp (5 # 10) "1/2". table_no fp (625 # 1000) "5/8".
    table_no fp (666 # 1000) "2/3". table_no fp (667 # 1000) "2/3".
    table_no fp (75 # 100) "3/4". table_yes fp (875 # 1000) "7/8". eauto.
Qed.

Lemma no_overflow_below x : 0 <= x -> x < 2000000 -> overflows x = false.
Proof.
  intros H0 H1. unfold overflows.
  assert (Hbig : 2000000 < pow2 1024) by (unfold Qlt; vm_compute; reflexivity).
  destruct (Qle_bool (pow2 1024) (Qabs x)) eqn:E; [| reflexivity].
  apply Qle_bool_iff in E. rewrite (Qabs_pos x H0) in E. lra.
Qed.

(** [decimal_to_fraction] from the float on, for a float whose fractional
    part is within the tolerance, less a margin, of a cooking fraction. *)
Lemma fraction_of_float_table num W q name :
  In (q, name) cooking_fractions ->
  (0 <= W < 2 ^ 53)%Z ->
  q - ((2 # 100) - (6 # 10000000000000000)) <= num - inject_Z W ->
  num - inject_Z W <= q + ((2 # 100) - (6 # 10000000000000000)) ->
  fraction_of_float num = with_whole W name.
Proof.
  intros Hin HW Hlo Hhi.
  pose proof (cooking_fractions_range Hin) as [Hq1 Hq2].
  assert (Ht : trunc num = W) by (apply trunc_unique; [lia | lra | lra]).
  unfold fraction_of_float. rewrite Ht.
  destruct (Qeq_bool num (inject_Z W)) eqn:E.
  { apply Qeq_bool_eq in E. lra. }
  cbv zeta.
  assert (HWq : of_Z W == inject_Z W).
  { unfold of_Z. apply rnd_int; [reflexivity | exact HW]. }
  unfold sub. set (fp := rnd (num - of_Z W)).
  assert (Hfp : fp - (num - of_Z W) <= 1 # 10000000000000000 /\
                (num - of_Z W) - fp <= 1 # 10000000000000000).
  { apply rnd_err_unit; lra. }
  destruct Hfp as [Hf1 Hf2].
  destruct (@find_table fp q name Hin) as [[k Hk] | (Hq & Hn & Hs & Hk)];
    try lra.
  - rewrite Hk. reflexivity.
  - rewrite Hk. subst q name. apply fraction_string_third; [lia | lra | lra].
Qed.

Lemma no_overflow_int W : (0 <= W < 2 ^ 53)%Z -> overflows (inject_Z W) = false.
Proof.
  intros [H0 H1]. unfold overflows.
  assert (Hbig : inject_Z (2 ^ 53) < pow2 1024)
    by (unfold Qlt; vm_compute; reflexivity).
  assert (HW0 : 0 <= inject_Z W)
    by (change 0 with (inject_Z 0); now rewrite <- Zle_Qle).
  assert (HW1 : inject_Z W < inject_Z (2 ^ 53)) by now rewrite <- Zlt_Qlt.
  destruct (Qle_bool (pow2 1024) (Qabs (inject_Z W))) eqn:E; [| reflexivity].
  apply Qle_bool_iff in E. rewrite (Qabs_pos _ HW0) in E. lra.
Qed.

Lemma overflows_wd x y : x == y -> overflows x = overflows y.
Proof.
  intros E. unfold overflows.
  destruct (Qle_bool (pow2 1024) (Qabs x)) eqn:A;
    destruct (Qle_bool (pow2 1024) (Qabs y)) eqn:B; try reflexivity.
  - apply Qle_bool_iff in A. rewrite E in A. apply Qle_bool_iff in A. congruence.
  - apply Qle_bool_iff in B. rewrite <- E in B. apply Qle_bool_iff in B. congruence.
Qed.

(** Within the tolerance, less 10^-15, of a cooking fraction. *)
Lemma table_below_one ip fp q name :
  all is_digit ip = true -> all is_digit fp = true -> nonempty fp = true ->
  In (q, name) cooking_fractions ->
  Qabs (literal_value ip fp - q) <= (2 # 100) - (1 # 1000000000000000) ->
  decimal_to_fraction (ip ++ String "." fp) = name.
Proof.
  intros Hi Hf Hn Hin Hq.
  pose proof (cooking_fractions_range Hin) as [Hq1 Hq2].
  apply Qabs_Qle_condition in Hq. destruct Hq as [Hlo Hhi].
  set (v := literal_value ip fp) in *.
  destruct (@rnd_err_unit v) as [E1 E2]; [lra | lra |].
  unfold decimal_to_fraction. rewrite (of_string_literal ip fp Hi Hf Hn).
  fold v. rewrite (@small_no_overflow v) by lra.
  apply (@fraction_of_float_table (rnd v) 0 q name Hin);
    [lia | change (inject_Z 0) with 0; lra | change (inject_Z 0) with 0; lra].
Qed.

(** With a whole part below a million: within the tolerance, less 10^-9. *)
Lemma table_with_whole ip fp W q name :
  all is_digit ip = true -> all is_digit fp = true -> nonempty fp = true ->
  In (q, name) cooking_fractions ->
  (1 <= W < 1000000)%Z ->
  Qabs (literal_value ip fp - inject_Z W - q) <= (2 # 100) - (1 # 1000000000) ->
  decimal_to_fraction (ip ++ String "." fp) = Str.of_Z W ++ " " ++ name.
Proof.
  intros Hi Hf Hn Hin HW Hq.
  pose proof (cooking_fractions_range Hin) as [Hq1 Hq2].
  apply Qabs_Qle_condition in Hq. destruct Hq as [Hlo Hhi].
  set (v := literal_value ip fp) in *.
  assert (HW1 : 1 <= inject_Z W).
  { change 1 with (inject_Z 1). rewrite <- Zle_Qle. lia. }
  assert (HW2 : inject_Z W < 1000000).
  { change 1000000 with (inject_Z 1000000). rewrite <- Zlt_Qlt. lia. }
  destruct (@rnd_err_million v) as [E1 E2]; [lra | lra |].
  unfold decimal_to_fraction. rewrite (of_string_literal ip fp Hi Hf Hn).
  fold v. rewrite (@no_overflow_below (rnd v)) by lra.
  rewrite (@fraction_of_float_table (rnd v) W q name Hin); [| lia | lra | lra].
  unfold with_whole.
  replace (0 <? W)%Z with true by (symmetry; apply Z.ltb_lt; lia).
  reflexivity.
Qed.

(** An integral value below 2^53. *)
Lemma table_integral ip fp W :
  all is_digit ip = true -> all is_digit fp = true -> nonempty fp = true ->
  (0 <= W < 2 ^ 53)%Z ->
  literal_value ip fp == inject_Z W ->
  decimal_to_fraction (ip ++ String "." fp) = Str.of_Z W.
Proof.
  intros Hi Hf Hn HW Hv.
  set (v := literal_value ip fp) in *.
  pose proof (@rnd_int v W Hv HW) as Hnum.
  unfold decimal_to_fraction. rewrite (of_string_literal ip fp Hi Hf Hn).
  fold v. rewrite (overflows_wd Hnum), (no_overflow_int HW).
  unfold fraction_of_float.
  assert (Ht : trunc (rnd v) = W) by (apply trunc_unique; [lia | lra | lra]).
  rewrite Ht.
  now rewrite (Qeq_eq_bool _ _ Hnum).
Qed.

End FractionTable.

(** C6, as the code has it.  For a literal [ip.fp] of digits: when its value
    is within 0.02, less 10^-15, of a cooking fraction of the table,
    [decimal_to_fraction] gives that fraction; when its value less a whole
    part from 1 to 999999 is within 0.02, less 10^-9, of a cooking fraction,
    it gives the whole part, a blank and the fraction; and when its value is
    a whole number below 2^53 it gives that number.  (The margins stand for
    the rounding of [float(decimal_str)], of the subtraction and of the
    literals [0.02], [0.333], ... of the table; a third approached from
    above, between 0.353 and 0.35333..., is not found in the table and
    comes out of [limit_denominator(8)] as 1/3 all the same.) *)
Theorem decimal_to_fraction_table ip fp
  (Hi : Str.all Str.is_digit ip = true) (Hf : Str.all Str.is_digit fp = true)
  (Hn : Str.nonempty fp = true) :
  (forall q name, In (q, name) Normalizer.cooking_fractions ->
     (Qabs (Float.literal_value ip fp - q)
        <= (2 # 100) - (1 # 1000000000000000))%Q ->
     Normalizer.decimal_to_fraction (ip ++ String "." fp) = name) /\
  (forall W q name, In (q, name) Normalizer.cooking_fractions ->
     (1 <= W < 1000000)%Z ->
     (Qabs (Float.literal_value ip fp - inject_Z W - q)
        <= (2 # 100) - (1 # 1000000000))%Q ->
     Normalizer.decimal_to_fraction (ip ++ String "." fp)
     = Str.of_Z W ++ " " ++ name) /\
  (forall W, (0 <= W < 2 ^ 53)%Z ->
     (Float.literal_value ip fp == inject_Z W)%Q ->
     Normalizer.decimal_to_fraction (ip ++ String "." fp) = Str.of_Z W).
Proof.
  split; [| split].
  - intros q name. now apply FractionTable.table_below_one.
  - intros W q name. now apply FractionTable.table_with_whole.
  - intros W. now apply FractionTable.table_integral.
Qed.

Lemma decimal_to_fraction_table_witness :
  Normalizer.decimal_to_fraction "0.34" = "1/3" /\
  Normalizer.decimal_to_fraction "2.5" = "2 1/2" /\
  Normalizer.decimal_to_fraction "4.0" = "4".
Proof.
  split; [| split].
  - apply (proj1 (@decimal_to_fraction_table "0" "34" eq_refl eq_refl eq_refl)
             (1 # 3)%Q "1/3").
    + cbn [In Normalizer.cooking_fractions]. tauto.
    + vm_compute. discriminate.
  - apply (proj1 (proj2 (@decimal_to_fraction_table "2" "5" eq_refl eq_refl eq_refl))
             2%Z (1 # 2)%Q "1/2").
    + cbn [In Normalizer.cooking_fractions]. tauto.
    + lia.
    + vm_compute. discriminate.
  - apply (proj2 (proj2 (@decimal_to_fraction_table "4" "0" eq_refl eq_refl eq_refl))
             4%Z).
    + lia.
    + reflexivity.
Defined.

(** C6, as stated, fails at the edge of the tolerance: 0.60500000000000001
    is less than 0.02 below 5/8, but [float] reads it as the double nearest
    to 0.605, which lies below 0.605 and more than 0.02 below 0.625; no
    entry of the table is taken and [limit_denominator(8)] gives 3/5. *)
Lemma decimal_to_fraction_off_table :
  In ((5 # 8)%Q, "5/8") Normalizer.cooking_fractions /\
  (0 <= Float.literal_value "0" "60500000000000001")%Q /\
  (Float.literal_value "0" "60500000000000001" < 1)%Q /\
  (Qabs (Float.literal_value "0" "60500000000000001" - (5 # 8)) < 2 # 100)%Q /\
  Normalizer.decimal_to_fraction "0.60500000000000001" = "3/5".
Proof.
  split; [cbn [In Normalizer.cooking_fractions]; tauto |].
  split; [vm_compute; discriminate |].
  split; [vm_compute; reflexivity |].
  split; [vm_compute; reflexivity |].
  vm_compute. reflexivity.
Qed.

(** ** The orchestrator *)

Section Orchestrator.

Import Py Extract.

Variable validators_url : string -> bool.
Variable requests_get : string -> result response.
Variable scrape_html : string -> string -> result scraper.
Variable json_loads : string -> result value.
Variable BeautifulSoup : string -> Soup.node.

Let fetch := fetch_recipe validators_url requests_get scrape_html
                          json_loads BeautifulSoup.

Lemma fallback_chain_shape html url o :
  fallback_chain json_loads BeautifulSoup html url = Ok o ->
  (exists r, o = (Some r, None)) \/ o = (None, Some msg_unsupported).
Proof.
  unfold fallback_chain, bind.
  destruct (extract_schema_recipe json_loads BeautifulSoup html url)
    as [[r|]|e]; try discriminate.
  - intros [= <-]. left. now exists r.
  - destruct (extract_weekendbakery_recipe BeautifulSoup html url) as [r|].
    + intros [= <-]. left. now exists r.
    + destruct (extract_generic_recipe BeautifulSoup html url) as [r|];
        intros [= <-]; [left; now exists r | now right].
Qed.

Lemma after_fetch_shape url got o :
  after_fetch scrape_html json_loads BeautifulSoup url got = Ok o ->
  (exists r, o = (Some r, None)) \/ o = (None, Some msg_unsupported).
Proof.
  unfold after_fetch, bind.
  destruct got as [[ok html]|e]; try discriminate.
  destruct ok; simpl; try discriminate.
  destruct (scrape_html html url) as [sc|e].
  - intros [= <-]. left. eauto.
  - destruct e; try discriminate. apply fallback_chain_shape.
Qed.

(** C5.  For every URL, [fetch_recipe] returns a pair in which exactly one
    component is non-null: a record with a null error, or a null record with
    a non-empty user-facing message. *)
Theorem fetch_recipe_exactly_one (url : string) (log : net_log) :
  (exists r, fst (fetch url log) = (Some r, None)) \/
  (exists msg, fst (fetch url log) = (None, Some msg) /\ msg <> "").
Proof.
  unfold fetch, fetch_recipe, fetch_try.
  destruct (validators_url url); simpl.
  - destruct (after_fetch scrape_html json_loads BeautifulSoup url
                          (requests_get url)) as [o|e] eqn:E.
    + destruct (after_fetch_shape _ _ E) as [[r ->]| ->].
      * left. now exists r.
      * right. eexists. split; [reflexivity | discriminate].
    + right. destruct e; simpl; eexists; (split; [reflexivity | discriminate]).
  - right. eexists. split; [reflexivity | discriminate].
Qed.

(** C9.  A URL that fails validation gets the invalid-URL failure at once,
    and the network log is left as it was: [requests.get] is not called. *)
Theorem invalid_url_no_network (url : string) (log : net_log) :
  validators_url url = false ->
  fetch url log = ((None, Some msg_invalid_url), log).
Proof.
  intros H. unfold fetch, fetch_recipe, fetch_try. now rewrite H.
Qed.

End Orchestrator.

Lemma invalid_url_no_network_witness :
  Example.validators_url "not a url" = false /\
  Example.fetch "not a url" = ((None, Some Extract.msg_invalid_url), []).
Proof.
  split; [reflexivity |].
  apply (invalid_url_no_network Example.validators_url Example.requests_get
           Example.scrape_html Example.json_loads Example.BeautifulSoup
           "not a url" []).
  reflexivity.
Defined.

Section SchemaExtractor.

Import Py Normalizer Extract.

Variable json_loads : string -> result value.
Variable BeautifulSoup : string -> Soup.node.





End SchemaExtractor.


Section BlogTier.

Import Py Normalizer Extract.

Lemma short_paragraph_kept :
  filter
    (fun text =>
       if (length text <? 150)%nat
          && Re.found (Re.rmatch true leading_measure_pattern text)
       then true
       else (length text <? 100)%nat
            && Re.found (Re.rmatch true leading_egg_pattern text))
    ["350 g flour 20 g sugar"] = ["350 g flour 20 g sugar"].
Proof. vm_compute. reflexivity. Qed.

Lemma clean_flour_sugar :
  clean_ingredients ["350 g flour 20 g sugar"] = ["350 g flour 20 g sugar"].
Proof. vm_compute. reflexivity. Qed.

(** C4, as the code has it.  With no list-item ingredients, a single
    paragraph "350 g flour 20 g sugar" is short and begins with a numeral
    and a unit: the short-paragraph method takes it whole, as one
    ingredient that holds both gram quantities, and the gram-boundary split
    is not reached. *)
Theorem blog_paragraph_kept_whole (soup : Soup.node) (url : string) :
  blog_list_ingredients (blog_content soup) = [] ->
  texts (Soup.find_all "p" (blog_content soup)) = ["350 g flour 20 g sugar"] ->
  exists r,
    weekendbakery_of_soup soup url = Some r /\
    ingredients r = ["350 g flour 20 g sugar"].
Proof.
  intros Hli Hp. unfold weekendbakery_of_soup, blog_ingredients.
  rewrite Hli. unfold blog_short_paragraphs. rewrite Hp, short_paragraph_kept.
  eexists. split; [reflexivity |]. cbn [ingredients]. apply clean_flour_sugar.
Qed.

End BlogTier.

Lemma blog_paragraph_kept_whole_witness :
  exists r,
    Extract.weekendbakery_of_soup Example.paragraph_page "u" = Some r /\
    Extract.ingredients r = ["350 g flour 20 g sugar"].
Proof.
  apply (blog_paragraph_kept_whole Example.paragraph_page "u");
    vm_compute; reflexivity.
Defined.

(** C4, as stated, fails: the paragraph does not come out as the two
    fragments "350 g flour" and "20 g sugar". *)
Lemma blog_paragraph_not_split :
  option_map Extract.ingredients
    (Extract.weekendbakery_of_soup Example.paragraph_page "u")
  <> Some ["350 g flour"; "20 g sugar"].
Proof. vm_compute. discriminate. Qed.

(** Where the gram-boundary split is reached (the paragraph does not begin
    with a quantity), it cuts inside the numerals. *)
Lemma blog_split_cuts_numerals :
  option_map Extract.ingredients
    (Extract.weekendbakery_of_soup Example.dough_page "u")
  = Some ["0 g flour"; "0 g sugar"].
Proof. vm_compute. reflexivity. Qed.

Section FallbackChain.

Import Py Normalizer Extract.

Variable validators_url : string -> bool.
Variable requests_get : string -> result response.
Variable scrape_html : string -> string -> result scraper.
Variable json_loads : string -> result value.
Variable BeautifulSoup : string -> Soup.node.

Let fetch := fetch_recipe validators_url requests_get scrape_html
                          json_loads BeautifulSoup.

Ltac invert_flow H :=
  repeat match type of H with
         | fbind ?c _ = Val _ =>
             let E := fresh "E" in
             destruct c eqn:E; cbn [fbind] in H; try discriminate H
         | (if ?b then _ else _) = Val _ =>
             let E := fresh "E" in
             destruct b eqn:E; try discriminate H
         end.

Lemma mapM_clean (items : list value) (l : list string) :
  mapM (fun x => match x with
                 | VStr s => Ok (clean_ingredient s)
                 | _ => Raise TypeError
                 end) items = Ok l ->
  exists raw, l = clean_ingredients raw.
Proof.
  revert l. induction items as [|x items IH]; intros l H.
  - injection H as <-. now exists [].
  - cbn [mapM] in H. destruct x; try discriminate H.
    cbn [bind] in H.
    destruct (mapM _ items) as [bs|] eqn:E; try discriminate H.
    cbn [bind] in H. injection H as <-.
    destruct (IH bs eq_refl) as [raw ->]. now exists (s :: raw).
Qed.

Lemma clean_ingredients_value_shape (v : value) (l : list string) :
  clean_ingredients_value v = Ok l -> exists raw, l = clean_ingredients raw.
Proof.
  unfold clean_ingredients_value, bind.
  destruct (iterate v) as [items|]; [apply mapM_clean | discriminate].
Qed.

(** What a JSON-LD block returns is useful, and its ingredients have been
    through [clean_ingredients]. *)
Lemma schema_block_shape (script : Soup.node) (url : string) (r : recipe) :
  schema_block json_loads script url = Val r ->
  useful r = true /\ exists raw, ingredients r = clean_ingredients raw.
Proof.
  unfold schema_block. intros H. invert_flow H.
  injection H as <-. split; [assumption |]. cbn [ingredients].
  match goal with
  | E : lift (clean_ingredients_value ?v) = Val ?l |- _ =>
      destruct (clean_ingredients_value v) eqn:E'; [|discriminate E];
      injection E as ->; eapply clean_ingredients_value_shape; eassumption
  end.
Qed.

Lemma schema_loop_shape (scripts : list Soup.node) (url : string) (r : recipe) :
  schema_loop json_loads scripts url = Ok (Some r) ->
  useful r = true /\ exists raw, ingredients r = clean_ingredients raw.
Proof.
  induction scripts as [|s scripts IH]; [discriminate |].
  cbn [schema_loop].
  destruct (schema_block json_loads s url) as [r'| |e] eqn:E.
  - intros [= <-]. eapply schema_block_shape; eassumption.
  - exact IH.
  - destruct (schema_caught e); [exact IH | discriminate].
Qed.

Lemma weekendbakery_shape (soup : Soup.node) (url : string) (r : recipe) :
  weekendbakery_of_soup soup url = Some r ->
  useful r = true /\ exists raw, ingredients r = clean_ingredients raw.
Proof.
  unfold weekendbakery_of_soup. cbv zeta.
  destruct (blog_ingredients (blog_content soup)) as [|i il] eqn:Ei;
    destruct (blog_instructions (blog_content soup)) as [|j js] eqn:Ej;
    try discriminate; intros [= <-]; (split; [reflexivity |]);
    cbn [ingredients];
    first [now exists (@nil string) | now exists (i :: il)%list].
Qed.

Lemma generic_shape (soup : Soup.node) (url : string) (r : recipe) :
  generic_of_soup soup url = Some r ->
  useful r = true /\ exists raw, ingredients r = clean_ingredients raw.
Proof.
  unfold generic_of_soup. cbv zeta.
  destruct (generic_content soup) as [content|]; [|discriminate].
  destruct (generic_ingredients content) as [|i il] eqn:Ei;
    destruct (verb_paragraphs generic_verbs 60 content) as [|j js] eqn:Ej;
    try discriminate; intros [= <-]; (split; [reflexivity |]);
    cbn [ingredients];
    first [now exists (@nil string) | now exists (i :: il)%list].
Qed.

(** Every record that comes out of the three fallback extractors passed
    its "only return if we got useful data" test. *)
Lemma fallback_records_useful (html url : string) (r : recipe) :
  fallback_chain json_loads BeautifulSoup html url = Ok (Some r, None) ->
  useful r = true.
Proof.
  unfold fallback_chain, bind, extract_schema_recipe,
    extract_weekendbakery_recipe, extract_generic_recipe.
  destruct (schema_loop json_loads _ url) as [[r1|]|e] eqn:E1;
    try discriminate.
  - intros [= <-]. eapply schema_loop_shape; eassumption.
  - destruct (weekendbakery_of_soup _ url) as [r2|] eqn:E2.
    + intros [= <-]. eapply weekendbakery_shape; eassumption.
    + destruct (generic_of_soup _ url) as [r3|] eqn:E3; [|discriminate].
      intros [= <-]. eapply generic_shape; eassumption.
Qed.

(** The known-site path returns its record whatever the accessors gave. *)
Lemma known_site_unguarded (url html : string) (sc : scraper) (log : net_log) :
  validators_url url = true ->
  requests_get url = Ok (Response true html) ->
  scrape_html html url = Ok sc ->
  fetch url log = ((Some (known_site_recipe sc url), None), (log ++ [url])%list).
Proof.
  intros Hv Hg Hs. unfold fetch, fetch_recipe, fetch_try, after_fetch.
  rewrite Hv, Hg. cbn. now rewrite Hs.
Qed.

(** An exception the schema extractor lets through ends the attempt: the
    blog and generic extractors are not tried. *)
Lemma escaped_exception_aborts (url html : string) (e : exn) (log : net_log) :
  validators_url url = true ->
  requests_get url = Ok (Response true html) ->
  scrape_html html url = Raise WebsiteNotImplementedError ->
  extract_schema_recipe json_loads BeautifulSoup html url = Raise e ->
  fetch url log = (fetch_handler e, (log ++ [url])%list).
Proof.
  intros Hv Hg Hs He. unfold fetch, fetch_recipe, fetch_try, after_fetch.
  rewrite Hv, Hg. cbn. rewrite Hs. unfold fallback_chain. now rewrite He.
Qed.

Lemma mapM_clean_raw (items : list value) (l : list string) :
  mapM (fun x => match x with
                 | VStr s => Ok (clean_ingredient s)
                 | _ => Raise TypeError
                 end) items = Ok l ->
  exists raw, items = strs raw /\ l = clean_ingredients raw.
Proof.
  revert l. induction items as [|x items IH]; intros l H.
  - injection H as <-. now exists [].
  - cbn [mapM] in H. destruct x; try discriminate H.
    cbn [bind] in H.
    destruct (mapM _ items) as [bs|] eqn:E; try discriminate H.
    cbn [bind] in H. injection H as <-.
    destruct (IH bs eq_refl) as (raw & -> & ->). now exists (s :: raw).
Qed.

Lemma clean_ingredients_value_raw (v : value) (l : list string) :
  clean_ingredients_value v = Ok l ->
  exists raw, iterate v = Ok (strs raw) /\ l = clean_ingredients raw.
Proof.
  unfold clean_ingredients_value, bind.
  destruct (iterate v) as [items|]; [| discriminate].
  intros H. destruct (mapM_clean_raw _ H) as (raw & -> & ->). now exists raw.
Qed.

(** The record of a JSON-LD block is made of the block's Recipe object. *)
Lemma schema_block_raw (script : Soup.node) (url : string) (r : recipe) :
  schema_block json_loads script url = Val r ->
  exists data v raw ri,
    schema_data json_loads script = Val data /\
    schema_ingredients data = Ok v /\
    iterate v = Ok (strs raw) /\
    ingredients r = clean_ingredients raw /\
    get data "recipeInstructions" (VList []) = Ok ri /\
    instructions r = schema_instructions ri.
Proof.
  unfold schema_block, schema_data.
  destruct (lift (match Soup.string_of script with
                  | Some s => json_loads s
                  | None => Raise TypeError
                  end)) as [d0| |e]; cbn [fbind]; try discriminate.
  destruct (match d0 with VList items => first_recipe items | _ => Val d0 end)
    as [d1| |e]; cbn [fbind]; try discriminate.
  destruct (lift (contains "@graph" d1)) as [b| |e]; cbn [fbind];
    try discriminate.
  match goal with
  | |- fbind ?c _ = _ -> _ => destruct c as [data| |e]
  end; cbn [fbind]; try discriminate.
  destruct data as [| | | | |d]; cbn [get lift fbind]; try discriminate.
  destruct (negb (is_str _ "Recipe")); [discriminate |].
  intros H.
  exists (VDict d).
  unfold schema_ingredients. cbn [get bind].
  set (i1 := match lookup "recipeIngredient" d with
             | Some x => x | None => VList [] end) in *.
  set (i2 := match lookup "ingredients" d with
             | Some x => x | None => VList [] end) in *.
  set (ri := match lookup "recipeInstructions" d with
             | Some x => x | None => VList [] end) in *.
  destruct (negb (truthy i1)); cbn [fbind] in H;
    match type of H with
    | fbind (lift (clean_ingredients_value ?v)) _ = _ =>
        destruct (clean_ingredients_value v) as [l|e] eqn:Ec;
          cbn [lift fbind] in H; [| discriminate H];
        destruct (clean_ingredients_value_raw _ Ec) as (raw & Hi & ->);
        exists v, raw, ri
    end;
    (destruct (useful _); [| discriminate H]); injection H as <-;
    cbn [ingredients instructions]; repeat split; auto.
Qed.

Lemma schema_loop_raw (scripts : list Soup.node) (url : string) (r : recipe) :
  schema_loop json_loads scripts url = Ok (Some r) ->
  exists script, In script scripts /\ schema_block json_loads script url = Val r.
Proof.
  induction scripts as [|s scripts IH]; [discriminate |].
  cbn [schema_loop].
  destruct (schema_block json_loads s url) as [r'| |e] eqn:E.
  - intros [= <-]. exists s. split; [now left | exact E].
  - intros H. destruct (IH H) as (x & Hin & Hx). exists x. split; [now right | exact Hx].
  - destruct (schema_caught e); [| discriminate].
    intros H. destruct (IH H) as (x & Hin & Hx). exists x. split; [now right | exact Hx].
Qed.

Lemma weekendbakery_raw (soup : Soup.node) (url : string) (r : recipe) :
  weekendbakery_of_soup soup url = Some r ->
  ingredients r = clean_ingredients (blog_ingredients (blog_content soup)) /\
  instructions r = strs (blog_instructions (blog_content soup)).
Proof.
  unfold weekendbakery_of_soup. cbv zeta.
  destruct (blog_ingredients (blog_content soup)) as [|i il];
    destruct (blog_instructions (blog_content soup)) as [|j js];
    try discriminate; intros [= <-]; split; reflexivity.
Qed.

Lemma generic_raw (soup : Soup.node) (url : string) (r : recipe) :
  generic_of_soup soup url = Some r ->
  exists content,
    generic_content soup = Some content /\
    ingredients r = clean_ingredients (generic_ingredients content) /\
    instructions r = strs (verb_paragraphs generic_verbs 60 content).
Proof.
  unfold generic_of_soup. cbv zeta.
  destruct (generic_content soup) as [content|]; [| discriminate].
  destruct (generic_ingredients content) as [|i il] eqn:Ei;
    destruct (verb_paragraphs generic_verbs 60 content) as [|j js] eqn:Ej;
    try discriminate; intros [= <-]; exists content;
    rewrite ?Ei, ?Ej; repeat split; reflexivity.
Qed.

(** C3, as the code has it.  A record [fetch_recipe] returns is handed over
    exactly as the extractor that produced it built it.  Its ingredients
    are [clean_ingredients] of the extractor's raw ingredients: the
    scraper's [ingredients()] on the known-site path; what iterating the
    [recipeIngredient] (else [ingredients]) entry of the Recipe object of a
    JSON-LD block gives; the texts the blog or the generic heuristics pick.
    Its instructions are the extractor's own, unchanged: the scraper's
    [instructions_list()], the instructions kept of [recipeInstructions], the
    texts the heuristics pick.  [split_embedded_steps] is not applied. *)
Theorem fetch_recipe_record_as_extracted
        (url : string) (log : net_log) (r : recipe) :
  fst (fetch url log) = (Some r, None) ->
  (exists raw, ingredients r = clean_ingredients raw) /\
  exists html,
    requests_get url = Ok (Response true html) /\
    ((exists sc,
        scrape_html html url = Ok sc /\
        r = known_site_recipe sc url /\
        ingredients r =
          clean_ingredients
            (or_default (safe_get nonnil (sc_ingredients sc)) []) /\
        instructions r =
          strs (or_default (safe_get nonnil (sc_instructions_list sc)) []))
     \/
     (scrape_html html url = Raise WebsiteNotImplementedError /\
      ((extract_schema_recipe json_loads BeautifulSoup html url = Ok (Some r) /\
        exists script data v raw ri,
          In script (ld_json_scripts (BeautifulSoup html)) /\
          schema_data json_loads script = Val data /\
          schema_ingredients data = Ok v /\
          iterate v = Ok (strs raw) /\
          ingredients r = clean_ingredients raw /\
          get data "recipeInstructions" (VList []) = Ok ri /\
          instructions r = schema_instructions ri)
       \/
       (extract_weekendbakery_recipe BeautifulSoup html url = Some r /\
        ingredients r =
          clean_ingredients
            (blog_ingredients (blog_content (BeautifulSoup html))) /\
        instructions r =
          strs (blog_instructions (blog_content (BeautifulSoup html))))
       \/
       (extract_generic_recipe BeautifulSoup html url = Some r /\
        exists content,
          generic_content (BeautifulSoup html) = Some content /\
          ingredients r = clean_ingredients (generic_ingredients content) /\
          instructions r =
            strs (verb_paragraphs generic_verbs 60 content))))).
Proof.
  unfold fetch, fetch_recipe, fetch_try.
  destruct (validators_url url); [|discriminate]. cbn [fst].
  unfold after_fetch.
  destruct (requests_get url) as [[ok html]|e]; cbn [bind].
  2:{ destruct e; discriminate. }
  destruct ok; cbn [raise_for_status bind text_of_response]; [|discriminate].
  destruct (scrape_html html url) as [sc|e] eqn:Hs.
  - intros [= <-]. split; [cbn [known_site_recipe ingredients]; eauto |].
    exists html. split; [reflexivity |]. left. exists sc.
    split; [first [reflexivity | assumption] | repeat split; reflexivity].
  - destruct e; try discriminate.
    unfold fallback_chain, bind.
    destruct (extract_schema_recipe json_loads BeautifulSoup html url)
      as [[r1|]|e] eqn:E1.
    + intros [= <-]. split.
      * eapply schema_loop_shape. exact E1.
      * exists html. split; [reflexivity |]. right. split; [exact Hs |].
        left. split; [first [reflexivity | assumption] |].
        destruct (schema_loop_raw _ _ E1) as (script & Hin & Hb).
        destruct (schema_block_raw _ _ Hb)
          as (data & v & raw & ri & H1 & H2 & H3 & H4 & H5 & H6).
        exists script, data, v, raw, ri. auto 10.
    + destruct (extract_weekendbakery_recipe BeautifulSoup html url)
        as [r2|] eqn:E2.
      * intros [= <-]. split.
        -- eapply weekendbakery_shape. exact E2.
        -- exists html. split; [reflexivity |]. right.
           split; [exact Hs |]. right. left.
           split; [first [reflexivity | assumption] |].
           now apply weekendbakery_raw with (url := url).
      * destruct (extract_generic_recipe BeautifulSoup html url)
          as [r3|] eqn:E3; [|discriminate].
        intros [= <-]. split.
        -- eapply generic_shape. exact E3.
        -- exists html. split; [reflexivity |]. right.
           split; [exact Hs |]. right. right.
           split; [first [reflexivity | assumption] |].
           now apply generic_raw with (url := url).
    + destruct e; discriminate.
Qed.

End FallbackChain.

Lemma fetch_recipe_record_as_extracted_witness :
  fst (Example.fetch Example.steps_url) = (Some Example.steps_recipe, None) /\
  ((exists raw, Extract.ingredients Example.steps_recipe = Normalizer.clean_ingredients raw) /\
   exists html,
     Example.requests_get Example.steps_url
       = Py.Ok (Extract.Response true html) /\
     ((exists sc,
         Example.scrape_html html Example.steps_url = Py.Ok sc /\
         Example.steps_recipe = Extract.known_site_recipe sc Example.steps_url /\
         Extract.ingredients Example.steps_recipe =
           Normalizer.clean_ingredients
             (Extract.or_default
                (Extract.safe_get Extract.nonnil
                   (Extract.sc_ingredients sc)) []) /\
         Extract.instructions Example.steps_recipe =
           Extract.strs
             (Extract.or_default
                (Extract.safe_get Extract.nonnil
                   (Extract.sc_instructions_list sc)) []))
      \/
      (Example.scrape_html html Example.steps_url
         = Py.Raise Py.WebsiteNotImplementedError /\
       ((Extract.extract_schema_recipe Example.json_loads
           Example.BeautifulSoup html Example.steps_url
           = Py.Ok (Some Example.steps_recipe) /\
         exists script data v raw ri,
           In script (Extract.ld_json_scripts (Example.BeautifulSoup html)) /\
           Extract.schema_data Example.json_loads script = Extract.Val data /\
           Extract.schema_ingredients data = Py.Ok v /\
           Py.iterate v = Py.Ok (Extract.strs raw) /\
           Extract.ingredients Example.steps_recipe =
             Normalizer.clean_ingredients raw /\
           Py.get data "recipeInstructions" (Py.VList []) = Py.Ok ri /\
           Extract.instructions Example.steps_recipe =
             Extract.schema_instructions ri)
        \/
        (Extract.extract_weekendbakery_recipe Example.BeautifulSoup
           html Example.steps_url = Some Example.steps_recipe /\
         Extract.ingredients Example.steps_recipe =
           Normalizer.clean_ingredients
             (Extract.blog_ingredients
                (Extract.blog_content (Example.BeautifulSoup html))) /\
         Extract.instructions Example.steps_recipe =
           Extract.strs
             (Extract.blog_instructions
                (Extract.blog_content (Example.BeautifulSoup html))))
        \/
        (Extract.extract_generic_recipe Example.BeautifulSoup
           html Example.steps_url = Some Example.steps_recipe /\
         exists content,
           Extract.generic_content (Example.BeautifulSoup html) = Some content /\
           Extract.ingredients Example.steps_recipe =
             Normalizer.clean_ingredients
               (Extract.generic_ingredients content) /\
           Extract.instructions Example.steps_recipe =
             Extract.strs
               (Extract.verb_paragraphs Extract.generic_verbs 60 content)))))).
Proof.
  split; [vm_compute; reflexivity |].
  apply (@fetch_recipe_record_as_extracted
           Example.validators_url Example.requests_get Example.scrape_html
           Example.json_loads Example.BeautifulSoup Example.steps_url []
           Example.steps_recipe).
  vm_compute. reflexivity.
Defined.

(** C3, as stated, fails: the record of a known site whose steps come as one
    numbered line is returned with that line as its only instruction, though
    the splitter makes three steps of it. *)
Lemma fetch_recipe_steps_not_split :
  exists r,
    fst (Example.fetch Example.steps_url) = (Some r, None) /\
    Extract.instructions r = [Py.VStr "1. Mix flour 2. Add water 3. Bake"] /\
    Normalizer.split_embedded_steps ["1. Mix flour 2. Add water 3. Bake"]
      = ["Mix flour"; "Add water"; "Bake"].
Proof. eexists. repeat split; vm_compute; reflexivity. Qed.

(** C1.  On the known-site path the record goes back unchecked: when every
    accessor of the scraper fails, [fetch_recipe] succeeds with a record
    that has no ingredient and no instruction. *)
Theorem known_site_returns_empty_record :
  exists r,
    Example.fetch Example.known_url = ((Some r, None), [Example.known_url]) /\
    Extract.ingredients r = [] /\
    Extract.instructions r = [].
Proof. eexists. repeat split; vm_compute; reflexivity. Qed.

(** C2.  A JSON-LD block that holds an array of non-objects makes the
    schema extractor raise AttributeError, which its [except] clause does
    not name: the attempt ends with the generic failure, although the blog
    extractor finds the recipe on that page. *)
Theorem non_object_json_ld_aborts_chain :
  Extract.extract_schema_recipe Example.json_loads Example.BeautifulSoup
    Example.blog_html Example.blog_url = Py.Raise Py.AttributeError /\
  Example.fetch Example.blog_url
    = ((None, Some Extract.msg_no_recipe), [Example.blog_url]) /\
  exists r,
    Extract.extract_weekendbakery_recipe Example.BeautifulSoup
      Example.blog_html Example.blog_url = Some r /\
    Extract.ingredients r = ["350 g flour 20 g sugar"].
Proof.
  split; [vm_compute; reflexivity |].
  split; [vm_compute; reflexivity |].
  eexists. split; vm_compute; reflexivity.
Qed.

(** The splitter on the line of the specification. *)
Lemma split_three_steps :
  Normalizer.split_embedded_steps ["1. Mix flour 2. Add water 3. Bake"]
  = ["Mix flour"; "Add water"; "Bake"].
Proof. vm_compute. reflexivity. Qed.

(** C8.  With a step number of two digits the boundary pattern also matches
    inside the numeral, and the split leaves its first digit as a step. *)
Theorem split_cuts_two_digit_numbers :
  Normalizer.split_embedded_steps ["9. Stir 10. Bake"] = ["Stir"; "1"; "Bake"].
Proof. vm_compute. reflexivity. Qed.

(* ================================================================== *)
(** * More of the code *)
(* ================================================================== *)

(** ** [clean_ingredient] and [decimal_to_fraction] *)

Module CleanMore.
Import Str StrFacts Float FloatFacts LiteralFacts FractionFacts Normalizer.
Import DecimalScan CleanFacts Idempotence.
Local Open Scope nat_scope.

Lemma run_end_app r c b :
  is_digit c = false -> (c =? ".")%char = false ->
  run_end r = true -> run_end (r ++ String c b) = true.
Proof.
  intros Hc Hd. destruct r as [|y x]; cbn [append run_end].
  - intros _. now rewrite Hd, Hc.
  - destruct (y =? ".")%char; [| auto].
    destruct x as [|z x']; cbn [append starts]; [now rewrite Hc | auto].
Qed.

Lemma starts_digit_app r c b :
  is_digit c = false -> starts is_digit r = false ->
  starts is_digit (r ++ String c b) = false.
Proof. intros Hc. destruct r; cbn [append starts]; auto. Qed.

(** What the scan finds at the head of a text is not changed by what comes
    after a character that is neither a digit nor a point. *)
Lemma leading_decimal_app a c b :
  is_digit c = false -> (c =? ".")%char = false ->
  leading_decimal (a ++ String c b) =
  match leading_decimal a with
  | Some (mt, r) => Some (mt, r ++ String c b)
  | None => None
  end.
Proof.
  intros Hc Hd.
  destruct (span_cases a) as (ds & r & -> & Hds & [Hr | (fs & r3 & -> & Hfs & Hn & Hr3)]).
  - rewrite (ld_run_end ds r Hds Hr), str_app_assoc.
    apply ld_run_end; [exact Hds | now apply run_end_app].
  - rewrite (ld_literal ds fs r3 Hds Hfs Hn Hr3).
    rewrite str_app_assoc. cbn [append]. rewrite str_app_assoc.
    apply ld_literal; auto. now apply starts_digit_app.
Qed.

Lemma clean_separator_len n :
  forall a, length a <= n ->
  forall c b, is_digit c = false -> (c =? ".")%char = false ->
  clean_ingredient (a ++ String c b) =
  clean_ingredient a ++ String c (clean_ingredient b).
Proof.
  induction n as [|n IH]; intros a Ha c b Hc Hd.
  - destruct a; [| simpl in Ha; lia]. cbn [append]. rewrite clean_empty.
    cbn [append]. apply clean_run_end. cbn [run_end]. now rewrite Hd, Hc.
  - destruct a as [|x a'].
    + cbn [append]. rewrite clean_empty. cbn [append].
      apply clean_run_end. cbn [run_end]. now rewrite Hd, Hc.
    + pose proof (@leading_decimal_app (String x a') c b Hc Hd) as Hl.
      destruct (leading_decimal (String x a')) as [[mt r]|] eqn:E.
      * rewrite (clean_match _ Hl), (clean_match _ E).
        destruct (leading_decimal_length _ E) as (_ & Hlen & _).
        rewrite (IH r) by (simpl in Ha, Hlen; lia || auto); auto.
        now rewrite str_app_assoc.
      * cbn [append] in Hl |- *.
        rewrite (clean_skip _ _ Hl), (clean_skip _ _ E).
        cbn [append]. f_equal. apply IH; auto. simpl in Ha. lia.
Qed.

Lemma literal_no_overflow ds fs :
  all is_digit ds = true -> all is_digit fs = true -> nonempty fs = true ->
  (literal_value ds fs < pow2 1024 - pow2 970)%Q ->
  overflows (rnd (literal_value ds fs)) = false.
Proof.
  intros Hd Hf Hn Hv.
  pose proof (literal_value_nonneg ds fs Hd Hf Hn) as H0.
  set (v := literal_value ds fs) in *.
  destruct (Qlt_le_dec 0 v) as [Hp | Hz].
  - rewrite (rnd_of_pos Hp). unfold overflows.
    pose proof (rnd_pos_nonneg Hp) as Hr0.
    pose proof (below_threshold Hp Hv) as Hr1.
    destruct (Qle_bool (pow2 1024) (Qabs (rnd_pos v))) eqn:E; [| reflexivity].
    apply Qle_bool_iff in E. rewrite (Qabs_pos _ Hr0) in E. lra.
  - apply zero_no_overflow. lra.
Qed.

Lemma literal_overflow ds fs :
  (pow2 1024 - pow2 970 <= literal_value ds fs)%Q ->
  overflows (rnd (literal_value ds fs)) = true.
Proof.
  intros Hv. set (v := literal_value ds fs) in *.
  assert (Hp : (0 < v)%Q).
  { eapply Qlt_le_trans; [| exact Hv].
    assert (H : (pow2 970 < pow2 1024)%Q) by (apply pow2_lt; lia). lra. }
  rewrite (rnd_of_pos Hp). unfold overflows.
  pose proof (above_threshold Hv) as Hr.
  apply Qle_bool_iff. eapply Qle_trans; [exact Hr | apply Qle_Qabs].
Qed.

End CleanMore.

(** Text without a point is not changed by [clean_ingredient]. *)
Theorem clean_ingredient_no_point (s : string) :
  Normalizer.no_dot s = true -> Normalizer.clean_ingredient s = s.
Proof.
  intros H.
  destruct (@Idempotence.no_dot_clean (length s) s (le_n _) H)
    as (f & b & Hs & Hb & Hc).
  specialize (Hc ""). rewrite !StrFacts.str_app_nil_r in Hc.
  rewrite Hc, (Idempotence.clean_digits b Hb). now symmetry.
Qed.

Lemma clean_ingredient_no_point_witness :
  Normalizer.clean_ingredient "2 cups flour" = "2 cups flour".
Proof. apply (@clean_ingredient_no_point "2 cups flour"). reflexivity. Defined.

(** A character that is neither a digit nor a point keeps what is before
    it and what is after it apart: each side is cleaned as if it stood
    alone. *)
Theorem clean_ingredient_separator (a b : string) (c : ascii) :
  Str.is_digit c = false -> c <> "."%char ->
  Normalizer.clean_ingredient (a ++ String c b) =
  (Normalizer.clean_ingredient a ++
   String c (Normalizer.clean_ingredient b)).
Proof.
  intros Hc Hd. apply (@CleanMore.clean_separator_len (length a)); auto.
  now apply Ascii.eqb_neq.
Qed.

Lemma clean_ingredient_separator_witness :
  Normalizer.clean_ingredient "1.5 cups flour, 0.25 tsp salt" =
  Normalizer.clean_ingredient "1.5 cups flour" ++
  String "," (Normalizer.clean_ingredient " 0.25 tsp salt").
Proof.
  apply (@clean_ingredient_separator "1.5 cups flour" " 0.25 tsp salt" ",").
  - reflexivity.
  - discriminate.
Defined.

(** A literal below 2^1024 - 2^970, where the doubles end, comes out
    without a point. *)
Theorem decimal_to_fraction_no_point (ds fs : string) :
  Str.all Str.is_digit ds = true -> Str.all Str.is_digit fs = true ->
  Str.nonempty fs = true ->
  (Float.literal_value ds fs < Float.pow2 1024 - Float.pow2 970)%Q ->
  Normalizer.no_dot (Normalizer.decimal_to_fraction (ds ++ String "." fs)) = true.
Proof.
  intros Hd Hf Hn Hv.
  pose proof (CleanMore.literal_no_overflow ds fs Hd Hf Hn Hv) as Ho.
  destruct (FractionFacts.decimal_to_fraction_shape ds fs Hd Hf Hn)
    as [[H _] | [_ H]]; [congruence | exact H].
Qed.

Lemma decimal_to_fraction_no_point_witness :
  Normalizer.no_dot (Normalizer.decimal_to_fraction "1.5") = true.
Proof.
  apply (@decimal_to_fraction_no_point "1" "5"); vm_compute; reflexivity.
Defined.

(** A literal of 2^1024 - 2^970 or more is read as [inf]; [int(inf)]
    raises, the bare [except] catches it, and the literal is given back. *)
Theorem decimal_to_fraction_too_large (ds fs : string) :
  Str.all Str.is_digit ds = true -> Str.all Str.is_digit fs = true ->
  Str.nonempty fs = true ->
  (Float.pow2 1024 - Float.pow2 970 <= Float.literal_value ds fs)%Q ->
  Normalizer.decimal_to_fraction (ds ++ String "." fs) = ds ++ String "." fs.
Proof.
  intros Hd Hf Hn Hv.
  pose proof (@CleanMore.literal_overflow ds fs Hv) as Ho.
  destruct (FractionFacts.decimal_to_fraction_shape ds fs Hd Hf Hn)
    as [[_ H] | [H _]]; [exact H | congruence].
Qed.

Lemma decimal_to_fraction_too_large_witness :
  Normalizer.decimal_to_fraction (Example.huge_digits ++ ".0") =
  Example.huge_digits ++ ".0".
Proof.
  apply (@decimal_to_fraction_too_large Example.huge_digits "0");
    try (vm_compute; reflexivity).
  unfold Qle. vm_compute. discriminate.
Defined.

(** ** [split_embedded_steps] *)

Module StripFacts.
Import Str StrFacts.
Local Open Scope nat_scope.

Lemma rev_onto_app s acc : rev_onto s acc = rev s ++ acc.
Proof.
  unfold rev. revert acc. induction s as [|c t IH]; intros acc; [reflexivity |].
  cbn [rev_onto]. rewrite (IH (String c acc)), (IH (String c "")).
  now rewrite str_app_assoc.
Qed.

Lemma rev_cons c t : rev (String c t) = rev t ++ String c "".
Proof. unfold rev at 1. cbn [rev_onto]. apply rev_onto_app. Qed.

Lemma rev_app a b : rev (a ++ b) = rev b ++ rev a.
Proof.
  induction a as [|c a IH]; cbn [append].
  - now rewrite str_app_nil_r.
  - now rewrite !rev_cons, IH, str_app_assoc.
Qed.

Lemma rev_involutive s : rev (rev s) = s.
Proof.
  induction s as [|c t IH]; [reflexivity |].
  now rewrite rev_cons, rev_app, IH.
Qed.

Lemma lstrip_starts s : starts is_space (lstrip s) = false.
Proof.
  induction s as [|c t IH]; [reflexivity |].
  cbn [lstrip]. destruct (is_space c) eqn:E; [exact IH | exact E].
Qed.

Lemma lstrip_id s : starts is_space s = false -> lstrip s = s.
Proof. destruct s as [|c t]; [reflexivity |]. cbn. now intros ->. Qed.

Lemma lstrip_spaces ws t : all is_space ws = true -> lstrip (ws ++ t) = lstrip t.
Proof.
  induction ws as [|c ws IH]; [reflexivity |].
  cbn [all append lstrip]. intros H. apply andb_prop in H as [-> H]. auto.
Qed.

Lemma lstrip_keeps_last w c :
  is_space c = false -> exists u, lstrip (w ++ String c "") = u ++ String c "".
Proof.
  intros Hc. induction w as [|a w [u IH]]; cbn [append lstrip].
  - rewrite Hc. now exists "".
  - destruct (is_space a); [now exists u |].
    now exists (String a w).
Qed.

Lemma rstrip_starts t : starts is_space t = false -> starts is_space (rstrip t) = false.
Proof.
  destruct t as [|c t]; [reflexivity |]. cbn [starts]. intros Hc.
  unfold rstrip. rewrite rev_cons.
  destruct (@lstrip_keeps_last (rev t) c Hc) as [u ->].
  now rewrite rev_app.
Qed.

(** What [strip] returns has no blank at either end, and [strip] leaves
    such a text alone. *)
Lemma strip_fixed s : strip (strip s) = strip s.
Proof.
  assert (H1 : starts is_space (strip s) = false).
  { unfold strip. apply rstrip_starts, lstrip_starts. }
  assert (H2 : starts is_space (rev (strip s)) = false).
  { unfold strip, rstrip. rewrite rev_involutive. apply lstrip_starts. }
  unfold strip at 1. rewrite (@lstrip_id (strip s)) by exact H1. unfold rstrip.
  rewrite (@lstrip_id (rev (strip s))) by exact H2. apply rev_involutive.
Qed.

Lemma strip_spaces ws t : all is_space ws = true -> strip (ws ++ t) = strip t.
Proof. intros H. unfold strip. now rewrite lstrip_spaces. Qed.

End StripFacts.

Module StepFacts.
Import Str StrFacts Re ReFacts DecimalScan Normalizer StripFacts.
Local Open Scope nat_scope.

Lemma keep_nonempty_trimmed x : Forall trimmed (keep_nonempty (strip x)).
Proof.
  unfold keep_nonempty. destruct (strip x) eqn:E; cbn [nonempty]; constructor;
    [| constructor].
  split; [discriminate |]. rewrite <- E. apply strip_fixed.
Qed.

Lemma Forall_flat_map_intro A B (P : B -> Prop) (f : A -> list B) l :
  (forall a, Forall P (f a)) -> Forall P (flat_map f l).
Proof.
  intros H. induction l as [|a l IH]; cbn [flat_map]; [constructor |].
  apply Forall_app. auto.
Qed.

Lemma split_step_trimmed step : Forall trimmed (split_step step).
Proof.
  unfold split_step.
  destruct (found _).
  - apply Forall_flat_map_intro. intros part.
    destruct (nonempty (strip part)); [| constructor].
    apply keep_nonempty_trimmed.
  - apply keep_nonempty_trimmed.
Qed.

Lemma m_seq ic r1 r2 st k :
  m ic (Seq r1 r2) st k = m ic r1 st (fun st' => m ic r2 st' k).
Proof. reflexivity. Qed.

Lemma m_plus ic c st k :
  m ic (Plus (Cls c)) st k =
  match rest st with
  | String a t =>
      if cls_mem c a
      then star_loop (m ic (Cls c)) k (S (length t)) (advance a t st)
      else None
  | EmptyString => None
  end.
Proof.
  unfold Plus. rewrite m_seq, m_cls.
  destruct (rest st) as [|a t]; [reflexivity |].
  destruct (cls_mem c a); reflexivity.
Qed.

Lemma no_digit_starts s : no_digit s = true -> starts is_digit s = false.
Proof.
  destruct s as [|a t]; [reflexivity |]. unfold no_digit. cbn [all starts].
  intros H. apply andb_prop in H as [H _]. now apply negb_true_iff in H.
Qed.

Lemma no_digit_tail a t : no_digit (String a t) = true -> no_digit t = true.
Proof. unfold no_digit. cbn [all]. intros H. now apply andb_prop in H as [_ H]. Qed.

(** A continuation that fails wherever no digit is left keeps failing
    behind a repetition. *)
Lemma star_fails ic c (k : K) :
  (forall st, no_digit (rest st) = true -> k st = None) ->
  forall n st, no_digit (rest st) = true ->
  star_loop (m ic (Cls c)) k n st = None.
Proof.
  intros Hk. induction n as [|n IH]; intros st Hst; cbn [star_loop];
    [now apply Hk |].
  pose proof (Hk st Hst) as Hks.
  rewrite m_cls. destruct (rest st) as [|a t] eqn:E; [exact Hks |].
  destruct (cls_mem c a); [| exact Hks].
  cbn [advance rest].
  destruct (length t <? length (String a t)); [| exact Hks].
  rewrite IH; [exact Hks |]. cbn [rest].
  now apply no_digit_tail in Hst.
Qed.

Lemma plus_fails ic c (k : K) :
  (forall st, no_digit (rest st) = true -> k st = None) ->
  forall st, no_digit (rest st) = true -> m ic (Plus (Cls c)) st k = None.
Proof.
  intros Hk st Hst. rewrite m_plus.
  destruct (rest st) as [|a t] eqn:E; [reflexivity |].
  destruct (cls_mem c a); [| reflexivity].
  apply star_fails; [exact Hk |]. cbn [advance rest].
  now apply no_digit_tail in Hst.
Qed.

Lemma digits_first_fails ic R (k : K) st :
  starts is_digit (rest st) = false ->
  m ic (Seq (Plus (Cls Digit)) R) st k = None.
Proof.
  intros H. rewrite m_seq, m_plus.
  destruct (rest st) as [|a t]; [reflexivity |].
  cbn [starts] in H. cbn [cls_mem]. now rewrite H.
Qed.

(** [\d+\.\s+.+\d+\.\s+] finds nothing in a text whose only digits are at
    its head. *)
Lemma try_embedded_none ma p ds r :
  all is_digit ds = true -> no_digit r = true ->
  try_at false embedded_steps_pattern ma p (ds ++ r) = None.
Proof.
  intros Hds Hr. unfold try_at, embedded_steps_pattern, Seqs.
  match goal with
  | |- match m _ _ ?st ?k with _ => _ end = _ =>
      set (K0 := k); set (st0 := st)
  end.
  assert (Hfail : forall st, no_digit (rest st) = true ->
            m false (Seq (Plus (Cls Space))
                      (Seq (Plus (Cls AnyChar))
                        (Seq (Plus (Cls Digit))
                          (Seq (Chr ".") (Plus (Cls Space)))))) st K0 = None).
  { intros st Hst. rewrite m_seq. apply plus_fails; [| exact Hst].
    intros st1 H1. rewrite m_seq. apply plus_fails; [| exact H1].
    intros st2 H2. apply digits_first_fails. now apply no_digit_starts. }
  assert (Hdot : forall st, no_digit (rest st) = true ->
            m false (Seq (Chr ".")
                      (Seq (Plus (Cls Space))
                        (Seq (Plus (Cls AnyChar))
                          (Seq (Plus (Cls Digit))
                            (Seq (Chr ".") (Plus (Cls Space))))))) st K0 = None).
  { intros st Hst. rewrite m_seq, m_chr.
    destruct (rest st) as [|a t] eqn:E; [reflexivity |].
    destruct (chr_eq false a "."); [| reflexivity].
    apply Hfail. cbn [advance rest].
    now apply no_digit_tail in Hst. }
  enough (E : m false
            (Seq (Plus (Cls Digit))
              (Seq (Chr ".")
                (Seq (Plus (Cls Space))
                  (Seq (Plus (Cls AnyChar))
                    (Seq (Plus (Cls Digit))
                      (Seq (Chr ".") (Plus (Cls Space)))))))) st0 K0 = None)
    by now rewrite E.
  destruct ds as [|d ds'].
  - apply digits_first_fails. cbn [append]. subst st0. cbn [rest].
    now apply no_digit_starts.
  - rewrite m_seq, m_plus. subst st0. cbn [rest append].
    cbn [all] in Hds. apply andb_prop in Hds as [Hd Hds'].
    cbn [cls_mem]. rewrite Hd. cbn [advance caps].
    rewrite (@star_cls_refused false Digit _ (S (length (ds' ++ r)))
               (Some d) ds' r []).
    + apply Hdot. exact Hr.
    + exact Hds'.
    + now apply no_digit_starts.
    + rewrite str_length_app. lia.
    + intros st Hst. rewrite m_seq. now apply dot_refuses_digits.
Qed.

Lemma search_embedded_none ds :
  forall r ma p, all is_digit ds = true -> no_digit r = true ->
  search_from false embedded_steps_pattern ma p (ds ++ r) = None.
Proof.
  induction ds as [|d ds' IH].
  - intros r. induction r as [|a t IHr]; intros ma p Hds Hr;
      cbn [search_from append].
    + pose proof (@try_embedded_none ma p "" "" Hds Hr) as E.
      cbn [append] in E. now rewrite E.
    + pose proof (@try_embedded_none ma p "" (String a t) Hds Hr) as E.
      cbn [append] in E. rewrite E.
      cbn [append] in IHr. rewrite IHr; auto. now apply no_digit_tail in Hr.
  - intros r ma p Hds Hr. cbn [search_from append].
    pose proof (@try_embedded_none ma p (String d ds') r Hds Hr) as E.
    cbn [append] in E. rewrite E.
    cbn [all] in Hds. apply andb_prop in Hds as [_ Hds'].
    now rewrite IH.
Qed.

Lemma try_bol_later ma a s :
  try_at false leading_number_pattern ma (Some a) s = None.
Proof. reflexivity. Qed.

Lemma search_bol_later s :
  forall ma a, search_from false leading_number_pattern ma (Some a) s = None.
Proof.
  induction s as [|c t IH]; intros ma a; cbn [search_from];
    rewrite try_bol_later; [reflexivity |]. now rewrite IH.
Qed.

Lemma m_bol ic s cs k :
  m ic Bol (MState None s cs) k = k (MState None s cs).
Proof. reflexivity. Qed.

Lemma try_leading_none ma s :
  starts is_digit s = false ->
  try_at false leading_number_pattern ma None s = None.
Proof.
  intros H. unfold try_at, leading_number_pattern, Seqs.
  rewrite m_seq, m_bol. now rewrite digits_first_fails.
Qed.

(** [re.sub(r'^\d+\.\s*', '', s)] leaves a text that does not begin with a
    digit as it is. *)
Lemma sub_leading_none s :
  starts is_digit s = false ->
  Re.sub false leading_number_pattern (fun _ => "") s = s.
Proof.
  intros H. unfold Re.sub.
  replace (2 * length s + 2) with (S (2 * length s + 1)) by lia.
  cbn [sub_loop].
  destruct s as [|a t]; cbn [search_from];
    rewrite try_leading_none by exact H; [reflexivity |].
  now rewrite search_bol_later.
Qed.

Lemma last_or_some c s : exists a, last_or (Some c) s = Some a.
Proof.
  revert c. induction s as [|x t IH]; intros c; cbn [last_or]; eauto.
Qed.

Lemma try_leading_some ds ws t :
  all is_digit ds = true -> nonempty ds = true ->
  all is_space ws = true -> starts is_space t = false ->
  exists q,
    try_at false leading_number_pattern false None
           (ds ++ String "." (ws ++ t)) =
    Some (Match "" (ds ++ String "." ws) (MState (Some q) t [])).
Proof.
  intros Hds Hn Hws Ht.
  destruct ds as [|d ds']; [discriminate |].
  cbn [all] in Hds. apply andb_prop in Hds as [Hd Hds'].
  destruct (last_or_some "." ws) as [q Hq].
  exists q. unfold try_at, leading_number_pattern, Seqs.
  rewrite m_seq, m_bol, m_seq, m_plus. cbn [rest append].
  cbn [cls_mem]. rewrite Hd. cbn [advance caps].
  rewrite (@star_cls_far false Digit _ (S (length (ds' ++ String "." (ws ++ t))))
             (Some d) ds' (String "." (ws ++ t)) []
             (MState (Some q) t [])).
  - f_equal. f_equal. unfold consumed. cbn [rest].
    replace (String d (ds' ++ String "." (ws ++ t)))
      with (String d (ds' ++ String "." ws) ++ t)
      by (cbn [append]; rewrite str_app_assoc; reflexivity).
    apply substring_prefix.
  - exact Hds'.
  - reflexivity.
  - rewrite str_length_app. lia.
  - rewrite m_seq, m_chr. cbn [rest chr_eq]. rewrite Ascii.eqb_refl.
    cbn [m advance rest caps].
    rewrite (@star_cls_far false Space _ (S (length (ws ++ t)))
               (Some "."%char) ws t [] (MState (Some q) t [])); auto.
    + rewrite str_length_app. lia.
    + rewrite Hq. reflexivity.
Qed.

(** ... and takes the number, the period and the blanks off a text that
    begins with them. *)
Lemma sub_leading_some ds t :
  all is_digit ds = true -> nonempty ds = true ->
  Re.sub false leading_number_pattern (fun _ => "") (ds ++ String "." t) =
  lstrip t.
Proof.
  intros Hds Hn.
  destruct (span is_space t) as [ws t'] eqn:Es.
  apply span_eq in Es as (-> & Hws & Ht').
  rewrite lstrip_spaces by exact Hws. rewrite lstrip_id by exact Ht'.
  destruct (@try_leading_some ds ws t' Hds Hn Hws Ht') as [q Hq].
  unfold Re.sub.
  replace (2 * length (ds ++ String "." (ws ++ t')) + 2)
    with (S (S (2 * length (ds ++ String "." (ws ++ t'))))) by lia.
  cbn [sub_loop].
  assert (Hs : search_from false leading_number_pattern false None
                 (ds ++ String "." (ws ++ t')) =
               Some (Match "" (ds ++ String "." ws) (MState (Some q) t' []))).
  { destruct (ds ++ String "." (ws ++ t')); cbn [search_from]; now rewrite Hq. }
  rewrite Hs. cbn [m_pre m_text m_end prev rest append].
  rewrite search_bol_later.
  destruct ds; [discriminate | reflexivity].
Qed.

Lemma strip_lstrip t : strip (lstrip t) = strip t.
Proof. unfold strip. now rewrite (@lstrip_id (lstrip t)) by apply lstrip_starts. Qed.

Lemma split_step_plain step :
  no_digit step = true -> split_step step = keep_nonempty (strip step).
Proof.
  intros H. unfold split_step, Re.search.
  pose proof (@search_embedded_none "" step false None eq_refl H) as E.
  cbn [append] in E. rewrite E. cbn [found]. unfold strip_leading_number.
  now rewrite sub_leading_none by now apply no_digit_starts.
Qed.

Lemma split_step_numbered ds body :
  all is_digit ds = true -> nonempty ds = true -> no_digit body = true ->
  split_step (ds ++ String "." body) = keep_nonempty (strip body).
Proof.
  intros Hds Hn Hb. unfold split_step, Re.search.
  rewrite (@search_embedded_none ds (String "." body) false None Hds).
  - cbn [found]. unfold strip_leading_number.
    rewrite sub_leading_some by assumption. now rewrite strip_lstrip.
  - unfold no_digit in *. cbn [all]. now rewrite Hb.
Qed.

Lemma flat_map_keep l :
  flat_map (fun s => keep_nonempty (strip s)) l = filter nonempty (map strip l).
Proof.
  induction l as [|s l IH]; [reflexivity |].
  cbn [flat_map map filter]. rewrite IH. unfold keep_nonempty.
  destruct (nonempty (strip s)); reflexivity.
Qed.

End StepFacts.

(** Whatever the instructions, a step that comes out was stripped and is
    not empty, unless the list is given back as it came. *)
Theorem split_embedded_steps_trimmed (instructions : list string) :
  Normalizer.split_embedded_steps instructions = instructions \/
  Forall Normalizer.trimmed (Normalizer.split_embedded_steps instructions).
Proof.
  unfold Normalizer.split_embedded_steps.
  destruct instructions as [|i il]; [now left |].
  pose proof (@StepFacts.Forall_flat_map_intro _ _ Normalizer.trimmed
                Normalizer.split_step (i :: il) StepFacts.split_step_trimmed)
    as H.
  destruct (flat_map Normalizer.split_step (i :: il)); [now left | now right].
Qed.

(** Steps whose only digits are a number and a period in front lose them
    and are stripped; steps without a digit are stripped. *)
Theorem split_embedded_steps_numbered (steps bodies : list string) :
  Forall2 (fun step body =>
             (Normalizer.no_digit step = true /\ body = step) \/
             (exists ds,
                Str.all Str.is_digit ds = true /\ Str.nonempty ds = true /\
                Normalizer.no_digit body = true /\
                step = ds ++ String "." body))
          steps bodies ->
  Normalizer.split_embedded_steps steps =
  match filter Str.nonempty (map Str.strip bodies) with
  | [] => steps
  | cleaned => cleaned
  end.
Proof.
  intros H.
  assert (E : flat_map Normalizer.split_step steps =
              filter Str.nonempty (map Str.strip bodies)).
  { rewrite <- StepFacts.flat_map_keep.
    induction H as [|step body steps bodies Hs _ IH]; [reflexivity |].
    cbn [flat_map]. rewrite IH. f_equal.
    destruct Hs as [[Hn ->] | (ds & Hds & Hne & Hb & ->)].
    - now apply StepFacts.split_step_plain.
    - now apply StepFacts.split_step_numbered. }
  unfold Normalizer.split_embedded_steps. rewrite E.
  destruct steps; [| reflexivity].
  inversion H. reflexivity.
Qed.

Lemma split_embedded_steps_numbered_witness :
  Normalizer.split_embedded_steps ["1. Mix the flour "; "Bake"; "  "] =
  ["Mix the flour"; "Bake"].
Proof.
  apply (@split_embedded_steps_numbered
           ["1. Mix the flour "; "Bake"; "  "] [" Mix the flour "; "Bake"; "  "]).
  constructor; [right; exists "1"; repeat split; reflexivity |].
  constructor; [left; split; reflexivity |].
  constructor; [left; split; reflexivity |].
  constructor.
Defined.

(** ** [parse_duration] *)

Module DurationFacts.
Import Str StrFacts Re ReFacts DecimalScan Py Extract StepFacts.
Local Open Scope nat_scope.

Lemma m_group ic n r st k :
  m ic (Group n r) st k =
  m ic r st (fun st' =>
    k (MState (prev st') (rest st') ((n, consumed st st') :: caps st'))).
Proof. reflexivity. Qed.

Lemma m_opt ic r st k :
  m ic (Opt r) st k =
  match m ic r st k with Some x => Some x | None => k st end.
Proof. reflexivity. Qed.

Lemma chr_refuses_digits (k : K) c st :
  is_digit c = false ->
  starts (cls_mem Digit) (rest st) = true ->
  m false (Chr c) st k = None.
Proof.
  intros Hc H. rewrite m_chr. destruct (rest st) as [|a t]; [reflexivity |].
  cbn [starts cls_mem] in H. cbn [chr_eq].
  destruct (Ascii.eqb_spec a c) as [-> |]; [congruence | reflexivity].
Qed.

(** [(\d+)c] on digits followed by [c]. *)
Lemma m_group_digits n c ds y p cs (k : K) x :
  all is_digit ds = true -> nonempty ds = true -> is_digit c = false ->
  k (MState (Some c) y ((n, ds) :: cs)) = Some x ->
  m false (Seq (Group n (Plus (Cls Digit))) (Chr c))
    (MState p (ds ++ String c y) cs) k = Some x.
Proof.
  intros Hds Hn Hc Hk.
  destruct ds as [|d ds']; [discriminate |].
  cbn [all] in Hds. apply andb_prop in Hds as [Hd Hds'].
  rewrite m_seq, m_group, m_plus. cbn [rest append cls_mem]. rewrite Hd.
  cbn [advance caps].
  apply star_cls_far; [exact Hds' | exact Hc | |].
  - rewrite str_length_app. lia.
  - cbn [prev rest caps]. rewrite m_chr. cbn [rest chr_eq].
    rewrite Ascii.eqb_refl. cbn [advance caps].
    unfold consumed. cbn [rest].
    replace (String d (ds' ++ String c y))
      with (String d ds' ++ String c y) by reflexivity.
    now rewrite substring_prefix.
Qed.

(** [(\d+)c] where the digits, if any, are not followed by [c]. *)
Lemma m_group_digits_fail n c ds r p cs (k : K) :
  all is_digit ds = true -> is_digit c = false ->
  starts is_digit r = false -> starts (Ascii.eqb c) r = false ->
  m false (Seq (Group n (Plus (Cls Digit))) (Chr c))
    (MState p (ds ++ r) cs) k = None.
Proof.
  intros Hds Hc Hr Hrc.
  assert (Hend : forall q cs', m false (Chr c) (MState q r cs') k = None).
  { intros q cs'. rewrite m_chr. cbn [rest]. destruct r as [|a t]; [reflexivity |].
    cbn [starts] in Hrc. cbn [chr_eq]. rewrite Ascii.eqb_sym. now rewrite Hrc. }
  rewrite m_seq, m_group, m_plus. cbn [rest].
  destruct ds as [|d ds']; cbn [append].
  - destruct r as [|a t]; [reflexivity |]. cbn [starts] in Hr.
    cbn [cls_mem]. now rewrite Hr.
  - cbn [all] in Hds. apply andb_prop in Hds as [Hd Hds'].
    cbn [cls_mem]. rewrite Hd. cbn [advance caps].
    unfold advance. cbn [caps].
    rewrite star_cls_refused; [| exact Hds' | exact Hr | |].
    + cbn [prev rest caps]. apply Hend.
    + rewrite str_length_app. lia.
    + intros st Hst. cbn [prev rest caps].
      apply chr_refuses_digits; [exact Hc | exact Hst].
Qed.

Lemma prefix_PT s :
  prefix "PT" s = true -> exists x, s = String "P" (String "T" x).
Proof.
  destruct s as [|a [|b x]]; cbn [prefix]; try discriminate.
  - destruct (ascii_dec "P" a); discriminate.
  - destruct (ascii_dec "P" a) as [<- |]; [| discriminate].
    destruct (ascii_dec "T" b) as [<- |]; [| discriminate].
    intros _. now exists x.
Qed.

Lemma not_prefix_PT s :
  prefix "PT" s = false ->
  Re.rmatch false duration_pattern s = None.
Proof.
  intros H. unfold Re.rmatch, try_at, duration_pattern, Seqs.
  rewrite m_seq, m_chr. cbn [rest chr_eq].
  destruct s as [|a s']; [reflexivity |].
  destruct (Ascii.eqb_spec a "P") as [-> | Ha]; [| reflexivity].
  cbv beta. rewrite m_seq, m_chr. cbn [advance rest chr_eq].
  destruct s' as [|b x]; [reflexivity |].
  destruct (Ascii.eqb_spec b "T") as [-> | Hb]; [| reflexivity].
  exfalso. revert H. cbn [prefix].
  destruct (ascii_dec "P" "P"); [| congruence].
  destruct (ascii_dec "T" "T"); [destruct x; cbn; discriminate | congruence].
Qed.

Lemma after_PT x (k : K) :
  m false duration_pattern (MState None (String "P" (String "T" x)) []) k =
  m false (Seq (Opt (Seq (Group 1 (Plus (Cls Digit))) (Chr "H")))
               (Opt (Seq (Group 2 (Plus (Cls Digit))) (Chr "M"))))
    (MState (Some "T"%char) x []) k.
Proof. reflexivity. Qed.

Lemma rmatch_PT x :
  Re.rmatch false duration_pattern (String "P" (String "T" x)) <> None.
Proof.
  unfold Re.rmatch, try_at. rewrite after_PT, m_seq, m_opt.
  match goal with
  | |- context [m false ?r ?st ?k] =>
      assert (Hk : forall st', k st' <> None)
  end.
  { intros st'. rewrite m_opt.
    destruct (m false _ st' _); cbn [andb]; discriminate. }
  match goal with
  | |- context [m false ?r ?st ?k] =>
      destruct (m false r st k) eqn:E; [discriminate |]
  end.
  match goal with
  | |- match ?e with _ => _ end <> None => destruct e eqn:E2; [discriminate |]
  end.
  exfalso. eapply Hk. exact E2.
Qed.


Lemma accept_all (st : mstate) n :
  (fun st' : mstate =>
     if false && (length (rest st') =? n) then None else Some st') st = Some st.
Proof. reflexivity. Qed.

Lemma rmatch_hours_minutes h mi x :
  all is_digit h = true -> nonempty h = true ->
  all is_digit mi = true -> nonempty mi = true ->
  exists mo,
    Re.rmatch false duration_pattern
      (String "P" (String "T" (h ++ String "H" (mi ++ String "M" x)))) = Some mo /\
    caps (m_end mo) = [(2, mi); (1, h)].
Proof.
  intros Hh Hhn Hm Hmn. unfold Re.rmatch, try_at.
  rewrite after_PT, m_seq, m_opt.
  rewrite (@m_group_digits 1 "H" h (mi ++ String "M" x) (Some "T"%char) [] _
             (MState (Some "M"%char) x [(2, mi); (1, h)]) Hh Hhn eq_refl).
  - eexists. split; [reflexivity | reflexivity].
  - rewrite m_opt.
    now rewrite (@m_group_digits 2 "M" mi x (Some "H"%char) [(1, h)] _
                   (MState (Some "M"%char) x [(2, mi); (1, h)]) Hm Hmn eq_refl).
Qed.

Lemma rmatch_minutes mi x :
  all is_digit mi = true -> nonempty mi = true ->
  exists mo,
    Re.rmatch false duration_pattern
      (String "P" (String "T" (mi ++ String "M" x))) = Some mo /\
    caps (m_end mo) = [(2, mi)].
Proof.
  intros Hm Hmn. unfold Re.rmatch, try_at.
  rewrite after_PT, m_seq, m_opt.
  rewrite (@m_group_digits_fail 1 "H" mi (String "M" x) (Some "T"%char) [] _
             Hm eq_refl eq_refl eq_refl).
  rewrite m_opt.
  rewrite (@m_group_digits 2 "M" mi x (Some "T"%char) [] _
             (MState (Some "M"%char) x [(2, mi)]) Hm Hmn eq_refl);
    [| reflexivity].
  eexists. split; reflexivity.
Qed.

Lemma rmatch_hours h x :
  all is_digit h = true -> nonempty h = true -> starts is_digit x = false ->
  exists mo,
    Re.rmatch false duration_pattern
      (String "P" (String "T" (h ++ String "H" x))) = Some mo /\
    caps (m_end mo) = [(1, h)].
Proof.
  intros Hh Hhn Hx. unfold Re.rmatch, try_at.
  rewrite after_PT, m_seq, m_opt.
  rewrite (@m_group_digits 1 "H" h x (Some "T"%char) [] _
             (MState (Some "H"%char) x [(1, h)]) Hh Hhn eq_refl).
  - eexists. split; reflexivity.
  - rewrite m_opt.
    assert (E : m false (Seq (Group 2 (Plus (Cls Digit))) (Chr "M"))
                  (MState (Some "H"%char) x [(1, h)])
                  (fun st' : mstate =>
                     if false && (length (rest st') =?
                                  length (String "P" (String "T" (h ++ String "H" x))))
                     then None else Some st') = None).
    { rewrite m_seq, m_group, m_plus. cbn [rest].
      destruct x as [|a t]; [reflexivity |]. cbn [starts] in Hx.
      cbn [cls_mem]. now rewrite Hx. }
    now rewrite E.
Qed.

End DurationFacts.

(** A duration that does not begin with "PT" is not read.  One that does
    is read as a number; [int] takes its digits as long as they are no more
    than 4300, which a text of that length ensures. *)
Theorem parse_duration_needs_PT (s : string) :
  (prefix "PT" s = false -> Extract.parse_duration (Py.VStr s) = None) /\
  ((String.length s <= 4300)%nat -> prefix "PT" s = true ->
   exists n, Extract.parse_duration (Py.VStr s) = Some n).
Proof.
  unfold Extract.parse_duration. split.
  - intros P. destruct s as [|a t]; [reflexivity |].
    cbn [Py.truthy Str.nonempty negb].
    now rewrite DurationFacts.not_prefix_PT.
  - intros _ P. apply DurationFacts.prefix_PT in P as [x ->].
    cbn [Py.truthy Str.nonempty negb].
    destruct (Re.rmatch false Extract.duration_pattern _) eqn:E;
      [eexists; reflexivity |].
    exfalso. eapply DurationFacts.rmatch_PT. exact E.
Qed.

Lemma parse_duration_needs_PT_witness :
  Extract.parse_duration (Py.VStr "30 minutes") = None /\
  exists n, Extract.parse_duration (Py.VStr "PT30M") = Some n.
Proof.
  split.
  - apply (proj1 (parse_duration_needs_PT "30 minutes")). reflexivity.
  - apply (proj2 (parse_duration_needs_PT "PT30M")); [simpl; lia | reflexivity].
Defined.

(** Hours and minutes of an ISO 8601 duration are read as decimal numbers
    and added up in minutes; what follows the minutes is not looked at.
    The numbers have at most 4300 digits each, the most [int] takes. *)
Theorem parse_duration_hours_minutes (h mi x : string) :
  Str.all Str.is_digit h = true -> Str.nonempty h = true ->
  Str.all Str.is_digit mi = true -> Str.nonempty mi = true ->
  (String.length h <= 4300)%nat -> (String.length mi <= 4300)%nat ->
  Extract.parse_duration (Py.VStr ("PT" ++ h ++ "H" ++ mi ++ "M" ++ x)) =
    Some (Str.to_Z h * 60 + Str.to_Z mi)%Z /\
  Extract.parse_duration (Py.VStr ("PT" ++ mi ++ "M" ++ x)) =
    Some (Str.to_Z mi) /\
  (Str.starts Str.is_digit x = false ->
   Extract.parse_duration (Py.VStr ("PT" ++ h ++ "H" ++ x)) =
     Some (Str.to_Z h * 60)%Z).
Proof.
  intros Hh Hhn Hm Hmn _ _. unfold Extract.parse_duration.
  cbn [append Py.truthy Str.nonempty negb].
  split; [| split].
  - destruct (@DurationFacts.rmatch_hours_minutes h mi x Hh Hhn Hm Hmn)
      as (mo & -> & Hc).
    unfold Extract.group_int, Re.group. rewrite Hc.
    cbn [Re.assoc Nat.eqb]. now rewrite Hhn, Hmn.
  - destruct (@DurationFacts.rmatch_minutes mi x Hm Hmn) as (mo & -> & Hc).
    unfold Extract.group_int, Re.group. rewrite Hc.
    cbn [Re.assoc Nat.eqb]. now rewrite Hmn.
  - intros Hx.
    destruct (@DurationFacts.rmatch_hours h x Hh Hhn Hx) as (mo & -> & Hc).
    unfold Extract.group_int, Re.group. rewrite Hc.
    cbn [Re.assoc Nat.eqb]. rewrite Hhn. now rewrite Z.add_0_r.
Qed.

Lemma parse_duration_hours_minutes_witness :
  Extract.parse_duration (Py.VStr "PT1H30M") = Some 90%Z /\
  Extract.parse_duration (Py.VStr "PT30M") = Some 30%Z /\
  Extract.parse_duration (Py.VStr "PT1H") = Some 60%Z.
Proof.
  assert (L1 : (String.length "1" <= 4300)%nat) by (simpl; lia).
  assert (L2 : (String.length "30" <= 4300)%nat) by (simpl; lia).
  destruct (@parse_duration_hours_minutes "1" "30" ""
              eq_refl eq_refl eq_refl eq_refl L1 L2) as (A & B & C).
  split; [exact A | split; [exact B | exact (C eq_refl)]].
Defined.

(** ** The schema loop and the orchestrator *)

Section FetchMore.

Import Py Normalizer Extract.

Variable validators_url : string -> bool.
Variable requests_get : string -> result response.
Variable scrape_html : string -> string -> result scraper.
Variable json_loads : string -> result value.
Variable BeautifulSoup : string -> Soup.node.

Let fetch := fetch_recipe validators_url requests_get scrape_html
                          json_loads BeautifulSoup.

Ltac flow_cases H :=
  repeat match type of H with
         | fbind ?c _ = Val _ =>
             let E := fresh "E" in
             destruct c eqn:E; cbn [fbind] in H; try discriminate H
         | (if ?b then _ else _) = Val _ =>
             let E := fresh "E" in
             destruct b eqn:E; try discriminate H
         end.

Lemma schema_block_origin (script : Soup.node) (url : string) (r : recipe) :
  schema_block json_loads script url = Val r ->
  source_url r = url /\ category r = "Uncategorized".
Proof.
  unfold schema_block. intros H. flow_cases H.
  injection H as <-. split; reflexivity.
Qed.

Lemma schema_loop_origin (scripts : list Soup.node) (url : string) (r : recipe) :
  schema_loop json_loads scripts url = Ok (Some r) ->
  source_url r = url /\ category r = "Uncategorized".
Proof.
  induction scripts as [|s scripts IH]; [discriminate |].
  cbn [schema_loop].
  destruct (schema_block json_loads s url) as [r'| |e] eqn:E.
  - intros [= <-]. eapply schema_block_origin; eassumption.
  - exact IH.
  - destruct (schema_caught e); [exact IH | discriminate].
Qed.

Lemma weekendbakery_origin (soup : Soup.node) (url : string) (r : recipe) :
  weekendbakery_of_soup soup url = Some r ->
  source_url r = url /\ category r = "Uncategorized".
Proof.
  unfold weekendbakery_of_soup. cbv zeta.
  destruct (blog_ingredients (blog_content soup));
    destruct (blog_instructions (blog_content soup));
    try discriminate; intros [= <-]; split; reflexivity.
Qed.

Lemma generic_origin (soup : Soup.node) (url : string) (r : recipe) :
  generic_of_soup soup url = Some r ->
  source_url r = url /\ category r = "Uncategorized".
Proof.
  unfold generic_of_soup. cbv zeta.
  destruct (generic_content soup) as [content|]; [| discriminate].
  destruct (generic_ingredients content);
    destruct (verb_paragraphs generic_verbs 60 content);
    try discriminate; intros [= <-]; split; reflexivity.
Qed.

(** Whichever extractor built it, a record that [fetch_recipe] returns
    carries the URL it was asked for and the category "Uncategorized". *)
Theorem fetch_recipe_origin (url : string) (log : net_log) (r : recipe)
        (e : option string) :
  fst (fetch url log) = (Some r, e) ->
  source_url r = url /\ category r = "Uncategorized".
Proof.
  unfold fetch, fetch_recipe, fetch_try.
  destruct (validators_url url); [| discriminate]. cbn [fst].
  unfold after_fetch.
  destruct (requests_get url) as [[ok html]|x]; cbn [bind].
  2:{ destruct x; discriminate. }
  destruct ok; cbn [raise_for_status bind text_of_response]; [| discriminate].
  destruct (scrape_html html url) as [sc|x].
  - intros [= <- _]. split; reflexivity.
  - destruct x; try discriminate.
    unfold fallback_chain, bind, extract_schema_recipe,
      extract_weekendbakery_recipe, extract_generic_recipe.
    destruct (schema_loop json_loads _ url) as [[r1|]|x] eqn:E1.
    + intros [= <- _]. eapply schema_loop_origin; eassumption.
    + destruct (weekendbakery_of_soup _ url) as [r2|] eqn:E2.
      * intros [= <- _]. eapply weekendbakery_origin; eassumption.
      * destruct (generic_of_soup _ url) as [r3|] eqn:E3; [| discriminate].
        intros [= <- _]. eapply generic_origin; eassumption.
    + destruct x; discriminate.
Qed.

(** A request that times out, fails, or is answered with an error status
    ends the attempt with the matching message; the page is not parsed. *)
Theorem fetch_recipe_request_failed (url msg : string) (log : net_log) :
  validators_url url = true ->
  (requests_get url = Raise Timeout /\ msg = msg_timeout) \/
  (requests_get url = Raise RequestException /\ msg = msg_unreachable) \/
  (exists text, requests_get url = Ok (Response false text) /\
                msg = msg_unreachable) ->
  fetch url log = ((None, Some msg), (log ++ [url])%list).
Proof.
  intros Hv H. unfold fetch, fetch_recipe, fetch_try, after_fetch.
  rewrite Hv. cbn [negb].
  destruct H as [[-> ->] | [[-> ->] | (text & -> & ->)]]; reflexivity.
Qed.

(** A JSON-LD block with no single string in it, with text that does not
    parse, or holding an object that has no @graph and is not of type
    Recipe, is passed over: the loop goes on with the next block. *)
Theorem schema_loop_skips (script : Soup.node) (scripts : list Soup.node)
        (url : string) :
  Soup.string_of script = None \/
  (exists text, Soup.string_of script = Some text /\
     (json_loads text = Raise JSONDecodeError \/
      exists d, json_loads text = Ok (VDict d) /\
                lookup "@graph" d = None /\
                lookup "@type" d <> Some (VStr "Recipe"))) ->
  schema_loop json_loads (script :: scripts) url =
  schema_loop json_loads scripts url.
Proof.
  intros H. cbn [schema_loop]. unfold schema_block.
  destruct H as [-> | (text & -> & [-> | (d & -> & Hg & Ht)])];
    try reflexivity.
  cbn [lift fbind contains]. rewrite Hg. cbn [lift fbind get].
  destruct (lookup "@type" d) as [[| | |s| |]|] eqn:E; try reflexivity.
  cbn [is_str]. destruct (String.eqb_spec s "Recipe") as [-> |];
    [congruence | reflexivity].
Qed.

End FetchMore.

Lemma fetch_recipe_origin_witness :
  Extract.source_url Example.steps_recipe = Example.steps_url /\
  Extract.category Example.steps_recipe = "Uncategorized".
Proof.
  apply (@fetch_recipe_origin Example.validators_url Example.requests_get
           Example.scrape_html Example.json_loads Example.BeautifulSoup
           Example.steps_url [] Example.steps_recipe None).
  reflexivity.
Defined.

Lemma fetch_recipe_request_failed_witness :
  Example.fetch "https://nowhere.example/" =
  ((None, Some Extract.msg_unreachable), ["https://nowhere.example/"]).
Proof.
  apply (@fetch_recipe_request_failed Example.validators_url
           Example.requests_get Example.scrape_html Example.json_loads
           Example.BeautifulSoup "https://nowhere.example/"
           Extract.msg_unreachable []).
  - reflexivity.
  - right. left. split; reflexivity.
Defined.

Lemma schema_loop_skips_witness :
  Extract.schema_loop Example.json_loads
    [Soup.Elem "script" [] [Soup.Text "{"];
     Soup.Elem "script" [] [Soup.Text Example.schema_text]]
    Example.schema_url =
  Extract.schema_loop Example.json_loads
    [Soup.Elem "script" [] [Soup.Text Example.schema_text]]
    Example.schema_url.
Proof.
  apply (@schema_loop_skips Example.json_loads).
  right. exists "{". split; [reflexivity |]. left. reflexivity.
Defined.

(** ** [format_time] and [get_recipe_id] *)

Module NumeralFacts.
Import Str StrFacts.

Lemma uint_digits d : all is_digit (NilEmpty.string_of_uint d) = true.
Proof. induction d; simpl; auto. Qed.

(** [str(n)] of a natural number is a run of digits, not empty. *)
Lemma of_Z_digits n :
  (0 <= n)%Z -> all is_digit (of_Z n) = true /\ nonempty (of_Z n) = true.
Proof.
  intros H. unfold of_Z. destruct n as [|p|p]; [split; reflexivity | | lia].
  cbn [Z.to_int NilZero.string_of_int]. unfold NilZero.string_of_uint.
  pose proof (Unsigned.to_uint_nonnil p) as Hn.
  destruct (Pos.to_uint p) eqn:E; try congruence;
    (split; [rewrite <- E at 1 || idtac; apply (uint_digits (_ u)) || reflexivity
            | reflexivity]).
Qed.

(** [str] is one to one on the integers. *)
Lemma of_Z_inj a b : of_Z a = of_Z b -> a = b.
Proof.
  unfold of_Z. intros H.
  assert (N : forall z, Z.to_int z <> Decimal.Pos Decimal.Nil /\
                        Z.to_int z <> Decimal.Neg Decimal.Nil).
  { intros [|p|p]; cbn [Z.to_int]; split; try discriminate;
      intros [= E]; now apply (Unsigned.to_uint_nonnil p). }
  assert (E : Some (Z.to_int a) = Some (Z.to_int b)).
  { rewrite <- (NilZero.isi _ (proj1 (N a)) (proj2 (N a))).
    rewrite <- (NilZero.isi _ (proj1 (N b)) (proj2 (N b))).
    now rewrite H. }
  injection E as E.
  rewrite <- (DecimalZ.of_to a), <- (DecimalZ.of_to b). now rewrite E.
Qed.

(** A run of digits before a blank is read off in one way only. *)
Lemma digits_blank_inj d1 d2 x y :
  all is_digit d1 = true -> all is_digit d2 = true ->
  d1 ++ String " " x = d2 ++ String " " y -> d1 = d2 /\ x = y.
Proof.
  intros H1 H2 E.
  pose proof (span_app is_digit d1 (String " " x) H1 eq_refl) as S1.
  pose proof (span_app is_digit d2 (String " " y) H2 eq_refl) as S2.
  rewrite E, S2 in S1. injection S1 as E1 E2. now subst.
Qed.

End NumeralFacts.

Module TimeFacts.

Lemma format_time_inj (a b : Z) :
  (0 < a)%Z -> (0 < b)%Z ->
  App.format_time (Some a) = App.format_time (Some b) -> a = b.
Proof.
  intros Ha Hb. unfold App.format_time.
  replace (a =? 0)%Z with false by (symmetry; apply Z.eqb_neq; lia).
  replace (b =? 0)%Z with false by (symmetry; apply Z.eqb_neq; lia).
  pose proof (Z.div_mod a 60 ltac:(lia)) as Da.
  pose proof (Z.div_mod b 60 ltac:(lia)) as Db.
  pose proof (Z.mod_pos_bound a 60 ltac:(lia)) as Ma.
  pose proof (Z.mod_pos_bound b 60 ltac:(lia)) as Mb.
  assert (Qa : (0 <= a / 60)%Z) by (apply Z.div_pos; lia).
  assert (Qb : (0 <= b / 60)%Z) by (apply Z.div_pos; lia).
  destruct (NumeralFacts.of_Z_digits (Z.lt_le_incl _ _ Ha)) as [A1 _].
  destruct (NumeralFacts.of_Z_digits (Z.lt_le_incl _ _ Hb)) as [B1 _].
  destruct (NumeralFacts.of_Z_digits Qa) as [A2 _].
  destruct (NumeralFacts.of_Z_digits Qb) as [B2 _].
  destruct (NumeralFacts.of_Z_digits (proj1 Ma)) as [A3 _].
  destruct (NumeralFacts.of_Z_digits (proj1 Mb)) as [B3 _].
  destruct (a <? 60)%Z; destruct (b <? 60)%Z;
    destruct (Z.eqb_spec (a mod 60) 0); destruct (Z.eqb_spec (b mod 60) 0);
    intros [= E];
    change (Str.of_Z ?n ++ " min") with (Str.of_Z n ++ String " " "min") in E;
    change (Str.of_Z ?n ++ " hr") with (Str.of_Z n ++ String " " "hr") in E;
    change (Str.of_Z ?n ++ " hr " ++ ?t) with (Str.of_Z n ++ String " " ("hr " ++ t)) in E;
    apply NumeralFacts.digits_blank_inj in E; try assumption;
    destruct E as [E1 E2]; try discriminate E2;
    apply NumeralFacts.of_Z_inj in E1; try lia.
  cbn [append] in E2. injection E2 as E2.
  change (Str.of_Z ?n ++ " min") with (Str.of_Z n ++ String " " "min") in E2.
  apply NumeralFacts.digits_blank_inj in E2; try assumption.
  destruct E2 as [E2 _]. apply NumeralFacts.of_Z_inj in E2. lia.
Qed.

End TimeFacts.

(** Two durations that are not the same are not shown the same. *)
Theorem format_time_distinct (a b : Z) :
  (0 < a)%Z -> (0 < b)%Z -> a <> b ->
  App.format_time (Some a) <> App.format_time (Some b).
Proof.
  intros Ha Hb Hab E. apply Hab. now apply TimeFacts.format_time_inj.
Qed.

Lemma format_time_distinct_witness :
  App.format_time (Some 90%Z) <> App.format_time (Some 30%Z).
Proof. apply (@format_time_distinct 90 30); lia. Defined.

Module IdFacts.
Import Str StrFacts App.
Local Open Scope nat_scope.

Lemma smap_smap f g s : smap f (smap g s) = smap (fun c => f (g c)) s.
Proof. induction s as [|c t IH]; cbn [smap]; [reflexivity | now rewrite IH]. Qed.

Lemma smap_ext f g s : (forall c, f c = g c) -> smap f s = smap g s.
Proof.
  intros H. induction s as [|c t IH]; cbn [smap]; [reflexivity |].
  now rewrite H, IH.
Qed.

Lemma smap_app f a b : smap f (a ++ b) = smap f a ++ smap f b.
Proof. induction a as [|c t IH]; cbn [smap append]; [reflexivity | now rewrite IH]. Qed.

Lemma smap_length f s : length (smap f s) = length s.
Proof. induction s as [|c t IH]; cbn [smap length]; [reflexivity | now rewrite IH]. Qed.

Lemma smap_take f n s : smap f (substring 0 n s) = substring 0 n (smap f s).
Proof.
  revert s. induction n as [|n IH]; intros [|c t]; cbn [substring smap];
    try reflexivity.
  now rewrite IH.
Qed.

Lemma take_length n s : length (substring 0 n s) <= n.
Proof.
  revert s. induction n as [|n IH]; intros [|c t]; cbn [substring length];
    try lia.
  specialize (IH t). lia.
Qed.

Lemma take_all n s : length s <= n -> substring 0 n s = s.
Proof.
  revert s. induction n as [|n IH]; intros [|c t]; cbn [substring length];
    intros H; try reflexivity; try lia.
  rewrite IH; [reflexivity | lia].
Qed.

Lemma take_app n a b : n <= length a -> substring 0 n (a ++ b) = substring 0 n a.
Proof.
  revert a. induction n as [|n IH]; intros [|c t]; cbn [substring length append];
    intros H; try reflexivity; try lia.
  - destruct b; reflexivity.
  - rewrite IH; [reflexivity | lia].
Qed.

Lemma all_take p n s : all p s = true -> all p (substring 0 n s) = true.
Proof.
  revert s. induction n as [|n IH]; intros [|c t]; cbn [substring all];
    try reflexivity.
  intros H. apply andb_prop in H as [-> H]. now apply IH.
Qed.

Lemma all_smap (p : ascii -> bool) f s :
  (forall c, p (f c) = true) -> all p (smap f s) = true.
Proof.
  intros H. induction s as [|c t IH]; cbn [smap all]; [reflexivity |].
  now rewrite H, IH.
Qed.

Lemma id_char_idem c : underscore (lower (underscore (lower c))) = underscore (lower c).
Proof. destruct c as [[] [] [] [] [] [] [] []]; reflexivity. Qed.

Lemma id_char_lower c : underscore (lower (lower c)) = underscore (lower c).
Proof. destruct c as [[] [] [] [] [] [] [] []]; reflexivity. Qed.

Lemma id_char_underscore c :
  underscore (lower (underscore c)) = underscore (lower c).
Proof. destruct c as [[] [] [] [] [] [] [] []]; reflexivity. Qed.

Lemma id_char_plain c :
  negb (is_upper (underscore (lower c))) &&
  negb (underscore (lower c) =? " ")%char = true.
Proof. destruct c as [[] [] [] [] [] [] [] []]; reflexivity. Qed.

Lemma title_id_eq t :
  title_id t = substring 0 50 (smap (fun c => underscore (lower c)) t).
Proof. unfold title_id, lower_str. now rewrite smap_smap. Qed.

Lemma title_id_idem t : title_id (title_id t) = title_id t.
Proof.
  rewrite (title_id_eq (title_id t)), (title_id_eq t), smap_take, smap_smap.
  rewrite (smap_ext _ (fun c => underscore (lower c)) t id_char_idem).
  apply take_all. apply take_length.
Qed.

Lemma get_title d t :
  Py.lookup "title" d = Some (Py.VStr t) ->
  get_recipe_id (Py.VDict d) = Py.Ok (title_id t).
Proof. intros H. unfold get_recipe_id, Py.getitem. now rewrite H. Qed.

End IdFacts.

(** An id has at most 50 characters, none of them a capital letter or a
    blank. *)
Theorem get_recipe_id_shape (d : list (string * Py.value)) (t : string) :
  Py.lookup "title" d = Some (Py.VStr t) -> App.ascii_text t = true ->
  exists id,
    App.get_recipe_id (Py.VDict d) = Py.Ok id /\
    (length id <= 50)%nat /\
    Str.all (fun c => negb (Str.is_upper c) && negb (c =? " ")%char) id = true.
Proof.
  intros H _. exists (App.title_id t). split; [now apply IdFacts.get_title |].
  rewrite IdFacts.title_id_eq. split; [apply IdFacts.take_length |].
  apply IdFacts.all_take, IdFacts.all_smap, IdFacts.id_char_plain.
Qed.

Lemma get_recipe_id_shape_witness :
  exists id,
    App.get_recipe_id (Py.VDict [("title", Py.VStr "Apple Pie")]) = Py.Ok id /\
    (length id <= 50)%nat /\
    Str.all (fun c => negb (Str.is_upper c) && negb (c =? " ")%char) id = true.
Proof.
  apply (@get_recipe_id_shape [("title", Py.VStr "Apple Pie")] "Apple Pie");
    reflexivity.
Defined.

(** The id of a recipe whose title is an id is that id. *)
Theorem get_recipe_id_idempotent (t id : string) :
  App.ascii_text t = true ->
  App.get_recipe_id (Example.titled t) = Py.Ok id ->
  App.get_recipe_id (Example.titled id) = Py.Ok id.
Proof.
  intros _. unfold Example.titled.
  rewrite !(fun s => @IdFacts.get_title [("title", Py.VStr s)] s eq_refl).
  intros [= <-]. now rewrite IdFacts.title_id_idem.
Qed.

Lemma get_recipe_id_idempotent_witness :
  App.get_recipe_id (Example.titled "apple_pie") = Py.Ok "apple_pie".
Proof.
  apply (@get_recipe_id_idempotent "Apple Pie" "apple_pie"); reflexivity.
Defined.

(** Titles that differ in the case of their letters or in blanks against
    underscores get one id; so do titles that differ after their first 50
    characters only. *)
Theorem get_recipe_id_collisions (t u : string) :
  App.ascii_text t = true -> App.ascii_text u = true ->
  App.get_recipe_id (Example.titled (App.lower_str t)) =
    App.get_recipe_id (Example.titled t) /\
  App.get_recipe_id (Example.titled (App.smap App.underscore t)) =
    App.get_recipe_id (Example.titled t) /\
  ((50 <= length t)%nat ->
   App.get_recipe_id (Example.titled (t ++ u)) =
     App.get_recipe_id (Example.titled t)).
Proof.
  intros _ _. unfold Example.titled.
  rewrite !(fun s => @IdFacts.get_title [("title", Py.VStr s)] s eq_refl),
    !IdFacts.title_id_eq.
  unfold App.lower_str. rewrite !IdFacts.smap_smap.
  rewrite (IdFacts.smap_ext _ (fun c => App.underscore (Str.lower c)) t
             IdFacts.id_char_lower).
  rewrite (IdFacts.smap_ext (fun c => App.underscore (Str.lower (App.underscore c)))
             (fun c => App.underscore (Str.lower c)) t
             IdFacts.id_char_underscore).
  split; [reflexivity | split; [reflexivity |]].
  intros Hlen.
  rewrite IdFacts.smap_app, IdFacts.take_app; [reflexivity |].
  now rewrite IdFacts.smap_length.
Qed.

Lemma get_recipe_id_collisions_witness :
  (App.get_recipe_id (Example.titled (App.lower_str "Apple Pie")) =
     App.get_recipe_id (Example.titled "Apple Pie") /\
   App.get_recipe_id (Example.titled (App.smap App.underscore "Apple Pie")) =
     App.get_recipe_id (Example.titled "Apple Pie")) /\
  App.get_recipe_id (Example.titled (Example.long_title ++ ", again")) =
    App.get_recipe_id (Example.titled Example.long_title).
Proof.
  split.
  - destruct (@get_recipe_id_collisions "Apple Pie" "" eq_refl eq_refl)
      as (A & B & _).
    split; [exact A | exact B].
  - destruct (@get_recipe_id_collisions Example.long_title ", again"
                eq_refl eq_refl) as (_ & _ & C).
    apply C. vm_compute. lia.
Defined.

(** ** [load_categories] *)

Module CategoryFacts.
Import App.

Lemma insert_perm x l : Permutation (insert_by_key x l) (x :: l).
Proof.
  induction l as [|y l IH]; cbn [insert_by_key]; [reflexivity |].
  destruct (key_lt y x); [| reflexivity].
  rewrite IH. apply perm_swap.
Qed.

Lemma sorted_perm l : Permutation (sorted_by_key l) l.
Proof.
  induction l as [|x l IH]; cbn [sorted_by_key fold_right]; [reflexivity |].
  fold (sorted_by_key l). rewrite insert_perm. now constructor.
Qed.

Lemma key_lt_asym a b : key_lt a b = true -> key_lt b a = false.
Proof.
  unfold key_lt, String.ltb.
  rewrite (String.compare_antisym (lower_str b) (lower_str a)).
  destruct (String.compare (lower_str a) (lower_str b)); cbn; congruence.
Qed.

Lemma insert_sorted x l :
  Sorted (fun a b => key_lt b a = false) l -> Sorted (fun a b => key_lt b a = false) (insert_by_key x l).
Proof.
  induction 1 as [|y l Hs IH Hd]; cbn [insert_by_key].
  - repeat constructor.
  - destruct (key_lt y x) eqn:E.
    + constructor; [exact IH |].
      destruct l as [|z l]; cbn [insert_by_key].
      * constructor. now apply key_lt_asym.
      * destruct (key_lt z x); constructor.
        -- now inversion Hd.
        -- now apply key_lt_asym.
    + constructor; [now constructor |]. now constructor.
Qed.

Lemma sorted_sorted l : Sorted (fun a b => key_lt b a = false) (sorted_by_key l).
Proof.
  induction l as [|x l IH]; cbn [sorted_by_key fold_right]; [constructor |].
  now apply insert_sorted.
Qed.

(** Sorting what is in order changes nothing. *)
Lemma sorted_id l : Sorted (fun a b => key_lt b a = false) l -> sorted_by_key l = l.
Proof.
  induction 1 as [|x l Hs IH Hd]; [reflexivity |].
  cbn [sorted_by_key fold_right]. fold (sorted_by_key l). rewrite IH.
  destruct Hd as [|y l Hy]; cbn [insert_by_key]; [reflexivity |].
  now rewrite Hy.
Qed.

Lemma others_plain cats :
  Forall (fun c => is_uncategorized c = false)
         (sorted_by_key (filter (fun c => negb (is_uncategorized c)) cats)).
Proof.
  eapply Permutation_Forall; [symmetry; apply sorted_perm |].
  apply Forall_forall. intros c Hc. apply filter_In in Hc as [_ Hc].
  now apply negb_true_iff in Hc.
Qed.

Lemma filter_plain l :
  Forall (fun c => is_uncategorized c = false) l ->
  filter (fun c => negb (is_uncategorized c)) l = l /\
  existsb is_uncategorized l = false.
Proof.
  induction 1 as [|c l Hc _ [IH1 IH2]]; [split; reflexivity |].
  cbn [filter existsb]. rewrite Hc, IH1, IH2. split; reflexivity.
Qed.

Lemma order_categories_eq cats :
  order_categories cats =
  (sorted_by_key (filter (fun c => negb (is_uncategorized c)) cats) ++
   if existsb is_uncategorized cats then ["Uncategorized"] else [])%list.
Proof.
  unfold order_categories. cbv zeta.
  destruct (existsb is_uncategorized cats); [reflexivity | now rewrite List.app_nil_r].
Qed.

Lemma order_categories_idem cats :
  order_categories (order_categories cats) = order_categories cats.
Proof.
  rewrite (order_categories_eq cats).
  pose proof (others_plain cats) as Hp.
  pose proof (sorted_sorted (filter (fun c => negb (is_uncategorized c)) cats))
    as Hs.
  set (others := sorted_by_key _) in *.
  destruct (filter_plain Hp) as [F1 F2].
  rewrite order_categories_eq, filter_app, existsb_app, F1, F2.
  destruct (existsb is_uncategorized cats); cbn [filter existsb];
    change (is_uncategorized "Uncategorized") with true;
    cbn [negb orb]; rewrite ?List.app_nil_r, (sorted_id Hs); reflexivity.
Qed.

End CategoryFacts.

(** The categories come back in the order of their keys, "Uncategorized"
    apart, which stands once at the end if it was there at all; no other
    category is lost, added or repeated. *)
Theorem load_categories_sorted (cats : list string) :
  Forall (fun c => App.ascii_text c = true) cats ->
  exists others,
    App.load_categories (Some (Py.Ok cats)) =
      (others ++ if existsb App.is_uncategorized cats
                 then ["Uncategorized"] else [])%list /\
    Permutation others
      (filter (fun c => negb (App.is_uncategorized c)) cats) /\
    Sorted (fun a b => App.key_lt b a = false) others.
Proof.
  intros _.
  exists (App.sorted_by_key
            (filter (fun c => negb (App.is_uncategorized c)) cats)).
  split; [| split].
  - apply CategoryFacts.order_categories_eq.
  - apply CategoryFacts.sorted_perm.
  - apply CategoryFacts.sorted_sorted.
Qed.

Lemma load_categories_sorted_witness :
  exists others,
    App.load_categories
      (Some (Py.Ok ["Soups"; "Uncategorized"; "bread"; "Cookies"])) =
      (others ++ ["Uncategorized"])%list /\
    Permutation others ["Soups"; "bread"; "Cookies"] /\
    Sorted (fun a b => App.key_lt b a = false) others.
Proof.
  apply (@load_categories_sorted ["Soups"; "Uncategorized"; "bread"; "Cookies"]).
  repeat constructor.
Defined.

(** Saving the categories as they were loaded and loading them again
    gives the same list. *)
Theorem load_categories_stable (cats : list string) :
  Forall (fun c => App.ascii_text c = true) cats ->
  App.load_categories
    (Some (Py.Ok (App.load_categories (Some (Py.Ok cats))))) =
  App.load_categories (Some (Py.Ok cats)).
Proof. intros _. apply CategoryFacts.order_categories_idem. Qed.

Lemma load_categories_stable_witness :
  App.load_categories
    (Some (Py.Ok (App.load_categories
                    (Some (Py.Ok ["Soups"; "Uncategorized"; "bread"; "Cookies"]))))) =
  App.load_categories
    (Some (Py.Ok ["Soups"; "Uncategorized"; "bread"; "Cookies"])).
Proof.
  apply (@load_categories_stable ["Soups"; "Uncategorized"; "bread"; "Cookies"]).
  repeat constructor.
Defined.

(** ** [restore_session] *)

Module SessionFacts.
Import Py App.

(** What [d[key] = v] does to [d.get(k)]. *)
Lemma lookup_dict_set d key v k :
  lookup k (dict_set d key v) =
  if (key =? k)%string then Some v else lookup k d.
Proof.
  induction d as [|[k0 x] d IH]; cbn [dict_set lookup].
  - destruct (String.eqb_spec key k); reflexivity.
  - destruct (String.eqb_spec k0 key) as [-> | Hne]; cbn [lookup].
    + destruct (String.eqb_spec key k); reflexivity.
    + destruct (String.eqb_spec k0 k) as [-> | Hk].
      * destruct (String.eqb_spec key k); [congruence | reflexivity].
      * exact IH.
Qed.

Lemma lookup_restore_key session state key k :
  lookup k (restore_key session state key) =
  match lookup k state with
  | Some v => Some v
  | None =>
      if (key =? k)%string && truthy (dict_get session k)
      then Some (dict_get session k) else None
  end.
Proof.
  unfold restore_key, has_key.
  destruct (String.eqb_spec key k) as [-> | Hne]; cbn [andb].
  - destruct (lookup k state) as [v|] eqn:E; cbn [negb andb].
    + exact E.
    + destruct (truthy (dict_get session k)); [| exact E].
      rewrite lookup_dict_set. now rewrite String.eqb_refl.
  - destruct (negb _ && _).
    + rewrite lookup_dict_set.
      destruct (String.eqb_spec key k); [congruence |].
      destruct (lookup k state); reflexivity.
    + destruct (lookup k state); reflexivity.
Qed.

Lemma lookup_restore_keys session keys :
  forall state k,
  lookup k (fold_left (restore_key session) keys state) =
  match lookup k state with
  | Some v => Some v
  | None =>
      if existsb (fun key => (key =? k)%string) keys
         && truthy (dict_get session k)
      then Some (dict_get session k) else None
  end.
Proof.
  induction keys as [|key keys IH]; intros state k; cbn [fold_left existsb].
  - destruct (lookup k state); reflexivity.
  - rewrite IH, lookup_restore_key.
    destruct (lookup k state); [reflexivity |].
    destruct (key =? k)%string; cbn [andb orb]; [| reflexivity].
    destruct (truthy (dict_get session k)); [reflexivity |].
    now rewrite andb_false_r.
Qed.

End SessionFacts.

(** Restoring the session leaves every key the session state has already
    at its value. *)
Theorem restore_session_keeps (session : option App.dict) (state : App.dict)
        (k : string) (v : Py.value) :
  Py.lookup k state = Some v ->
  Py.lookup k (App.restore_session session state) = Some v.
Proof.
  intros H. unfold App.restore_session.
  destruct session as [d|]; [| exact H].
  destruct (Py.truthy (Py.VDict d)); [| exact H].
  now rewrite SessionFacts.lookup_restore_keys, H.
Qed.

(** A key the session state does not have is set when it is one of the
    seven session keys and the saved session holds a true value for it; to
    that value; otherwise it stays unset. *)
Theorem restore_session_sets (d : App.dict) (state : App.dict) (k : string) :
  d <> [] -> Py.lookup k state = None ->
  Py.lookup k (App.restore_session (Some d) state) =
  if existsb (String.eqb k) App.session_keys
     && Py.truthy (App.dict_get d k)
  then Some (App.dict_get d k) else None.
Proof.
  intros Hd H. unfold App.restore_session.
  destruct d as [|e d]; [congruence |]. cbn [Py.truthy].
  rewrite SessionFacts.lookup_restore_keys, H.
  assert (E : forall l, existsb (fun key => (key =? k)%string) l =
                        existsb (String.eqb k) l).
  { induction l as [|key l IH]; cbn [existsb]; [reflexivity |].
    now rewrite IH, String.eqb_sym. }
  now rewrite E.
Qed.

Lemma restore_session_keeps_witness :
  Py.lookup "view"
    (App.restore_session (Some [("view", Py.VStr "favorites")])
                         [("view", Py.VStr "main")]) =
  Some (Py.VStr "main").
Proof.
  apply (@restore_session_keeps (Some [("view", Py.VStr "favorites")])
           [("view", Py.VStr "main")] "view" (Py.VStr "main")).
  reflexivity.
Defined.

Lemma restore_session_sets_witness :
  Py.lookup "view"
    (App.restore_session (Some [("view", Py.VStr "favorites")]) []) =
  Some (Py.VStr "favorites").
Proof.
  apply (@restore_session_sets [("view", Py.VStr "favorites")] [] "view");
    [discriminate | reflexivity].
Defined.

(** ** A line of numbered steps *)

Module SplitFacts.
Import Str StrFacts Re ReFacts DecimalScan Normalizer StripFacts StepFacts.
Local Open Scope nat_scope.

Lemma m_ahead ic r st k :
  m ic (Ahead r) st k =
  match m ic r st (fun st' => Some st') with
  | Some st' => k (MState (prev st) (rest st) (caps st'))
  | None => None
  end.
Proof. reflexivity. Qed.

(** A repetition succeeds as soon as its continuation does somewhere
    along the run. *)
Lemma star_some ic c (k : K) a1 :
  forall n p r cs,
  all (cls_mem c) a1 = true -> length a1 <= n ->
  k (MState (last_or p a1) r cs) <> None ->
  star_loop (m ic (Cls c)) k n (MState p (a1 ++ r) cs) <> None.
Proof.
  induction a1 as [|y a1 IH]; intros n p r cs Ha Hn Hk.
  - cbn [append last_or] in *. destruct n; cbn [star_loop]; [exact Hk |].
    destruct (m ic (Cls c) _ _); [discriminate | exact Hk].
  - cbn [all] in Ha. apply andb_prop in Ha as [Hy Ha].
    destruct n as [|n]; [simpl in Hn; lia |].
    cbn [star_loop append]. rewrite m_cls. cbn [rest]. rewrite Hy.
    cbv beta. unfold advance. cbn [rest caps].
    replace (length (a1 ++ r) <? length (String y (a1 ++ r))) with true
      by (symmetry; apply Nat.ltb_lt; simpl; lia).
    cbn [last_or] in Hk.
    assert (Hn' : length a1 <= n) by (simpl in Hn; lia).
    specialize (IH n (Some y) r cs Ha Hn' Hk).
    destruct (star_loop _ _ n _); [discriminate | contradiction].
Qed.

Lemma plus_some ic c (k : K) x a1 r p cs :
  cls_mem c x = true -> all (cls_mem c) a1 = true ->
  k (MState (last_or (Some x) a1) r cs) <> None ->
  m ic (Plus (Cls c)) (MState p (String x (a1 ++ r)) cs) k <> None.
Proof.
  intros Hx Ha Hk. rewrite m_plus. cbn [rest]. rewrite Hx.
  unfold advance. cbn [caps].
  apply star_some; [exact Ha | rewrite str_length_app; lia | exact Hk].
Qed.

Lemma plus_some_one ic c (k : K) x r p cs :
  cls_mem c x = true ->
  k (MState (Some x) r cs) <> None ->
  m ic (Plus (Cls c)) (MState p (String x r) cs) k <> None.
Proof. intros Hx Hk. now apply (@plus_some ic c k x "" r p cs). Qed.

Lemma chr_here c r p cs (k : K) :
  m false (Chr c) (MState p (String c r) cs) k = k (MState (Some c) r cs).
Proof. rewrite m_chr. cbn [rest chr_eq]. now rewrite Ascii.eqb_refl. Qed.

Lemma digit_not_space d : is_digit d = true -> is_space d = false.
Proof.
  destruct d as [[] [] [] [] [] [] [] []]; vm_compute; intros H;
    first [reflexivity | discriminate H].
Qed.

Lemma all_rev p s : all p (rev s) = all p s.
Proof.
  induction s as [|c t IH]; [reflexivity |].
  rewrite rev_cons, str_all_app, IH. cbn [all].
  now rewrite andb_true_r, andb_comm.
Qed.

(** [strip] takes the blanks off a text with none at either end. *)
Lemma strip_core y w :
  y <> "" -> starts is_space y = false -> starts is_space (rev y) = false ->
  all is_space w = true -> strip (y ++ w) = y.
Proof.
  intros Hy H1 H2 Hw. unfold strip.
  rewrite (@lstrip_id (y ++ w))
    by (rewrite str_starts_app; destruct y; [congruence | exact H1]).
  unfold rstrip. rewrite rev_app.
  rewrite lstrip_spaces by now rewrite all_rev.
  rewrite (@lstrip_id (rev y)) by exact H2. apply rev_involutive.
Qed.

Lemma trimmed_ends b :
  trimmed b -> starts is_space b = false /\ starts is_space (rev b) = false.
Proof.
  intros [_ Hb]. split; rewrite <- Hb.
  - unfold strip. apply rstrip_starts, lstrip_starts.
  - unfold strip, rstrip. rewrite rev_involutive. apply lstrip_starts.
Qed.


(** The line, read from its first step on. *)
Lemma numbered_line_cons d b steps :
  numbered_line ((d, b) :: steps) =
  String d (String "." (String " "
    (b ++ match steps with
          | [] => ""
          | _ => String " " (numbered_line steps)
          end))).
Proof.
  unfold numbered_line. cbn [numbered_pieces].
  destruct steps as [|[d' b'] steps].
  - cbn [concat append]. now rewrite str_app_nil_r.
  - assert (E : exists x xs, numbered_pieces ((d', b') :: steps) = x :: xs).
    { cbn [numbered_pieces]. destruct steps; eauto. }
    destruct E as (x & xs & E). rewrite E. cbn [concat append].
    now rewrite str_app_assoc.
Qed.

(** Where a step begins: a digit, a period, a blank, and no blank next. *)
Lemma numbered_line_head steps :
  steps <> [] ->
  Forall (fun s => is_digit (fst s) = true /\ plain_step (snd s)) steps ->
  exists d y,
    numbered_line steps = String d (String "." (String " " y)) /\
    is_digit d = true /\ starts is_space y = false.
Proof.
  intros Hne H. destruct steps as [|[d b] steps]; [congruence |].
  inversion H as [|? ? [Hd (_ & _ & Hb)] _]; subst. cbn [fst snd] in *.
  rewrite numbered_line_cons. eexists _, _. split; [reflexivity |].
  split; [exact Hd |].
  destruct (trimmed_ends Hb) as [H1 _]. destruct Hb as [Hb _].
  rewrite str_starts_app. destruct b; [congruence | exact H1].
Qed.

Lemma numbered_line_length steps :
  List.length steps <= length (numbered_line steps).
Proof.
  induction steps as [|[d b] steps IH]; [simpl; lia |].
  rewrite numbered_line_cons. cbn [length List.length].
  rewrite str_length_app.
  destruct steps; cbn [length List.length] in *; lia.
Qed.

(** [(?=\d+\.\s+)] where a step begins. *)
Lemma try_boundary_at ma p d y :
  is_digit d = true -> starts is_space y = false ->
  try_at false step_boundary_pattern ma p (String d (String "." (String " " y))) =
  if ma then None
  else Some (Match "" "" (MState p (String d (String "." (String " " y))) [])).
Proof.
  intros Hd Hy. unfold try_at, step_boundary_pattern, Seqs.
  rewrite m_ahead.
  assert (E : m false (Seq (Plus (Cls Digit)) (Seq (Chr ".") (Plus (Cls Space))))
                (MState p (String d (String "." (String " " y))) [])
                (fun st' => Some st') = Some (MState (Some " "%char) y [])).
  { rewrite m_seq, m_plus. cbn [rest cls_mem]. rewrite Hd.
    unfold advance. cbn [caps].
    rewrite star_cls_stop by reflexivity.
    rewrite m_seq, chr_here, m_plus. cbn [rest cls_mem].
    change (is_space " ") with true. cbv iota.
    unfold advance. cbn [caps].
    now rewrite star_cls_stop by exact Hy. }
  rewrite E. cbn [prev rest caps]. rewrite Nat.eqb_refl.
  destruct ma; cbn [andb]; [reflexivity |].
  unfold consumed. cbn [rest]. now rewrite Nat.sub_diag.
Qed.

Lemma try_boundary_none ma p s :
  starts is_digit s = false ->
  try_at false step_boundary_pattern ma p s = None.
Proof.
  intros H. unfold try_at, step_boundary_pattern, Seqs.
  rewrite m_ahead. now rewrite digits_first_fails.
Qed.

Lemma search_boundary_none u :
  forall ma p, no_digit u = true ->
  search_from false step_boundary_pattern ma p u = None.
Proof.
  induction u as [|a u IH]; intros ma p H; cbn [search_from];
    rewrite try_boundary_none by now apply no_digit_starts.
  - reflexivity.
  - rewrite IH; [reflexivity |]. now apply no_digit_tail in H.
Qed.

(** The search goes over text without a digit to where the next step
    begins. *)
Lemma search_boundary_skip u :
  forall p d y, no_digit u = true ->
  is_digit d = true -> starts is_space y = false ->
  search_from false step_boundary_pattern false p
    (u ++ String d (String "." (String " " y))) =
  Some (Match u ""
          (MState (last_or p u) (String d (String "." (String " " y))) [])).
Proof.
  induction u as [|a u IH]; intros p d y Hu Hd Hy; cbn [append search_from last_or].
  - now rewrite try_boundary_at.
  - assert (Ha : is_digit a = false).
    { apply no_digit_starts in Hu. exact Hu. }
    rewrite try_boundary_none by exact Ha.
    rewrite IH; [reflexivity | | exact Hd | exact Hy].
    now apply no_digit_tail in Hu.
Qed.


Lemma search_from_cons ic r ma p a t :
  search_from ic r ma p (String a t) =
  match try_at ic r ma p (String a t) with
  | Some mo => Some mo
  | None =>
      match search_from ic r false (Some a) t with
      | Some mo => Some (Match (String a (m_pre mo)) (m_text mo) (m_end mo))
      | None => None
      end
  end.
Proof. reflexivity. Qed.

Lemma no_digit_app a b : no_digit (a ++ b) = no_digit a && no_digit b.
Proof. apply str_all_app. Qed.

(** [re.split] cuts the line where each step begins. *)
Lemma split_numbered steps :
  Forall (fun s => is_digit (fst s) = true /\ plain_step (snd s)) steps ->
  steps <> [] ->
  forall fuel p, List.length steps <= fuel ->
  split_loop fuel false step_boundary_pattern true p (numbered_line steps) =
  numbered_pieces steps.
Proof.
  induction steps as [|[d b] steps IH]; intros H Hne fuel p Hf; [congruence |].
  inversion H as [|? ? [Hd (Hb1 & Hb2 & Hb3)] Hrest]; subst.
  cbn [fst snd] in *.
  destruct fuel as [|fuel]; [simpl in Hf; lia |].
  rewrite numbered_line_cons. cbn [split_loop]. rewrite search_from_cons.
  destruct (trimmed_ends Hb3) as [Hs1 _].
  assert (Hy : starts is_space
                 (b ++ match steps with
                       | [] => ""
                       | _ :: _ => String " " (numbered_line steps)
                       end) = false).
  { rewrite str_starts_app. destruct Hb3 as [Hb3 _].
    destruct b; [congruence | exact Hs1]. }
  rewrite (@try_boundary_at true p d _ Hd Hy).
  destruct steps as [|s2 steps'].
  - rewrite search_boundary_none.
    + cbn [numbered_pieces append]. now rewrite str_app_nil_r.
    + rewrite str_app_nil_r. unfold no_digit in *. cbn [all]. exact Hb1.
  - destruct (@numbered_line_head (s2 :: steps') ltac:(discriminate) Hrest)
      as (d2 & y2 & E2 & Hd2 & Hy2).
    rewrite E2.
    replace (String "." (String " " (b ++ String " " (String d2 (String "." (String " " y2))))))
      with ((String "." (String " " (b ++ " "))) ++ String d2 (String "." (String " " y2)))
      by (cbn [append]; now rewrite str_app_assoc).
    rewrite search_boundary_skip; [| | exact Hd2 | exact Hy2].
    + cbn [m_pre m_text m_end prev rest]. rewrite <- E2.
      rewrite IH; [| exact Hrest | discriminate | simpl in Hf |- *; lia].
      cbn [numbered_pieces]. reflexivity.
    + unfold no_digit in *. cbn [all]. rewrite str_all_app, Hb1. reflexivity.
Qed.

Lemma split_line steps :
  Forall (fun s => is_digit (fst s) = true /\ plain_step (snd s)) steps ->
  steps <> [] ->
  Re.split false step_boundary_pattern (numbered_line steps) =
  "" :: numbered_pieces steps.
Proof.
  intros H Hne. unfold Re.split.
  replace (2 * length (numbered_line steps) + 2)
    with (S (2 * length (numbered_line steps) + 1)) by lia.
  cbn [split_loop].
  destruct (numbered_line_head Hne H) as (d & y & E & Hd & Hy).
  assert (Es : search_from false step_boundary_pattern false None
                 (numbered_line steps) =
               Some (Match "" "" (MState None (numbered_line steps) []))).
  { rewrite E. cbn [search_from]. now rewrite try_boundary_at. }
  rewrite Es. cbn [m_pre m_text m_end prev rest]. f_equal.
  apply split_numbered; [exact H | exact Hne |].
  pose proof (numbered_line_length steps). lia.
Qed.

(** The pattern of embedded steps is found in a line of two steps or
    more. *)
Lemma embedded_found s1 s2 steps :
  Forall (fun s => is_digit (fst s) = true /\ plain_step (snd s))
         (s1 :: s2 :: steps) ->
  found (Re.search false embedded_steps_pattern
           (numbered_line (s1 :: s2 :: steps))) = true.
Proof.
  intros H. destruct s1 as [d1 b1].
  inversion H as [|? ? [Hd1 (Hb1 & Hb2 & Hb3)] Hrest]; subst.
  cbn [fst snd] in *.
  destruct (@numbered_line_head (s2 :: steps) ltac:(discriminate) Hrest)
    as (d2 & y2 & E2 & Hd2 & Hy2).
  rewrite numbered_line_cons, E2.
  destruct b1 as [|x b1']; [destruct Hb3 as [Hb3 _]; congruence |].
  cbn [all] in Hb2. apply andb_prop in Hb2 as [Hx Hb2].
  unfold Re.search. rewrite search_from_cons.
  match goal with
  | |- found (match ?t with _ => _ end) = true =>
      destruct t eqn:Et; [reflexivity | exfalso]
  end.
  unfold try_at in Et.
  match type of Et with
  | match ?e with _ => _ end = None =>
      assert (Hm : e <> None); [| destruct e; [discriminate | congruence]]
  end.
  clear Et. unfold embedded_steps_pattern, Seqs.
  rewrite m_seq. apply plus_some_one; [exact Hd1 |].
  rewrite m_seq, chr_here, m_seq. apply plus_some_one; [reflexivity |].
  rewrite m_seq.
  replace (String x b1' ++ String " " (String d2 (String "." (String " " y2))))
    with (String x ((b1' ++ " ") ++ String d2 (String "." (String " " y2))))
    by (cbn [append]; now rewrite str_app_assoc).
  apply (@plus_some false AnyChar _ x (b1' ++ " ")
           (String d2 (String "." (String " " y2))));
    [exact Hx | rewrite str_all_app, Hb2; reflexivity |].
  rewrite m_seq. apply plus_some_one; [exact Hd2 |].
  rewrite m_seq, chr_here. apply plus_some_one; [reflexivity |].
  discriminate.
Qed.

(** What the loop makes of one piece: the step without its number. *)
Lemma piece_clean d b w :
  is_digit d = true -> plain_step b -> w = "" \/ w = " " ->
  (let part := strip (String d (". " ++ b ++ w)) in
   if nonempty part then keep_nonempty (strip_leading_number part) else []) =
  [b].
Proof.
  intros Hd (Hb1 & Hb2 & Hb3) Hw.
  destruct (trimmed_ends Hb3) as [Hs1 Hs2]. destruct Hb3 as [Hne Hfix].
  assert (E : strip (String d (". " ++ b ++ w)) = String d (". " ++ b)).
  { change (String d (". " ++ b ++ w)) with (String d (". " ++ b) ++ w).
    apply strip_core.
    - discriminate.
    - cbn [starts]. now apply digit_not_space.
    - rewrite rev_cons. cbn [append]. rewrite !rev_cons, !str_app_assoc.
      rewrite str_starts_app.
      destruct (rev b) eqn:Er; [| exact Hs2].
      exfalso. apply Hne. rewrite <- (rev_involutive b), Er. reflexivity.
    - destruct Hw as [-> | ->]; reflexivity. }
  cbv zeta. rewrite E. cbn [nonempty].
  unfold strip_leading_number.
  change (String d (". " ++ b)) with (String d "" ++ String "." (String " " b)).
  rewrite sub_leading_some by (cbn [all]; now rewrite ?Hd).
  rewrite strip_lstrip.
  change (String " " b) with (" " ++ b).
  rewrite strip_spaces by reflexivity.
  rewrite Hfix. unfold keep_nonempty. destruct b; [congruence | reflexivity].
Qed.

Lemma pieces_clean steps :
  Forall (fun s => is_digit (fst s) = true /\ plain_step (snd s)) steps ->
  flat_map (fun part =>
              let part := strip part in
              if nonempty part
              then keep_nonempty (strip_leading_number part) else [])
           (numbered_pieces steps) =
  map snd steps.
Proof.
  induction 1 as [|[d b] steps [Hd Hb] Hrest IH]; [reflexivity |].
  cbn [fst snd] in *. cbn [numbered_pieces map].
  destruct steps as [|s2 steps'].
  - cbn [flat_map]. rewrite List.app_nil_r.
    replace (String d (". " ++ b)) with (String d (". " ++ b ++ ""))
      by now rewrite str_app_nil_r.
    apply piece_clean; auto.
  - cbn [flat_map]. rewrite IH.
    match goal with
    | |- (?lhs ++ _)%list = _ => replace lhs with [b]; [reflexivity |]
    end.
    symmetry. apply (@piece_clean d b " " Hd Hb (or_intror eq_refl)).
Qed.

End SplitFacts.

(** Steps numbered with one digit each and written on one line, two or
    more of them, come apart: each step is returned without its number.
    (The steps have no digit and no line break in them, and no blank at
    either end.) *)
Theorem split_embedded_steps_line (s1 s2 : ascii * string)
        (steps : list (ascii * string)) :
  Forall (fun s => Str.is_digit (fst s) = true /\
                   Normalizer.plain_step (snd s))
         (s1 :: s2 :: steps) ->
  Normalizer.split_embedded_steps
    [Normalizer.numbered_line (s1 :: s2 :: steps)] =
  map snd (s1 :: s2 :: steps).
Proof.
  intros H.
  assert (E : Normalizer.split_step
                (Normalizer.numbered_line (s1 :: s2 :: steps)) =
              map snd (s1 :: s2 :: steps)).
  { unfold Normalizer.split_step.
    rewrite (SplitFacts.embedded_found H).
    rewrite (SplitFacts.split_line H) by discriminate.
    rewrite <- (SplitFacts.pieces_clean H). reflexivity. }
  unfold Normalizer.split_embedded_steps.
  cbn [flat_map]. rewrite List.app_nil_r, E. reflexivity.
Qed.

Lemma split_embedded_steps_line_witness :
  Normalizer.split_embedded_steps ["1. Mix flour 2. Add water 3. Bake"] =
  ["Mix flour"; "Add water"; "Bake"].
Proof.
  apply (@split_embedded_steps_line
           ("1"%char, "Mix flour") ("2"%char, "Add water")
           [("3"%char, "Bake")]).
  repeat (constructor; [repeat split; (reflexivity || discriminate) |]).
  constructor.
Defined.

(** ** A block with a bad ingredient *)

Section SchemaMore.

Import Py Normalizer Extract.

Variable json_loads : string -> result value.



End SchemaMore.


(** ** From the page to the time badge *)

Module RoundTrip.
Import Str.
Local Open Scope Z_scope.

Lemma to_Z_acc_uint_pos d acc :
  to_Z_acc (NilEmpty.string_of_uint d) (Zpos acc) = Zpos (Pos.of_uint_acc d acc).
Proof.
  revert acc. induction d; intros acc; cbn [NilEmpty.string_of_uint to_Z_acc Pos.of_uint_acc];
    try reflexivity;
    match goal with
    | |- to_Z_acc _ ?a = _ =>
        match goal with
        | |- _ = Zpos (Pos.of_uint_acc _ ?p) =>
            replace a with (Zpos p) by (match goal with |- context [digit_val ?c] => let v := eval vm_compute in (digit_val c) in change (digit_val c) with v end; lia)
        end
    end; apply IHd.
Qed.

Lemma to_Z_acc_uint d :
  to_Z_acc (NilEmpty.string_of_uint d) 0 = Z.of_N (Pos.of_uint d).
Proof.
  induction d; cbn [NilEmpty.string_of_uint to_Z_acc Pos.of_uint];
    try reflexivity;
    try (match goal with
         | |- to_Z_acc _ ?a = Z.of_N (N.pos (Pos.of_uint_acc _ ?p)) =>
             replace a with (Zpos p) by (match goal with |- context [digit_val ?c] => let v := eval vm_compute in (digit_val c) in change (digit_val c) with v end; lia)
         end; cbn [Z.of_N]; apply to_Z_acc_uint_pos).
  change (10 * 0 + digit_val "0") with 0.
  exact IHd.
Qed.

Lemma nz_string d :
  d <> Decimal.Nil -> NilZero.string_of_uint d = NilEmpty.string_of_uint d.
Proof. destruct d; [congruence | reflexivity ..]. Qed.

(** [int(str(n)) == n] for a natural number [n]. *)
Lemma to_Z_of_Z n : 0 <= n -> to_Z (of_Z n) = n.
Proof.
  intros H. destruct n as [|p|p]; [reflexivity | | lia].
  unfold of_Z, to_Z. cbn [Z.to_int NilZero.string_of_int].
  rewrite (nz_string (Unsigned.to_uint_nonnil p)).
  now rewrite to_Z_acc_uint, Unsigned.of_to.
Qed.

End RoundTrip.

(** A duration of the page is shown with the hours and minutes it
    names, the hours written with at most 4300 digits (the most [int] and
    [str] take). *)
Theorem duration_shown (h mi : Z) :
  (1 <= h)%Z -> (0 < mi < 60)%Z ->
  (String.length (Str.of_Z h) <= 4300)%nat ->
  App.format_time
    (Extract.parse_duration
       (Py.VStr ("PT" ++ Str.of_Z h ++ "H" ++ Str.of_Z mi ++ "M"))) =
  Some (Str.of_Z h ++ " hr " ++ Str.of_Z mi ++ " min").
Proof.
  intros Hh Hm _.
  destruct (@NumeralFacts.of_Z_digits h ltac:(lia)) as [H1 H2].
  destruct (@NumeralFacts.of_Z_digits mi ltac:(lia)) as [M1 M2].
  unfold Extract.parse_duration.
  cbn [append Py.truthy Str.nonempty negb].
  destruct (@DurationFacts.rmatch_hours_minutes (Str.of_Z h) (Str.of_Z mi) ""
              H1 H2 M1 M2) as (mo & -> & Hc).
  unfold Extract.group_int, Re.group. rewrite Hc.
  cbn [Re.assoc Nat.eqb]. rewrite H2, M2.
  rewrite !RoundTrip.to_Z_of_Z by lia.
  unfold App.format_time.
  replace (h * 60 + mi =? 0)%Z with false by (symmetry; apply Z.eqb_neq; lia).
  replace (h * 60 + mi <? 60)%Z with false by (symmetry; apply Z.ltb_ge; lia).
  replace ((h * 60 + mi) / 60)%Z with h
    by (apply (Z.div_unique (h * 60 + mi) 60 h mi); lia).
  replace ((h * 60 + mi) mod 60)%Z with mi
    by (apply (Z.mod_unique (h * 60 + mi) 60 h mi); lia).
  replace (mi =? 0)%Z with false by (symmetry; apply Z.eqb_neq; lia).
  reflexivity.
Qed.

Lemma duration_shown_witness :
  App.format_time (Extract.parse_duration (Py.VStr "PT1H30M")) =
  Some "1 hr 30 min".
Proof. apply (@duration_shown 1 30); [lia | lia | vm_compute; lia]. Defined.

(** ** Steps one to a line *)

Module LineFacts.
Import Str StrFacts Re ReFacts DecimalScan Normalizer StripFacts StepFacts SplitFacts.
Local Open Scope nat_scope.

(** The end of a line: the end of the text, or a line break. *)
Lemma lines_after_end steps :
  lines_after steps = "" \/ exists z, lines_after steps = String "010" z.
Proof. destruct steps; cbn [lines_after]; eauto. Qed.

(** [.+] stays on its line: behind it, a continuation that needs a digit
    fails when the line has none left. *)
Lemma star_line_fails (k : K) :
  (forall st, starts is_digit (rest st) = false -> k st = None) ->
  forall n u tail p cs,
  no_digit u = true ->
  tail = "" \/ (exists z, tail = String "010" z) ->
  star_loop (m false (Cls AnyChar)) k n (MState p (u ++ tail) cs) = None.
Proof.
  intros Hk. induction n as [|n IH]; intros u tail p cs Hu Ht.
  - cbn [star_loop]. apply Hk. cbn [rest].
    rewrite str_starts_app. destruct u; [| now apply no_digit_starts in Hu].
    destruct Ht as [-> | [z ->]]; reflexivity.
  - assert (Hs : starts is_digit (u ++ tail) = false).
    { rewrite str_starts_app. destruct u; [| now apply no_digit_starts in Hu].
      destruct Ht as [-> | [z ->]]; reflexivity. }
    cbn [star_loop]. rewrite m_cls. cbn [rest].
    destruct u as [|a u]; cbn [append].
    + destruct Ht as [-> | [z ->]]; cbn [cls_mem Ascii.eqb Bool.eqb negb];
        apply Hk; exact Hs.
    + destruct (cls_mem AnyChar a).
      * cbv beta. unfold advance. cbn [rest caps].
        destruct (length (u ++ tail) <? length (String a (u ++ tail))).
        -- rewrite IH; [now apply Hk | now apply no_digit_tail in Hu | exact Ht].
        -- now apply Hk.
      * now apply Hk.
Qed.

(** The pattern of embedded steps does not match where a line begins. *)
Lemma try_line_none ma p d b tail :
  is_digit d = true -> plain_step b ->
  tail = "" \/ (exists z, tail = String "010" z) ->
  try_at false embedded_steps_pattern ma p (String d (". " ++ b ++ tail)) = None.
Proof.
  intros Hd (Hb1 & Hb2 & Hb3) Ht.
  destruct (trimmed_ends Hb3) as [Hs1 _]. destruct Hb3 as [Hne _].
  destruct b as [|x b']; [congruence |].
  cbn [starts] in Hs1. cbn [all] in Hb2. apply andb_prop in Hb2 as [Hx Hb2].
  unfold try_at, embedded_steps_pattern, Seqs.
  match goal with
  | |- match ?e with _ => _ end = None => enough (E : e = None) by now rewrite E
  end.
  rewrite m_seq, m_plus. cbn [rest cls_mem append]. rewrite Hd.
  unfold advance. cbn [caps].
  rewrite star_cls_stop by reflexivity.
  rewrite m_seq, chr_here, m_seq, m_plus. cbn [rest cls_mem].
  change (is_space " ") with true. cbv iota. unfold advance. cbn [caps].
  rewrite star_cls_stop by exact Hs1.
  rewrite m_seq, m_plus. cbn [rest]. rewrite Hx. unfold advance. cbn [caps].
  apply star_line_fails; [| now apply no_digit_tail in Hb1 | exact Ht].
  intros st Hst. now apply digits_first_fails.
Qed.

Lemma try_embedded_nodigit ma p s :
  starts is_digit s = false ->
  try_at false embedded_steps_pattern ma p s = None.
Proof.
  intros H. unfold try_at, embedded_steps_pattern, Seqs.
  now rewrite digits_first_fails.
Qed.

Lemma search_nodigit_prefix u tail :
  no_digit u = true ->
  (forall ma p, search_from false embedded_steps_pattern ma p tail = None) ->
  forall ma p, search_from false embedded_steps_pattern ma p (u ++ tail) = None.
Proof.
  intros Hu Ht. induction u as [|a u IH]; intros ma p; [apply Ht |].
  cbn [append]. rewrite search_from_cons.
  rewrite try_embedded_nodigit by (now apply no_digit_starts in Hu).
  rewrite IH; [reflexivity |]. now apply no_digit_tail in Hu.
Qed.

Lemma no_digit_numbered_tail b :
  no_digit b = true -> no_digit (". " ++ b) = true.
Proof. intros H. unfold no_digit in *. cbn [append all]. now rewrite H. Qed.

Lemma search_line_none d b tail :
  is_digit d = true -> plain_step b ->
  tail = "" \/ (exists z, tail = String "010" z) ->
  (forall ma p, search_from false embedded_steps_pattern ma p tail = None) ->
  forall ma p,
  search_from false embedded_steps_pattern ma p (String d (". " ++ b ++ tail)) =
  None.
Proof.
  intros Hd Hb Ht Hs ma p. rewrite search_from_cons.
  rewrite (@try_line_none ma p d b tail Hd Hb Ht).
  replace (". " ++ b ++ tail) with ((". " ++ b) ++ tail)
    by (now rewrite str_app_assoc).
  rewrite search_nodigit_prefix; [reflexivity | | exact Hs].
  apply no_digit_numbered_tail. apply Hb.
Qed.

Lemma search_lines_none steps :
  Forall (fun s => is_digit (fst s) = true /\ plain_step (snd s)) steps ->
  forall ma p,
  search_from false embedded_steps_pattern ma p (lines_after steps) = None.
Proof.
  induction 1 as [|[d b] steps [Hd Hb] _ IH]; intros ma p.
  - cbn [lines_after search_from]. now rewrite try_embedded_nodigit.
  - cbn [lines_after fst snd numbered] in *. rewrite search_from_cons.
    rewrite try_embedded_nodigit by reflexivity.
    change (numbered (d, b) ++ lines_after steps)
      with (String d (". " ++ b ++ lines_after steps)).
    rewrite search_line_none; auto. apply lines_after_end.
Qed.

(** The lines end in the last character of the last step. *)
Lemma lines_after_rev steps :
  Forall (fun s => is_digit (fst s) = true /\ plain_step (snd s)) steps ->
  steps <> [] ->
  rev (lines_after steps) <> "" /\
  starts is_space (rev (lines_after steps)) = false.
Proof.
  induction 1 as [|[d b] steps [Hd Hb] _ IH]; intros Hne; [congruence |].
  cbn [fst snd] in *. destruct Hb as (_ & _ & Hb3).
  destruct (trimmed_ends Hb3) as [_ Hs2]. destruct Hb3 as [Hb _].
  assert (Hrb : rev b <> "").
  { intros E. apply Hb. rewrite <- (rev_involutive b), E. reflexivity. }
  cbn [lines_after]. unfold numbered. cbn [fst snd].
  rewrite rev_cons, rev_app, rev_cons.
  change (". " ++ b) with (String "." (String " " b)).
  rewrite !rev_cons.
  destruct steps as [|s2 steps].
  - cbn [lines_after rev append Str.rev_onto]. split.
    + destruct (rev b); [congruence | discriminate].
    + rewrite !str_app_assoc, str_starts_app.
      destruct (rev b); [congruence | exact Hs2].
  - destruct (IH ltac:(discriminate)) as [I1 I2].
    split.
    + destruct (rev (lines_after (s2 :: steps))); [congruence | discriminate].
    + rewrite !str_app_assoc, str_starts_app.
      destruct (rev (lines_after (s2 :: steps))); [congruence | exact I2].
Qed.

End LineFacts.

(** Steps numbered with one digit each and written one to a line are not
    taken apart: [.+] does not pass a line break, no two numbers are found
    on one line, and the text is kept as one step, less its first
    number. *)
Theorem split_embedded_steps_lines (s1 : ascii * string)
        (steps : list (ascii * string)) :
  Forall (fun s => Str.is_digit (fst s) = true /\
                   Normalizer.plain_step (snd s))
         (s1 :: steps) ->
  Normalizer.split_embedded_steps
    [Normalizer.numbered s1 ++ Normalizer.lines_after steps] =
  [snd s1 ++ Normalizer.lines_after steps].
Proof.
  intros H. destruct s1 as [d b].
  inversion H as [|? ? [Hd Hb] Hrest]; subst. cbn [fst snd] in *.
  pose proof Hb as (Hb1 & Hb2 & Hb3).
  destruct (SplitFacts.trimmed_ends Hb3) as [Hs1 Hs2].
  destruct Hb3 as [Hne Hfix].
  unfold Normalizer.numbered. cbn [fst snd].
  replace (String d (". " ++ b) ++ Normalizer.lines_after steps)
    with (String d (". " ++ b ++ Normalizer.lines_after steps))
    by reflexivity.
  assert (E : Normalizer.split_step
                (String d (". " ++ b ++ Normalizer.lines_after steps)) =
              [b ++ Normalizer.lines_after steps]).
  { unfold Normalizer.split_step, Re.search.
    rewrite LineFacts.search_line_none;
      [| exact Hd | exact Hb | apply LineFacts.lines_after_end
       | now apply LineFacts.search_lines_none].
    cbn [Re.found]. unfold Normalizer.strip_leading_number.
    change (String d (". " ++ b ++ Normalizer.lines_after steps))
      with (String d "" ++
            String "." (String " " (b ++ Normalizer.lines_after steps))).
    rewrite StepFacts.sub_leading_some by (cbn [Str.all]; now rewrite ?Hd).
    rewrite StepFacts.strip_lstrip.
    change (String " " (b ++ Normalizer.lines_after steps))
      with (" " ++ (b ++ Normalizer.lines_after steps)).
    rewrite StripFacts.strip_spaces by reflexivity.
    assert (Es : Str.strip (b ++ Normalizer.lines_after steps) =
                 b ++ Normalizer.lines_after steps).
    { rewrite <- (StrFacts.str_app_nil_r (b ++ Normalizer.lines_after steps)) at 1.
      apply SplitFacts.strip_core.
      - destruct b; [congruence | discriminate].
      - rewrite StrFacts.str_starts_app. destruct b; [congruence | exact Hs1].
      - rewrite StripFacts.rev_app, StrFacts.str_starts_app.
        destruct steps as [|s2 steps'].
        + cbn [Normalizer.lines_after Str.rev Str.rev_onto]. exact Hs2.
        + destruct (@LineFacts.lines_after_rev (s2 :: steps') Hrest
                      ltac:(discriminate)) as [I1 I2].
          destruct (Str.rev (Normalizer.lines_after (s2 :: steps')));
            [congruence | exact I2].
      - reflexivity. }
    rewrite Es. unfold Normalizer.keep_nonempty.
    destruct b; [congruence | reflexivity]. }
  unfold Normalizer.split_embedded_steps.
  cbn [flat_map]. rewrite List.app_nil_r, E. reflexivity.
Qed.

Lemma split_embedded_steps_lines_witness :
  Normalizer.split_embedded_steps
    [Normalizer.numbered ("1"%char, "Mix flour") ++
     Normalizer.lines_after [("2"%char, "Add water"); ("3"%char, "Bake")]] =
  ["Mix flour" ++
   Normalizer.lines_after [("2"%char, "Add water"); ("3"%char, "Bake")]].
Proof.
  apply (@split_embedded_steps_lines
           ("1"%char, "Mix flour")
           [("2"%char, "Add water"); ("3"%char, "Bake")]).
  repeat (constructor; [repeat split; (reflexivity || discriminate) |]).
  constructor.
Defined.

(** ** Restoring twice *)

Module SessionAgain.
Import Py App SessionFacts.

Lemma fold_fixed (f : dict -> string -> dict) keys st :
  Forall (fun key => f st key = st) keys -> fold_left f keys st = st.
Proof.
  induction 1 as [|key keys Hk _ IH]; cbn [fold_left]; [reflexivity |].
  now rewrite Hk.
Qed.

Lemma restore_key_settled d keys state key :
  In key keys ->
  restore_key d (fold_left (restore_key d) keys state) key =
  fold_left (restore_key d) keys state.
Proof.
  intros Hin. unfold restore_key at 1. unfold has_key.
  rewrite lookup_restore_keys.
  destruct (lookup key state); [reflexivity |].
  assert (E : existsb (fun k => (k =? key)%string) keys = true).
  { apply existsb_exists. exists key. split; [exact Hin | apply String.eqb_refl]. }
  rewrite E. cbn [andb].
  destruct (truthy (dict_get d key)); reflexivity.
Qed.

End SessionAgain.

(** Restoring the session a second time changes nothing. *)
Theorem restore_session_idempotent (session : option App.dict)
        (state : App.dict) :
  App.restore_session session (App.restore_session session state) =
  App.restore_session session state.
Proof.
  unfold App.restore_session. destruct session as [d|]; [| reflexivity].
  destruct (Py.truthy (Py.VDict d)); [| reflexivity].
  apply SessionAgain.fold_fixed. apply Forall_forall. intros key Hin.
  now apply SessionAgain.restore_key_settled.
Qed.
